(** * Customer Revenue Bridge: period calculator, bucket classifier and checks

    A shallow embedding of the revenue-bridge pipeline
    ([generic_tools.py], [crb_functions.py], [crb_checks.py] and the three
    classifiers under [arr_changes/]) together with the properties its
    specification states about it.

    A pandas dataframe is a list of row records; a column that may hold
    NaN/NaT is an [option]; comparisons against NaN are false, as in numpy.
    Monetary amounts are exact rationals ([Q]); flags are the numbers 0 and 1
    the code writes. *)

From Stdlib Require Import ZArith QArith Qabs Qround Lia List Bool DecimalString.
From stdpp Require Import gmap strings list fin_maps sorting.

Local Open Scope Z_scope.

(** ** Dates *)

Module Dates.

(** A [datetime64] value, as far as the pipeline looks at it. *)
Record date := mkDate { year : Z; month_of : Z; day : Z }.

#[global] Instance date_eq_dec : EqDecision date.
Proof. solve_decision. Defined.

(** A datetime cell of a column: [None] is [NaT]. *)
Definition dt := option date.

(** A date the calendar knows: month in 1..12 (the day is never read by
    the classifier). *)
Definition valid_month (d : date) : Prop := 1 <= month_of d <= 12.

Definition first_of_month (y m : Z) : date := mkDate y m 1.

Definition is_leap (y : Z) : bool :=
  ((y mod 4 =? 0) && negb (y mod 100 =? 0)) || (y mod 400 =? 0).

Definition days_in_month (y m : Z) : Z :=
  if m =? 2 then (if is_leap y then 29 else 28)
  else if (m =? 4) || (m =? 6) || (m =? 9) || (m =? 11) then 30
  else 31.

(** [d + pd.DateOffset(months=n)]: the month index moves by [n], the day
    is clipped to the length of the target month. *)
Definition add_months (d : date) (n : Z) : date :=
  let idx := year d * 12 + (month_of d - 1) + n in
  let y := idx / 12 in
  let m := idx mod 12 + 1 in
  mkDate y m (Z.min (day d) (days_in_month y m)).

(** Lexicographic order of timestamps. *)
Definition date_ltb (a b : date) : bool :=
  (year a <? year b)
  || ((year a =? year b)
      && ((month_of a <? month_of b)
          || ((month_of a =? month_of b) && (day a <? day b)))).

Definition date_leb (a b : date) : bool := negb (date_ltb b a).

(** Comparisons of datetime cells: anything against [NaT] is false. *)
Definition dt_ltb (a b : dt) : bool :=
  match a, b with Some x, Some y => date_ltb x y | _, _ => false end.
Definition dt_leb (a b : dt) : bool :=
  match a, b with Some x, Some y => date_leb x y | _, _ => false end.

(** [calculate_month_difference] on one row: the columns [start_date] and
    [end_date] hold [s] and [e]. *)
Definition calculate_month_difference (s e : date) : Z :=
  (year e - year s) * 12 + month_of e - month_of s.

(** The same on cells that may be [NaT]: [.dt.year] of [NaT] is NaN and
    NaN propagates through the arithmetic. *)
Definition month_difference (s e : dt) : option Z :=
  match s, e with
  | Some s, Some e => Some (calculate_month_difference s e)
  | _, _ => None
  end.

(** "End month precedes start month", on (year, month) pairs. *)
Definition month_precedes (e s : date) : Prop :=
  year e < year s \/ (year e = year s /\ month_of e < month_of s).

End Dates.
Export Dates.

(** ** Outcomes of fallible steps *)

Module Outcome.

(** The Python exceptions the pipeline can end with. *)
Inductive error :=
  | KeyError (what : string)
  | ValueError (message : string)
  | TypeError (what : string)
  | UnboundLocalError.

Inductive result (A : Type) := Ok (a : A) | Raise (e : error).
Arguments Ok {A} a.
Arguments Raise {A} e.

Definition bind {A B : Type} (x : result A) (k : A -> result B) : result B :=
  match x with Ok a => k a | Raise e => Raise e end.

Definition raises {A : Type} (x : result A) : Prop :=
  match x with Raise _ => True | Ok _ => False end.

(** Run a list of fallible per-row steps; the first failure aborts. *)
Fixpoint collect {A : Type} (l : list (result A)) : result (list A) :=
  match l with
  | [] => Ok []
  | x :: l' => bind x (fun a => bind (collect l') (fun t => Ok (a :: t)))
  end.

End Outcome.
Export Outcome.

#[global] Instance result_bind : MBind result := fun A B k x => bind x k.
#[global] Instance result_ret : MRet result := fun A a => Ok a.

(** ** Configuration *)

Module Config.

(** The reporting-period policy, [con['crb_type']] once validated. *)
Inductive crb_type := number_of_months | YTD | QTD | FYTD | FQTD.

#[global] Instance crb_type_eq_dec : EqDecision crb_type.
Proof. solve_decision. Defined.

(** [config['constants']], as the calculators read it. *)
Record constants := mkConstants {
  crb : crb_type;
  month_period : Z;
  fy_start_month : Z
}.

(** [crb_number_months()], the [static_period] flag of every module. *)
Definition crb_number_months (con : constants) : bool :=
  match crb con with number_of_months => true | _ => false end.

End Config.
Export Config.

(** ** Period calculator ([generic_tools.py]) *)

Module Period.

(** One cell of a working column of the dataframe. [Absent]: the dataframe
    has no such column (reading it is a [KeyError]); [NaN]: the column
    exists and this row was never assigned. *)
Inductive cell := Absent | NaN | Num (z : Z).

(** The working columns the two calculators leave behind in [df]. They
    survive from one call to the next: no caller drops them. *)
Record scratch := mkScratch {
  month_next_period : cell;
  year_next_period : cell
}.

Definition fresh : scratch := mkScratch Absent Absent.

(** [df.loc[mask, col] = v] on one row; a column that did not exist is
    created, NaN where the mask is false. *)
Definition loc_set (mask : bool) (v : option Z) (c : cell) : cell :=
  if mask then match v with Some z => Num z | None => NaN end
  else match c with Absent => NaN | _ => c end.

Definition nan_of (c : cell) : option Z :=
  match c with Num z => Some z | _ => None end.

(** Comparisons of a possibly-NaN number with a constant. *)
Definition nan_ltb (a : option Z) (b : Z) : bool :=
  match a with Some x => x <? b | None => false end.
Definition nan_geb (a : option Z) (b : Z) : bool :=
  match a with Some x => x >=? b | None => false end.

(** [pd.to_datetime(dict(year=..., month=..., day=1))]: a row with a NaN
    component assembles to NaT. *)
Definition to_datetime (y m : option Z) : dt :=
  match y, m with
  | Some y, Some m => Some (first_of_month y m)
  | _, _ => None
  end.

(** The fiscal start month in force: [con['fy_start_month']] is overwritten
    with 1 under YTD and QTD. *)
Definition effective_fy (con : constants) : Z :=
  match crb con with YTD | QTD => 1 | _ => fy_start_month con end.

(** A [% 12] result of 0 stands for December. *)
Definition zero_as_twelve (m : Z) : Z := if m =? 0 then 12 else m.

Definition soq_of (fy x : Z) : Z := zero_as_twelve ((fy + 3 * x) mod 12).
Definition eoq_of (fy x : Z) : Z := zero_as_twelve ((fy + 3 * (x + 1)) mod 12).

(** One pass of the [for x in range(0, 4)] loop of
    [calculate_start_of_next_period]: four masked assignments. *)
Definition next_quarter_step (fy : Z) (m y : option Z)
    (s : scratch) (x : Z) : scratch :=
  let soq := soq_of fy x in
  let eoq := eoq_of fy x in
  let same_year := nan_geb m soq && nan_ltb m 10 && nan_ltb m eoq in
  let s1 := mkScratch (loc_set same_year (Some eoq) (month_next_period s))
                      (loc_set same_year y (year_next_period s)) in
  let following := nan_geb m soq && (soq >=? 10) in
  mkScratch (loc_set following (Some eoq) (month_next_period s1))
            (loc_set following (Z.succ <$> y) (year_next_period s1)).

(** [calculate_start_of_next_period(df, time_col)] on one row whose
    [time_col] cell is [d]; [s] is what earlier calls left in the working
    columns. Returns the new working columns and the series value. *)
Definition calculate_start_of_next_period (con : constants)
    (s : scratch) (d : dt) : scratch * dt :=
  let m := month_of <$> d in
  let y := year <$> d in
  match crb con with
  | YTD | FYTD =>
      let fy := effective_fy con in
      let yr := loc_set (nan_geb m fy) (Z.succ <$> y)
                  (loc_set (nan_ltb m fy) y (year_next_period s)) in
      let s' := mkScratch (Num fy) yr in
      (s', to_datetime (nan_of yr) (Some fy))
  | QTD | FQTD =>
      let s' := fold_left (next_quarter_step (effective_fy con) m y)
                          (seqZ 0 4) s in
      (s', to_datetime (nan_of (year_next_period s'))
                       (nan_of (month_next_period s')))
  | number_of_months =>
      (s, (fun d => add_months d (month_period con)) <$> d)
  end.

(** One pass of the loop of [calculate_start_of_current_period]. *)
Definition current_quarter_step (fy : Z) (m y : option Z)
    (s : scratch) (x : Z) : scratch :=
  let soq := soq_of fy x in
  let eoq := eoq_of fy x in
  let same_year := nan_geb m soq && nan_ltb m 10 && nan_ltb m eoq in
  let s1 := mkScratch (loc_set same_year (Some soq) (month_next_period s))
                      (loc_set same_year y (year_next_period s)) in
  let following := nan_geb m soq && (soq >=? 10) in
  mkScratch (loc_set following (Some soq) (month_next_period s1))
            (loc_set following (Z.pred <$> y) (year_next_period s1)).

(** [calculate_start_of_current_period(df, time_col)] on one row. Under
    YTD/FYTD the code fills [month_current_period] but assembles the date
    from [month_next_period], whatever an earlier call left there; with no
    branch taken the returned name is unbound. *)
Definition calculate_start_of_current_period (con : constants)
    (s : scratch) (d : dt) : scratch * result dt :=
  let m := month_of <$> d in
  let y := year <$> d in
  match crb con with
  | YTD | FYTD =>
      let fy := effective_fy con in
      let yr := loc_set (nan_geb m fy) y
                  (loc_set (nan_ltb m fy) (Z.pred <$> y) (year_next_period s)) in
      let s' := mkScratch (month_next_period s) yr in
      match month_next_period s with
      | Absent => (s', Raise (KeyError "month_next_period"))
      | c => (s', Ok (to_datetime (nan_of yr) (nan_of c)))
      end
  | QTD | FQTD =>
      let s' := fold_left (current_quarter_step (effective_fy con) m y)
                          (seqZ 0 4) s in
      (s', Ok (to_datetime (nan_of (year_next_period s'))
                           (nan_of (month_next_period s'))))
  | number_of_months => (s, Raise UnboundLocalError)
  end.

(** What the specification asks of the quarter policies: the first day of
    the fiscal quarter that follows the quarter of [d], quarters starting
    at the months congruent to [fy] modulo 3. *)
Definition following_quarter_start (fy : Z) (d : date) : date :=
  let into_quarter := (month_of d - fy) mod 3 in
  let m' := month_of d + (3 - into_quarter) in
  if m' >? 12 then first_of_month (year d + 1) (m' - 12)
  else first_of_month (year d) m'.

(** Whether some pass of the quarter loop assigns the row of month [m]:
    the disjunction of the two masks over the four quarters. *)
Definition quarter_assigned (fy m : Z) : bool :=
  existsb (fun x =>
      let soq := soq_of fy x in
      let eoq := eoq_of fy x in
      ((m >=? soq) && (m <? 10) && (m <? eoq)) || ((m >=? soq) && (soq >=? 10)))
    (seqZ 0 4).

(** The quarter boundary months [(fy + 3k) mod 12], 0 read as 12. *)
Definition quarter_boundaries (fy : Z) : list Z :=
  (soq_of fy) <$> seqZ 0 4.

End Period.
Export Period.

(** ** Rows of the working dataframe *)

Module Rows.

(** A revenue row as the row source delivers it. *)
Record revenue_row := mkRevenue {
  customer_id : Z;
  product_id : Z;
  primary_key : Z;
  month : date;
  arr : Q
}.

(** The lifespan columns merged onto every row by
    [calculate_segment_start_end_dates]; all NaT when the left merge found
    no partner. *)
Record lifespan := mkLifespan {
  segment_start_date : dt;
  segment_end_date : dt;
  product_start_date : dt;
  product_end_date : dt;
  product_churn_date : dt;
  customer_start_date : dt;
  customer_end_date : dt;
  customer_churn_date : dt
}.

(** The eight flag columns. [None]: not written yet, or NaN. *)
Record flags := mkFlags {
  new_customer_flag : option Z;
  customer_churn_flag : option Z;
  cross_sell_flag : option Z;
  product_churn_flag : option Z;
  existing_customer_flag : option Z;
  existing_product_flag : option Z;
  upsell_flag : option Z;
  downsell_flag : option Z
}.

Definition no_flags : flags :=
  mkFlags None None None None None None None None.

(** The [*_delta] columns of [create_arr_deltas]. *)
Record deltas := mkDeltas {
  new_customer_delta : option Q;
  customer_churn_delta : option Q;
  cross_sell_delta : option Q;
  product_churn_delta : option Q;
  upsell_delta : option Q;
  downsell_delta : option Q
}.

Definition no_deltas : deltas := mkDeltas None None None None None None.

(** One row of [df_month] on its way through the pipeline. *)
Record row := mkRow {
  revenue : revenue_row;
  life : lifespan;
  work : scratch;
  arr_bop : Q;
  arr_delta : Q;
  flag : flags;
  delta : deltas
}.

Definition with_work (s : scratch) (r : row) : row :=
  mkRow (revenue r) (life r) s (arr_bop r) (arr_delta r) (flag r) (delta r).
Definition with_flags (f : flags) (r : row) : row :=
  mkRow (revenue r) (life r) (work r) (arr_bop r) (arr_delta r) f (delta r).
Definition with_deltas (d : deltas) (r : row) : row :=
  mkRow (revenue r) (life r) (work r) (arr_bop r) (arr_delta r) (flag r) d.
Definition with_arr_change (bop : Q) (r : row) : row :=
  mkRow (revenue r) (life r) (work r) bop (arr (revenue r) - bop)%Q
        (flag r) (delta r).

(** A row as the lifespan merge hands it on: nothing computed yet. *)
Definition initial_row (v : revenue_row) (l : lifespan) : row :=
  mkRow v l fresh 0 0 no_flags no_deltas.

(** Numeric comparisons on amounts. *)
Definition Qlt_bool (x y : Q) : bool := negb (Qle_bool y x).
Definition Qnonzero (x : Q) : bool := negb (Qeq_bool x 0).

(** [series == v] on a flag cell: NaN equals nothing. *)
Definition flag_is (c : option Z) (v : Z) : bool :=
  match c with Some x => x =? v | None => false end.

(** [series.fillna(0)]. *)
Definition fillna0 (c : option Z) : option Z :=
  match c with None => Some 0 | c => c end.

(** [np.where(cond, 1, 0)]. *)
Definition where_1_0 (cond : bool) : option Z := Some (if cond then 1 else 0).

(** Comparisons of two possibly-NaN month counts. *)
Definition nan_lt (a b : option Z) : bool :=
  match a, b with Some x, Some y => x <? y | _, _ => false end.
Definition nan_ge (a b : option Z) : bool :=
  match a, b with Some x, Some y => x >=? y | _, _ => false end.
Definition nan_pos (a : option Z) : bool :=
  match a with Some x => x >? 0 | None => false end.

End Rows.
Export Rows.

(** ** Row-level bucket classifier ([arr_changes/]) *)

Module Classifier.

(** [dict = {}; for x in range(lo, hi): dict[x] = 1]. *)
Definition flag_dict (lo hi : Z) : gmap Z Z :=
  fold_left (fun d x => <[x := 1]> d) (seqZ lo (hi - lo)) ∅.

(** [time_diff.map(dict)]: a key the dict lacks, or NaN, maps to NaN. *)
Definition map_dict (d : gmap Z Z) (time_diff : option Z) : option Z :=
  time_diff ≫= (fun k => d !! k).

(** The calendar-policy test of one flag: the date column is compared with
    the row's month and with the start of the period after the date. *)
Definition in_first_period (con : constants) (s : scratch)
    (anchor : dt) (m : date) : scratch * bool :=
  let '(s', start_of_next_period) := calculate_start_of_next_period con s anchor in
  let time_diff := month_difference anchor (Some m) in
  let next_period_diff := month_difference anchor start_of_next_period in
  (s', nan_lt time_diff next_period_diff && nan_pos time_diff).

(** [ChurnNewLogo.crb_add_churn_flags]. *)
Definition crb_add_churn_flags (con : constants) (r : row) : row :=
  let m := month (revenue r) in
  let l := life r in
  let f := flag r in
  if crb_number_months con then
    let dict := flag_dict 0 (month_period con) in
    let new_customer :=
      fillna0 (map_dict dict (month_difference (customer_start_date l) (Some m))) in
    let customer_churn :=
      fillna0 (map_dict dict (month_difference (customer_churn_date l) (Some m))) in
    with_flags (mkFlags new_customer customer_churn
                  (cross_sell_flag f) (product_churn_flag f)
                  (existing_customer_flag f) (existing_product_flag f)
                  (upsell_flag f) (downsell_flag f)) r
  else
    let '(s1, is_new) := in_first_period con (work r) (customer_start_date l) m in
    let '(s2, is_churn) := in_first_period con s1 (customer_churn_date l) m in
    with_work s2
      (with_flags (mkFlags (where_1_0 is_new) (where_1_0 is_churn)
                     (cross_sell_flag f) (product_churn_flag f)
                     (existing_customer_flag f) (existing_product_flag f)
                     (upsell_flag f) (downsell_flag f)) r).

(** [not_new_or_churn], the mask of the cross-sell step. *)
Definition not_new_or_churn (f : flags) : bool :=
  flag_is (new_customer_flag f) 0 && flag_is (customer_churn_flag f) 0.

(** [df.loc[mask, col] = values] on a flag cell. *)
Definition loc_flag (mask : bool) (v old : option Z) : option Z :=
  if mask then v else old.

(** [DowngradeCrossSell.crb_add_cross_sell_flags]. *)
Definition crb_add_cross_sell_flags (con : constants) (r : row) : row :=
  let m := month (revenue r) in
  let l := life r in
  let f := flag r in
  let mask := not_new_or_churn f in
  if crb_number_months con then
    let dict := flag_dict 0 (month_period con) in
    let cross_sell :=
      fillna0 (loc_flag mask
                 (map_dict dict (month_difference (product_start_date l) (Some m)))
                 (cross_sell_flag f)) in
    let product_churn :=
      fillna0 (loc_flag mask
                 (map_dict dict (month_difference (product_churn_date l) (Some m)))
                 (product_churn_flag f)) in
    with_flags (mkFlags (new_customer_flag f) (customer_churn_flag f)
                  cross_sell product_churn
                  (existing_customer_flag f) (existing_product_flag f)
                  (upsell_flag f) (downsell_flag f)) r
  else
    let '(s1, is_cross) := in_first_period con (work r) (product_start_date l) m in
    let '(s2, is_down) := in_first_period con s1 (product_churn_date l) m in
    with_work s2
      (with_flags (mkFlags (new_customer_flag f) (customer_churn_flag f)
                     (fillna0 (where_1_0 (mask && is_cross)))
                     (fillna0 (where_1_0 (mask && is_down)))
                     (existing_customer_flag f) (existing_product_flag f)
                     (upsell_flag f) (downsell_flag f)) r).

(** The mask of the upsell step: no other bucket fired and the entity
    existed in the previous period. *)
Definition upsell_mask (f : flags) : bool :=
  flag_is (new_customer_flag f) 0 && flag_is (customer_churn_flag f) 0
  && flag_is (cross_sell_flag f) 0 && flag_is (product_churn_flag f) 0
  && flag_is (existing_customer_flag f) 1 && flag_is (existing_product_flag f) 1.

(** The first half of [crb_upsell_flags]: the two [existing_*] columns. *)
Definition existing_flags (con : constants) (r : row) : row :=
  let m := month (revenue r) in
  let l := life r in
  let f := flag r in
  let cust_start_diff := month_difference (customer_start_date l) (Some m) in
  let prod_start_diff := month_difference (product_start_date l) (Some m) in
  if crb_number_months con then
    let dict := flag_dict (month_period con) 100 in
    with_flags (mkFlags (new_customer_flag f) (customer_churn_flag f)
                  (cross_sell_flag f) (product_churn_flag f)
                  (fillna0 (map_dict dict cust_start_diff))
                  (fillna0 (map_dict dict prod_start_diff))
                  (upsell_flag f) (downsell_flag f)) r
  else
    let '(s1, next_customer) :=
      calculate_start_of_next_period con (work r) (customer_start_date l) in
    let '(s2, next_product) :=
      calculate_start_of_next_period con s1 (product_start_date l) in
    let cust_next_period_diff := month_difference (customer_start_date l) next_customer in
    let prod_next_period_diff := month_difference (product_start_date l) next_product in
    with_work s2
      (with_flags (mkFlags (new_customer_flag f) (customer_churn_flag f)
                     (cross_sell_flag f) (product_churn_flag f)
                     (where_1_0 (nan_ge cust_start_diff cust_next_period_diff))
                     (where_1_0 (nan_ge prod_start_diff prod_next_period_diff))
                     (upsell_flag f) (downsell_flag f)) r).

(** [DownsellUpsell.crb_upsell_flags]. *)
Definition crb_upsell_flags (con : constants) (r : row) : row :=
  let r1 := existing_flags con r in
  let f := flag r1 in
  let mask := upsell_mask f in
  let upsell_bool := Qlt_bool 0 (arr_delta r1) && mask in
  let downsell_bool := Qlt_bool (arr_delta r1) 0 && mask in
  with_flags (mkFlags (new_customer_flag f) (customer_churn_flag f)
                (cross_sell_flag f) (product_churn_flag f)
                (existing_customer_flag f) (existing_product_flag f)
                (fillna0 (loc_flag upsell_bool (Some 1) (upsell_flag f)))
                (fillna0 (loc_flag downsell_bool (Some 1) (downsell_flag f)))) r1.

(** The three classifier steps in the order [main.py] runs them. *)
Definition classify_row (con : constants) (r : row) : row :=
  crb_upsell_flags con (crb_add_cross_sell_flags con (crb_add_churn_flags con r)).

(** The six bucket flags of a row (the [existing_*] pair left out). *)
Definition bucket_flags (f : flags) : list (option Z) :=
  [new_customer_flag f; customer_churn_flag f; cross_sell_flag f;
   product_churn_flag f; upsell_flag f; downsell_flag f].

(** How many of the six bucket flags equal 1. *)
Definition buckets_set (f : flags) : nat :=
  length (filter (fun c => flag_is c 1 = true) (bucket_flags f)).

(** A row as it leaves the ARR-change step: no flag column written yet. *)
Definition unclassified (r : row) : Prop := flag r = no_flags.

(** The age of the customer at a row, in months. *)
Definition customer_age (r : row) : option Z :=
  month_difference (customer_start_date (life r)) (Some (month (revenue r))).
Definition product_age (r : row) : option Z :=
  month_difference (product_start_date (life r)) (Some (month (revenue r))).
Definition months_since_customer_churn (r : row) : option Z :=
  month_difference (customer_churn_date (life r)) (Some (month (revenue r))).

(** The fixed-window rule in the specification's words: the flag is 1
    exactly when the elapsed months lie strictly between 0 and [N]. *)
Definition flagged_strictly_within (N : Z) (elapsed c : option Z) : Prop :=
  c = Some 1 <-> exists k, elapsed = Some k /\ 0 < k < N.

(** What the code's lookup table gives: month 0 included. *)
Definition flagged_within (lo hi : Z) (elapsed c : option Z) : Prop :=
  c = Some 1 <-> exists k, elapsed = Some k /\ lo <= k < hi.

(** The mask of the upsell step, as a proposition on the final flags. *)
Definition other_buckets_clear_and_existing (f : flags) : Prop :=
  new_customer_flag f = Some 0 /\ customer_churn_flag f = Some 0
  /\ cross_sell_flag f = Some 0 /\ product_churn_flag f = Some 0
  /\ existing_customer_flag f = Some 1 /\ existing_product_flag f = Some 1.

Definition zero_or_one (c : option Z) : Prop := c = Some 0 \/ c = Some 1.

(** Exclusivity as the specification states it: at most one of the six
    bucket flags is 1. *)
Definition at_most_one_bucket (f : flags) : Prop := (buckets_set f <= 1)%nat.

(** Exclusivity as the masks give it: the upsell step excludes every other
    bucket, the cross-sell step excludes the two customer buckets. *)
Definition exclusive_across_steps (f : flags) : Prop :=
  (upsell_flag f = Some 1 \/ downsell_flag f = Some 1 ->
     new_customer_flag f = Some 0 /\ customer_churn_flag f = Some 0
     /\ cross_sell_flag f = Some 0 /\ product_churn_flag f = Some 0)
  /\ ~ (upsell_flag f = Some 1 /\ downsell_flag f = Some 1)
  /\ (cross_sell_flag f = Some 1 \/ product_churn_flag f = Some 1 ->
     new_customer_flag f = Some 0 /\ customer_churn_flag f = Some 0).

End Classifier.
Export Classifier.

(** ** The dataframe pipeline ([data_pre_processing.py], [crb_functions.py]) *)

Module Pipeline.

Definition Qsum (l : list Q) : Q := fold_right Qplus 0%Q l.

Definition min_date (l : list date) : dt :=
  fold_right (fun d acc => match acc with
                           | None => Some d
                           | Some a => Some (if date_ltb d a then d else a)
                           end) None l.

Definition max_date (l : list date) : dt :=
  fold_right (fun d acc => match acc with
                           | None => Some d
                           | Some a => Some (if date_ltb a d then d else a)
                           end) None l.

(** [pd.date_range(start, end, freq='MS')] for first-of-month bounds. *)
Definition month_range (first last : date) : list date :=
  (fun i => add_months first i)
    <$> seqZ 0 (calculate_month_difference first last + 1).

Definition segment_key (v : revenue_row) : Z * Z * Z :=
  (primary_key v, customer_id v, product_id v).

(** [DataPreProcessing.fill_month_completeness]: every primary key gets a
    row with [arr = 0] for each month of the spine (first month of the data
    to twelve months after the last) it has no row for. *)
Definition fill_month_completeness (df : list revenue_row) : list revenue_row :=
  match min_date (month <$> df), max_date (month <$> df) with
  | Some month_min, Some last =>
      let date_spine := month_range month_min (add_months last 12) in
      let df_pk := remove_dups (segment_key <$> df) in
      let df_merged :=
        k ← df_pk; (fun m => mkRevenue k.1.2 k.2 k.1.1 m 0) <$> date_spine in
      let missing :=
        List.filter (fun g => negb (existsb (fun v =>
                       bool_decide (segment_key v = segment_key g
                                    /\ month v = month g)) df)) df_merged in
      df ++ missing
  | _, _ => df
  end.

(** A row of [df_with_rev_corrections]: ARR summed per customer, product
    and month. *)
Record product_month := mkProductMonth {
  pm_customer : Z;
  pm_product : Z;
  pm_month : date;
  pm_arr : Q
}.

Definition rev_corrections (df_no_zeros : list revenue_row) : list product_month :=
  (fun k : Z * Z * date =>
     mkProductMonth k.1.1 k.1.2 k.2
       (Qsum (arr <$> List.filter (fun v =>
                 bool_decide ((customer_id v, product_id v, month v) = k))
               df_no_zeros)))
  <$> remove_dups ((fun v => (customer_id v, product_id v, month v)) <$> df_no_zeros).

(** The lifespan columns [calculate_segment_start_end_dates] merges onto a
    row: [max_min_dates] at the three levels, the product table left-merged
    with the customer table and the segment table, the result left-merged
    onto the data. A row whose segment or product has no active month finds
    no partner and gets NaT throughout. *)
Definition lifespan_of (df : list revenue_row) (v : revenue_row) : lifespan :=
  let df_no_zeros := List.filter (fun w => Qnonzero (arr w)) df in
  let corrected :=
    List.filter (fun e => Qnonzero (pm_arr e)) (rev_corrections df_no_zeros) in
  let segment :=
    month <$> List.filter (fun w => bool_decide (segment_key w = segment_key v))
                df_no_zeros in
  let product :=
    pm_month <$> List.filter (fun e =>
       (pm_customer e =? customer_id v) && (pm_product e =? product_id v))
       corrected in
  let customer :=
    pm_month <$> List.filter (fun e => pm_customer e =? customer_id v) corrected in
  match min_date product, min_date segment with
  | Some _, Some _ =>
      mkLifespan (min_date segment) (max_date segment)
        (min_date product) (max_date product)
        ((fun d => add_months d 1) <$> max_date product)
        (min_date customer) (max_date customer)
        ((fun d => add_months d 1) <$> max_date customer)
  | _, _ => mkLifespan None None None None None None None None
  end.

Definition calculate_segment_start_end_dates (df : list revenue_row) : list row :=
  (fun v => initial_row v (lifespan_of df v)) <$> df.

(** [trim_dataset]. *)
Definition trim_dataset (con : constants) (df : list row) : list row :=
  if crb_number_months con then
    List.filter (fun r =>
        dt_leb (segment_start_date (life r)) (Some (month (revenue r)))
        && dt_leb (Some (month (revenue r)))
             ((fun d => add_months d (month_period con))
                <$> segment_end_date (life r)))
      df
  else
    let df' := (fun r =>
        let '(s, seg_end_date_period) :=
          calculate_start_of_next_period con (work r) (segment_end_date (life r)) in
        (with_work s r, seg_end_date_period)) <$> df in
    fst <$> List.filter (fun rp =>
        dt_leb (segment_start_date (life rp.1)) (Some (month (revenue rp.1)))
        && dt_ltb (Some (month (revenue rp.1))) rp.2)
      df'.

(** [df.sort_values(['primary_key', 'month'])]. *)
Definition row_leb (a b : row) : bool :=
  (primary_key (revenue a) <? primary_key (revenue b))
  || ((primary_key (revenue a) =? primary_key (revenue b))
      && date_leb (month (revenue a)) (month (revenue b))).

Fixpoint insert_sorted (r : row) (l : list row) : list row :=
  match l with
  | [] => [r]
  | x :: l' => if row_leb r x then r :: l else x :: insert_sorted r l'
  end.

Definition sort_values (df : list row) : list row :=
  fold_right insert_sorted [] df.

(** [df.groupby('primary_key')['arr'].shift(periods=N).fillna(0)] at the
    row in position [i]. *)
Definition shifted_arr (N : Z) (df : list row) (i : nat) (r : row) : Q :=
  let same := fun r' => primary_key (revenue r') =? primary_key (revenue r) in
  let position := Z.of_nat (length (List.filter same (take i df))) in
  let j := position - N in
  if 0 <=? j then
    match List.filter same df !! Z.to_nat j with
    | Some r' => arr (revenue r')
    | None => 0%Q
    end
  else 0%Q.

(** The left self-merge on (primary key, start of current period): one
    output row per partner, a lone row with [arr_bop = 0] when there is
    none. *)
Definition merge_bop (df : list row) (r : row) (start_of_current_period : dt)
    : list row :=
  match List.filter (fun r' =>
          (primary_key (revenue r') =? primary_key (revenue r))
          && bool_decide (Some (month (revenue r')) = start_of_current_period)) df with
  | [] => [with_arr_change 0 r]
  | partners => (fun r' => with_arr_change (arr (revenue r')) r) <$> partners
  end.

(** [calculate_arr_changes]. *)
Definition calculate_arr_changes (con : constants) (df : list row)
    : result (list row) :=
  let df := sort_values df in
  if crb_number_months con then
    Ok (imap (fun i r => with_arr_change (shifted_arr (month_period con) df i r) r) df)
  else
    periods ← collect ((fun r =>
        let '(s, p) := calculate_start_of_current_period con (work r)
                         (Some (month (revenue r))) in
        d ← p; Ok (with_work s r, d)) <$> df);
    Ok (rp ← periods; merge_bop (fst <$> periods) rp.1 rp.2).

(** One [*_delta] column: flag times [arr_delta]. *)
Definition flag_times (c : option Z) (d : Q) : option Q :=
  (fun z => inject_Z z * d)%Q <$> c.

(** [create_arr_deltas]: a delta column for every column whose name has
    'flag' and not 'existing'. *)
Definition create_arr_deltas (r : row) : row :=
  let f := flag r in
  let d := arr_delta r in
  with_deltas (mkDeltas (flag_times (new_customer_flag f) d)
                 (flag_times (customer_churn_flag f) d)
                 (flag_times (cross_sell_flag f) d)
                 (flag_times (product_churn_flag f) d)
                 (flag_times (upsell_flag f) d)
                 (flag_times (downsell_flag f) d)) r.

(** The row filter of [create_flattened_output]. *)
Definition create_flattened_output (df : list row) : list row :=
  List.filter (fun r => date_leb (mkDate 2012 1 1) (month (revenue r))) df.

(** An amount cell that holds a number, and that number is zero. *)
Definition zero_amount (c : option Q) : Prop :=
  exists q, c = Some q /\ (q == 0)%Q.


(** [crb_upsell_flags] on the whole frame. The column [upsell_flag] does
    not exist when the step starts, and
    [df.loc[upsell_bool, 'upsell_flag'] = 1] creates it from a scalar, which
    pandas refuses on a frame without rows. *)
Definition crb_upsell_flags_frame (con : constants) (df : list row)
    : result (list row) :=
  match df with
  | [] => Raise (ValueError
                   "cannot set a frame with no defined index and a scalar")
  | _ :: _ => Ok (crb_upsell_flags con <$> df)
  end.

(** The computation part of [main.py], from gap filling to the flat table.
    The input has no [is_recurring] column, so
    [remove_non_recurring_rows] changes nothing. *)
Definition customer_revenue_bridge (con : constants) (data : list revenue_row)
    : result (list row) :=
  let df_month := fill_month_completeness data in
  let df_month := calculate_segment_start_end_dates df_month in
  let df_month := trim_dataset con df_month in
  df_month ← calculate_arr_changes con df_month;
  let df_month := crb_add_churn_flags con <$> df_month in
  let df_month := crb_add_cross_sell_flags con <$> df_month in
  df_month ← crb_upsell_flags_frame con df_month;
  let df_month := create_arr_deltas <$> df_month in
  Ok (create_flattened_output df_month).

(** Modelled from the spec: the renaming table [tableau_col_mapping] of the
    configuration file, which gives the delta columns their names in the
    flat table, is not part of the sources; churn is the customer-churn
    bucket and downgrade the product-churn bucket. *)
Definition Delta_Churn (r : row) := customer_churn_delta (delta r).
Definition Delta_Downgrade (r : row) := product_churn_delta (delta r).
Definition Delta_New_Customer (r : row) := new_customer_delta (delta r).
Definition Delta_Cross_Sell (r : row) := cross_sell_delta (delta r).
Definition Delta_Upsell (r : row) := upsell_delta (delta r).
Definition Delta_Downsell (r : row) := downsell_delta (delta r).

(** [series > 0] and [series < 0] on an amount column (NaN: false). *)
Definition positive (c : option Q) : bool :=
  match c with Some q => Qlt_bool 0 q | None => false end.
Definition negative (c : option Q) : bool :=
  match c with Some q => Qlt_bool q 0 | None => false end.

Definition raise_if_any (bad : row -> bool) (message : string) (df : list row)
    : result unit :=
  if existsb bad df then Raise (ValueError message) else Ok tt.

Definition check_no_positive_churn (df : list row) : result unit :=
  _ ← raise_if_any (fun r => positive (Delta_Churn r))
         "Customers in the dataset have positive churn" df;
  raise_if_any (fun r => positive (Delta_Downgrade r))
    "Customers in the dataset have positive product churn" df.

Definition check_no_negative_new_logo (df : list row) : result unit :=
  _ ← raise_if_any (fun r => negative (Delta_New_Customer r))
         "Customers in the dataset have negative new logo." df;
  raise_if_any (fun r => negative (Delta_Cross_Sell r))
    "Customers in the dataset have negative cross-sell." df.

Definition check_upsell_downsell_direction (df : list row) : result unit :=
  _ ← raise_if_any (fun r => negative (Delta_Upsell r))
         "Customers in the dataset have negative upsell." df;
  raise_if_any (fun r => positive (Delta_Downsell r))
    "Customers in the dataset have positive downsell." df.

(** The three directionality checks in the order [main.py] runs them. *)
Definition directionality_checks (df_flat_file : list row) : result unit :=
  _ ← check_no_positive_churn df_flat_file;
  _ ← check_no_negative_new_logo df_flat_file;
  check_upsell_downsell_direction df_flat_file.

(** The sign invariants of the flat table, row by row. *)
Definition signs_ok (r : row) : Prop :=
  positive (Delta_Churn r) = false /\ positive (Delta_Downgrade r) = false
  /\ negative (Delta_New_Customer r) = false
  /\ negative (Delta_Cross_Sell r) = false
  /\ negative (Delta_Upsell r) = false /\ positive (Delta_Downsell r) = false.

(** The preconditions on the input the row source guarantees. *)
Definition non_negative_arr (data : list revenue_row) : Prop :=
  Forall (fun v => (0 <= arr v)%Q) data.
Definition unique_keys (data : list revenue_row) : Prop :=
  NoDup ((fun v => (primary_key v, month v)) <$> data).

(** Consecutive monthly rows of one segment, from [start] on. *)
Definition monthly (customer product key : Z) (start : date) (amounts : list Q)
    : list revenue_row :=
  imap (fun i a => mkRevenue customer product key
                     (add_months start (Z.of_nat i)) a) amounts.

End Pipeline.
Export Pipeline.

(** ** Configuration check ([crb_checks.py]) *)

Module ConfigCheck.

(** A value of the YAML configuration as Python sees it. Finite floats are
    exact rationals here. *)
Inductive pyval :=
  | PyInt (z : Z)
  | PyFloat (q : Q)
  | PyBool (b : bool)
  | PyStr (s : string)
  | PyNone
  | PySeq.

(** [con[key]]. *)
Definition item (con : gmap string pyval) (key : string) : result pyval :=
  match con !! key with
  | Some v => Ok v
  | None => Raise (KeyError key)
  end.

(** [isinstance(v, numbers.Number)]: [bool] is a subclass of [int]. *)
Definition is_number (v : pyval) : bool :=
  match v with PyInt _ | PyFloat _ | PyBool _ => true | _ => false end.

(** [v == 'text']. *)
Definition str_eq (v : pyval) (text : string) : bool :=
  match v with PyStr t => bool_decide (t = text) | _ => false end.

(** [v in [texts]]. *)
Definition py_in (v : pyval) (texts : list string) : bool :=
  existsb (str_eq v) texts.

(** [v <= n] and [v > n] against an integer literal; ordering a string,
    [None] or a sequence against an int is a [TypeError]. *)
Definition py_le (v : pyval) (n : Z) : result bool :=
  match v with
  | PyInt z => Ok (z <=? n)
  | PyFloat q => Ok (Qle_bool q (inject_Z n))
  | PyBool b => Ok (Z.b2z b <=? n)
  | _ => Raise (TypeError "<=")
  end.

Definition py_gt (v : pyval) (n : Z) : result bool :=
  match v with
  | PyInt z => Ok (n <? z)
  | PyFloat q => Ok (negb (Qle_bool q (inject_Z n)))
  | PyBool b => Ok (n <? Z.b2z b)
  | _ => Raise (TypeError ">")
  end.

Definition crb_type_options : list string :=
  ["number_of_months"; "YTD"; "QTD"; "FYTD"; "FQTD"].

Arguments str_eq : simpl never.
Arguments py_in : simpl never.

(** [check_config_time_period]. [strftime_month v] stands for the month
    name [pd.to_datetime(v, format='%m').strftime('%B')] the FYTD/FQTD
    message is built from ([None] when pandas rejects [v]); the operands of
    the non-short-circuit [&] are all evaluated. *)
Definition check_config_time_period (strftime_month : pyval -> option string)
    (con : gmap string pyval) : result unit :=
  crb_type ← item con "crb_type";
  if negb (py_in crb_type crb_type_options) then
    Raise (KeyError "CRB type selected not valid")
  else
    _ ← (if str_eq crb_type "number_of_months" then
           month_period ← item con "month_period";
           if is_number month_period then Ok tt
           else Raise (ValueError
                  "Please select a valid number of months in the con file.")
         else Ok tt);
    if py_in crb_type ["FYTD"; "FQTD"] then
      fy ← item con "fy_start_month";
      le ← py_le fy 12;
      gt ← py_gt fy 0;
      if is_number fy && le && gt then
        match strftime_month fy with
        | Some _ => Ok tt
        | None => Raise (ValueError "time data does not match format")
        end
      else Raise (ValueError
             "Please select a valid FY start month in the config file.")
    else Ok tt.

(** The specification's notion of a well-formed entry. *)
Definition positive_int (v : option pyval) : bool :=
  match v with Some (PyInt z) => 0 <? z | _ => false end.
Definition int_1_to_12 (v : option pyval) : bool :=
  match v with Some (PyInt z) => (1 <=? z) && (z <=? 12) | _ => false end.

(** "The configuration is invalid", in the specification's words. *)
Definition invalid_as_specified (con : gmap string pyval) : Prop :=
  match con !! "crb_type" with
  | Some crb_type =>
      py_in crb_type crb_type_options = false
      \/ (str_eq crb_type "number_of_months" = true
          /\ positive_int (con !! "month_period") = false)
      \/ (py_in crb_type ["FYTD"; "FQTD"] = true
          /\ int_1_to_12 (con !! "fy_start_month") = false)
  | None => True
  end.

(** A number within (0, 12]. *)
Definition in_month_range (v : pyval) : bool :=
  match v with
  | PyInt z => (0 <? z) && (z <=? 12)
  | PyFloat q => negb (Qle_bool q 0) && Qle_bool q 12
  | PyBool b => b
  | _ => false
  end.

(** "The configuration is invalid", as the code tests it. *)
Definition invalid_as_checked (strftime_month : pyval -> option string)
    (con : gmap string pyval) : Prop :=
  match con !! "crb_type" with
  | Some crb_type =>
      py_in crb_type crb_type_options = false
      \/ (str_eq crb_type "number_of_months" = true
          /\ match con !! "month_period" with
             | Some v => is_number v = false
             | None => True
             end)
      \/ (py_in crb_type ["FYTD"; "FQTD"] = true
          /\ match con !! "fy_start_month" with
             | Some v => in_month_range v = false \/ strftime_month v = None
             | None => True
             end)
  | None => True
  end.

(** A month-name formatter that accepts the integers 1 to 12 only. *)
Definition month_names : list string :=
  ["January"; "February"; "March"; "April"; "May"; "June"; "July";
   "August"; "September"; "October"; "November"; "December"].

Definition strftime_int_month (v : pyval) : option string :=
  match v with
  | PyInt z => if (1 <=? z) && (z <=? 12) then month_names !! Z.to_nat (z - 1)
               else None
  | _ => None
  end.

End ConfigCheck.
Export ConfigCheck.

(** ** Waterfall reconciliation check ([crb_checks.py]) *)

Module WaterfallCheck.

(** A row of [df_initial], the data as loaded. [is_recurring] is read only
    when the frame has that column. *)
Record input_row := mkInput {
  i_customer_id : Z;
  i_month : date;
  i_arr : Q;
  is_recurring : Z
}.

Record input_frame := mkFrame {
  has_is_recurring : bool;
  input_rows : list input_row
}.

(** A row of the melted waterfall table. *)
Record waterfall_row := mkWaterfall {
  w_primary_key : Z;
  Customer_ID : Z;
  Month : date;
  Value_type : string;
  Value_yearly : Q
}.

(** [n / d] rounded to the nearest integer, ties to the even one
    ([d] positive), as [numpy.rint] does. *)
Definition round_half_even (n d : Z) : Z :=
  let f := n / d in
  let r := n mod d in
  if 2 * r <? d then f
  else if d <? 2 * r then f + 1
  else if Z.even f then f else f + 1.

(** [series.round(2)], in hundredths. *)
Definition round2 (q : Q) : Z :=
  round_half_even (Qnum q * 100) (Zpos (Qden q)).

(** [df.groupby(key)[val].sum()] as a list of (key, sum) pairs. *)
Definition sum_by {A K : Type} `{EqDecision K}
    (key : A -> K) (val : A -> Q) (rows : list A) : list (K * Q) :=
  (fun k => (k, Qsum (val <$> List.filter (fun r => bool_decide (key r = k)) rows)))
    <$> remove_dups (key <$> rows).

(** [... .sum().round(2).to_dict()]. *)
Definition rounded_dict (sums : list (Z * Q)) : gmap Z Z :=
  list_to_map ((fun p => (p.1, round2 p.2)) <$> sums).

Definition is_eop (w : waterfall_row) : bool :=
  bool_decide (Value_type w = "EoP ARR").

(** [arr] after "all non-recurring revenue is set to zero". *)
Definition recurring_arr (df_initial : input_frame) (v : input_row) : Q :=
  if has_is_recurring df_initial && negb (is_recurring v =? 1) then 0%Q
  else i_arr v.

(** The per-entity check sums: every category but 'EoP ARR', by primary
    key. *)
Definition check_sums (df_waterfall : list waterfall_row) : list (Z * Q) :=
  sum_by w_primary_key Value_yearly
    (List.filter (fun w => negb (is_eop w)) df_waterfall).

Definition revenue_by_year (df_initial : input_frame) : gmap Z Z :=
  rounded_dict (sum_by (fun v => year (i_month v)) (recurring_arr df_initial)
                  (input_rows df_initial)).

Definition revenue_by_year_waterfall (df_waterfall : list waterfall_row)
    : gmap Z Z :=
  rounded_dict (sum_by (fun w => year (Month w)) Value_yearly
                  (List.filter is_eop df_waterfall)).

(** A line of the printed per-customer comparison: year, customer, input
    total and waterfall total in hundredths. *)
Record mismatch := mkMismatch {
  mm_year : Z;
  mm_customer : Z;
  mm_arr : Z;
  mm_value : Z
}.

(** [df_merge_no_match]: the left merge of the per-customer annual totals,
    kept where the two sides are more than 0.1 apart (a customer-year the
    waterfall lacks compares as NaN and is not kept). *)
Definition incorrect_customers (df_initial : input_frame)
    (df_waterfall : list waterfall_row) : list mismatch :=
  let by_customer :=
    sum_by (fun v => (year (i_month v), i_customer_id v))
      (recurring_arr df_initial) (input_rows df_initial) in
  let by_customer_waterfall :=
    sum_by (fun w => (year (Month w), Customer_ID w)) Value_yearly
      (List.filter is_eop df_waterfall) in
  p ← by_customer;
  q ← List.filter (fun q => bool_decide (q.1 = p.1)) by_customer_waterfall;
  if 10 <? Z.abs (round2 p.2 - round2 q.2)
  then [mkMismatch p.1.1 p.1.2 (round2 p.2) (round2 q.2)]
  else [].

(** How [check_waterfall_sums] ends: it returns, or prints the offending
    check sums and raises "Waterfall does not sum to zero", or prints the
    per-customer comparison and raises "Waterfall sums are not equal.". *)
Inductive waterfall_outcome :=
  | SumsEqual
  | DoesNotSumToZero (offenders : list (Z * Q))
  | SumsNotEqual (printed : list mismatch).

Definition check_waterfall_sums (df_initial : input_frame)
    (df_waterfall : list waterfall_row) : waterfall_outcome :=
  let df_waterfall_grouped :=
    List.filter (fun p => negb (round2 p.2 =? 0)) (check_sums df_waterfall) in
  match df_waterfall_grouped with
  | _ :: _ => DoesNotSumToZero df_waterfall_grouped
  | [] =>
      if decide (revenue_by_year df_initial
                 = revenue_by_year_waterfall df_waterfall)
      then SumsEqual
      else SumsNotEqual (incorrect_customers df_initial df_waterfall)
  end.

Definition raises_error (o : waterfall_outcome) : Prop := o <> SumsEqual.

(** Condition (a) in the specification's words: some entity's check sum is
    more than 0.01 away from zero. *)
Definition entity_off_by_more_than_cent (df_waterfall : list waterfall_row)
    : Prop :=
  exists k total, (k, total) ∈ check_sums df_waterfall
                  /\ (1 # 100 < Qabs total)%Q.

(** Condition (a) as the code tests it: the check sum does not round to
    0.00, that is, it is more than 0.005 away from zero. *)
Definition entity_off_by_more_than_half_cent (df_waterfall : list waterfall_row)
    : Prop :=
  exists k total, (k, total) ∈ check_sums df_waterfall
                  /\ (1 # 200 < Qabs total)%Q.

(** Condition (b): the annual totals, rounded to two decimals, differ. *)
Definition annual_totals_differ (df_initial : input_frame)
    (df_waterfall : list waterfall_row) : Prop :=
  revenue_by_year df_initial <> revenue_by_year_waterfall df_waterfall.

End WaterfallCheck.
Export WaterfallCheck.

(** ** Primary-key check ([crb_checks.py]) *)

Module KeyCheck.

(** The key of a row within the table: segment and month. *)
Definition key_month (v : revenue_row) : Z * Z * Z * date :=
  (segment_key v, month v).

(** The key the ARR-change step joins on. *)
Definition row_key (r : row) : Z * date :=
  (primary_key (revenue r), month (revenue r)).

(** The primary key encodes the customer and the product: rows with the
    same primary key belong to the same segment. *)
Definition key_determines_segment (df : list revenue_row) : Prop :=
  forall v w, v ∈ df -> w ∈ df ->
    primary_key v = primary_key w -> segment_key v = segment_key w.

(** [astype(str)] on an integer column and on a column of midnight
    timestamps (years of four digits). *)
Definition str_int (z : Z) : string := NilZero.string_of_int (Z.to_int z).
Definition two_digits (z : Z) : string :=
  if z <? 10 then "0" +:+ str_int z else str_int z.
Definition str_timestamp (d : date) : string :=
  str_int (year d) +:+ "-" +:+ two_digits (month_of d)
  +:+ "-" +:+ two_digits (day d).

Section CombinedKey.

(** [astype(str)] on the primary-key column and on the month column. *)
Variable str_key : Z -> string.
Variable str_month : date -> string.

(** [df_copy['combined_key']]. *)
Definition combined_key (v : revenue_row) : string :=
  str_key (primary_key v) +:+ "_" +:+ str_month (month v).

(** [series[series.duplicated(keep=False)]]: every occurrence of a value
    that occurs more than once. *)
Definition duplicated_keep_false (keys : list string) : list string :=
  List.filter (fun k => (1 <? count_occ String.string_dec keys k)%nat) keys.

(** [check_primary_key_uniqueness]: returns the (empty) series of duplicate
    keys or raises. *)
Definition check_primary_key_uniqueness (df : list revenue_row)
    : result (list string) :=
  let duplicate_keys := duplicated_keep_false (combined_key <$> df) in
  match duplicate_keys with
  | [] => Ok duplicate_keys
  | _ :: _ => Raise (ValueError "primary keys not unique")
  end.

(** The rendering tells the table's keys apart. *)
Definition rendering_separates (df : list revenue_row) : Prop :=
  forall v w, v ∈ df -> w ∈ df -> combined_key v = combined_key w ->
    primary_key v = primary_key w /\ month v = month w.

End CombinedKey.

End KeyCheck.
Export KeyCheck.

(** ** The primary-key encoder ([generic_tools.py]) *)

Module Encoder.

(** [np.unique]: the distinct values, sorted. *)
Definition np_unique (values : list string) : list string :=
  merge_sort String.le (remove_dups values).

(** The position of the first occurrence of a value. *)
Fixpoint position (v : string) (l : list string) : option nat :=
  match l with
  | [] => None
  | x :: l' => if bool_decide (x = v) then Some 0%nat else S <$> position v l'
  end.

(** [pd.factorize(values)[0]]: each value's rank among the distinct
    values in order of first appearance. *)
Definition factorize (values : list string) : list Z :=
  (fun v => match position v (remove_dups values) with
            | Some i => Z.of_nat i
            | None => -1
            end) <$> values.

(** [dict(zip(keys, values))]: a later pair overrides an earlier one. *)
Definition dict_zip (keys : list string) (values : list Z) : gmap string Z :=
  list_to_map (reverse (zip keys values)).

(** [encoder] on the column to encode: a value the dictionary lacks maps
    to NaN. *)
Definition encoder (column : list string) : list (option Z) :=
  let unique_values := np_unique column in
  let encoded_values := factorize unique_values in
  let val_map := dict_zip unique_values encoded_values in
  (fun v => val_map !! v) <$> column.

End Encoder.
Export Encoder.

(** ** Input checks ([data_pre_checks.py]) *)

Module PreChecks.

(** [df.loc[df['arr'] < 0, 'arr'] = 0] on one row. *)
Definition clamp_negative (v : revenue_row) : revenue_row :=
  if Qlt_bool (arr v) 0
  then mkRevenue (customer_id v) (product_id v) (primary_key v) (month v) 0
  else v.

(** [check_arr_column] on a frame whose [arr] column has a numeric dtype
    (on any other the message of the [TypeError] is built from the
    undefined name [arr]): the frame after the call, and whether the
    warning was issued. *)
Definition check_arr_column (df : list revenue_row) : list revenue_row * bool :=
  if existsb (fun v => Qlt_bool (arr v) 0) df
  then (clamp_negative <$> df, true)
  else (df, false).

End PreChecks.
Export PreChecks.

(** ** The waterfall table ([crb_functions.py]) *)

Module Waterfall.

(** Addition and negation of two amount cells: NaN propagates. *)
Definition nan_add (a b : option Q) : option Q :=
  match a, b with Some x, Some y => Some (x + y)%Q | _, _ => None end.
Definition nan_neg (a : option Q) : option Q := Qopp <$> a.

(** Modelled from the spec: the renaming table [tableau_col_mapping] of
    the configuration file is not part of the sources; [ARR_BOP] and [ARR]
    are the names it gives the columns [arr_bop] and [arr], the period's
    opening and closing amount. *)
Definition ARR_BOP (r : row) : option Q := Some (arr_bop r).
Definition ARR (r : row) : option Q := Some (arr (revenue r)).

Definition NRR (r : row) : option Q :=
  nan_add (nan_add (nan_add (nan_add (nan_add (ARR_BOP r) (Delta_Churn r))
    (Delta_Downsell r)) (Delta_Downgrade r)) (Delta_Upsell r))
    (Delta_Cross_Sell r).

Definition GRR (r : row) : option Q :=
  nan_add (nan_add (nan_add (ARR_BOP r) (Delta_Churn r)) (Delta_Downsell r))
    (Delta_Downgrade r).

(** [cols_to_melt], each with the column it names after the renaming. *)
Definition cols_to_melt : list (string * (row -> option Q)) :=
  [("BoP ARR", ARR_BOP); ("Churn", Delta_Churn); ("Downsell", Delta_Downsell);
   ("Downgrade", Delta_Downgrade); ("Upsell", Delta_Upsell);
   ("New Customers", Delta_New_Customer); ("Cross-sell", Delta_Cross_Sell);
   ("EoP ARR", ARR); ("GRR", GRR); ("NRR", NRR);
   ("NRR_reversed", fun r => nan_neg (NRR r));
   ("GRR_reversed", fun r => nan_neg (GRR r));
   ("EoP_reversed", fun r => nan_neg (ARR r))].

(** A row of the melted table; the value is NaN where the column was. *)
Record melted_row := mkMelted {
  melted_primary_key : Z;
  melted_Customer_ID : Z;
  melted_Month : date;
  melted_Value_type : string;
  melted_Value_yearly : option Q
}.

(** Modelled from the spec: the identifier columns [tableau_id_columns] of
    the configuration file are not part of the sources; they hold the
    primary key, the customer and the month, the three columns
    [check_waterfall_sums] reads beside the melted pair. *)
Definition melted_cell (c : string * (row -> option Q)) (r : row) : melted_row :=
  mkMelted (primary_key (revenue r)) (customer_id (revenue r))
    (month (revenue r)) c.1 (c.2 r).

(** [df.melt]: one block of rows per melted column, in column order. *)
Definition melt (df : list row) : list melted_row :=
  c ← cols_to_melt; melted_cell c <$> df.

(** [series != 0]: true on NaN. *)
Definition ne_zero (c : option Q) : bool :=
  match c with Some q => Qnonzero q | None => true end.

(** [create_waterfall_output]. *)
Definition create_waterfall_output (df : list row) : list melted_row :=
  List.filter (fun m => ne_zero (melted_Value_yearly m)) (melt df).

(** The cells the sums of [check_waterfall_sums] read: a group sum skips
    NaN. *)
Definition numeric_cells (df_waterfall : list melted_row) : list waterfall_row :=
  omap (fun m => (fun q => mkWaterfall (melted_primary_key m)
                              (melted_Customer_ID m) (melted_Month m)
                              (melted_Value_type m) q)
                 <$> melted_Value_yearly m) df_waterfall.

(** What one entity's check sum takes from a list of melted rows, before
    the zero rows are dropped. *)
Definition entity_total (k : Z) (cells : list melted_row) : Q :=
  Qsum (Value_yearly <$>
    List.filter (fun w => bool_decide (w_primary_key w = k))
      (List.filter (fun w => negb (is_eop w))
         (numeric_cells
            (List.filter (fun m => ne_zero (melted_Value_yearly m)) cells)))).


(** An amount cell as a sum sees it. *)
Definition cell_amount (c : option Q) : Q :=
  match c with Some q => q | None => 0%Q end.

(** What a flat row adds to the check sum of its entity: every melted
    column but 'EoP ARR'. *)
Definition row_total (r : row) : Q :=
  Qsum ((fun c : string * (row -> option Q) => cell_amount (c.2 r))
        <$> List.filter (fun c => negb (bool_decide (c.1 = "EoP ARR")))
              cols_to_melt).





(** The number of buckets a row's ARR change is booked to, less one. *)
Definition surplus_buckets (r : row) : Q :=
  (inject_Z (Z.of_nat (buckets_set (flag r))) - 1)%Q.

(** The frame [main.py] hands to [check_waterfall_sums] as [df_initial]:
    [df_primary], the input rows themselves, without an [is_recurring]
    column. *)
Definition df_primary_frame (data : list revenue_row) : input_frame :=
  mkFrame false
    ((fun v => mkInput (customer_id v) (month v) (arr v) 1) <$> data).

(** The table [main.py] hands to it as [df_waterfall]. *)
Definition df_waterfall_file (df_flat_file : list row) : list waterfall_row :=
  numeric_cells (create_waterfall_output df_flat_file).

End Waterfall.
Export Waterfall.

(** ** Properties of the month difference *)

Section MonthDifference.

Lemma month_difference_days_irrelevant y1 m1 d1 d1' y2 m2 d2 d2' :
  calculate_month_difference (mkDate y1 m1 d1) (mkDate y2 m2 d2)
  = calculate_month_difference (mkDate y1 m1 d1') (mkDate y2 m2 d2').
Proof. reflexivity. Qed.

Lemma month_difference_add_months (d : date) (n : Z) :
  valid_month d -> calculate_month_difference d (add_months d n) = n.
Proof.
  unfold valid_month, calculate_month_difference, add_months; simpl.
  intros Hm.
  pose proof (Z.div_mod (year d * 12 + (month_of d - 1) + n) 12 ltac:(lia)).
  lia.
Qed.

(** C10: the month difference is exactly
    [(end.year - start.year) * 12 + (end.month - start.month)]; it never
    reads the day, so two dates of one calendar month are 0 months apart,
    and for calendar dates it is negative exactly when the end month
    precedes the start month. *)
Theorem month_difference_signed_day_insensitive (s e : date) :
  valid_month s -> valid_month e ->
  calculate_month_difference s e
    = (year e - year s) * 12 + (month_of e - month_of s)
  /\ (forall ds de,
        calculate_month_difference (mkDate (year s) (month_of s) ds)
                                   (mkDate (year e) (month_of e) de)
        = calculate_month_difference s e)
  /\ (year s = year e -> month_of s = month_of e ->
        calculate_month_difference s e = 0)
  /\ (month_precedes e s <-> calculate_month_difference s e < 0).
Proof.
  unfold valid_month, calculate_month_difference, month_precedes.
  intros Hs He. repeat split; simpl; try lia.
Qed.

Lemma month_difference_signed_day_insensitive_witness :
  let s := mkDate 2020 11 30 in
  let e := mkDate 2020 3 1 in
  calculate_month_difference s e = -8
  /\ (month_precedes e s <-> calculate_month_difference s e < 0).
Proof.
  intros s e.
  pose proof (month_difference_signed_day_insensitive s e
                ltac:(unfold valid_month; simpl; lia)
                ltac:(unfold valid_month; simpl; lia)) as (Hf & _ & _ & Hneg).
  split; [rewrite Hf; reflexivity | exact Hneg].
Defined.

End MonthDifference.


(** ** Properties of the row-level classifier *)

Section ClassifierFacts.

Lemma fold_insert_lookup (l : list Z) (d : gmap Z Z) (k : Z) :
  fold_left (fun d x => <[x := 1]> d) l d !! k
  = if bool_decide (k ∈ l) then Some 1 else d !! k.
Proof.
  revert d. induction l as [|x l IH]; intros d; cbn [fold_left].
  - rewrite bool_decide_eq_false_2; [done | by apply not_elem_of_nil].
  - rewrite IH. destruct (decide (k ∈ l)) as [Hin | Hnin].
    + rewrite !bool_decide_eq_true_2; [done | by right | done].
    + rewrite (bool_decide_eq_false_2 (k ∈ l)) by done.
      destruct (decide (k = x)) as [-> | Hne].
      * rewrite lookup_insert_eq, bool_decide_eq_true_2; [done | by left].
      * rewrite lookup_insert_ne by done.
        rewrite bool_decide_eq_false_2; [done |].
        intros [?|?]%elem_of_cons; done.
Qed.

Lemma flag_dict_lookup (lo hi k : Z) :
  flag_dict lo hi !! k = if bool_decide (lo <= k < hi) then Some 1 else None.
Proof.
  unfold flag_dict. rewrite fold_insert_lookup, lookup_empty.
  destruct (decide (lo <= k < hi)) as [H | H].
  - rewrite !bool_decide_eq_true_2; [done | done | apply elem_of_seqZ; lia].
  - rewrite !bool_decide_eq_false_2; [done | done | rewrite elem_of_seqZ; lia].
Qed.

Lemma mapped_flag_one (lo hi : Z) (td : option Z) :
  fillna0 (map_dict (flag_dict lo hi) td) = Some 1
  <-> exists k, td = Some k /\ lo <= k < hi.
Proof.
  unfold map_dict. destruct td as [k|]; simpl.
  - rewrite flag_dict_lookup. case_bool_decide; simpl.
    + split; [eauto | done].
    + split; [done | intros (k' & [= <-] & ?); lia].
  - split; [done | intros (k' & ? & ?); done].
Qed.

Lemma mapped_flag_cases (lo hi : Z) (td : option Z) :
  fillna0 (map_dict (flag_dict lo hi) td) = Some 0
  \/ fillna0 (map_dict (flag_dict lo hi) td) = Some 1.
Proof.
  unfold map_dict. destruct td as [k|]; simpl; [|by left].
  rewrite flag_dict_lookup. case_bool_decide; simpl; auto.
Qed.

Lemma Qlt_bool_iff (x y : Q) : Qlt_bool x y = true <-> (x < y)%Q.
Proof.
  unfold Qlt_bool. rewrite negb_true_iff, <- not_true_iff_false, Qle_bool_iff.
  split; [apply Qnot_le_lt | apply Qlt_not_le].
Qed.

Lemma Qlt_bool_asym (x y : Q) : Qlt_bool x y = true -> Qlt_bool y x = false.
Proof.
  rewrite Qlt_bool_iff. intros H. apply not_true_iff_false.
  rewrite Qlt_bool_iff. intros H'. exact (Qlt_irrefl _ (Qlt_trans _ _ _ H H')).
Qed.

Lemma flag_is_iff (c : option Z) (v : Z) : flag_is c v = true <-> c = Some v.
Proof.
  destruct c as [x|]; simpl; [|split; done].
  rewrite Z.eqb_eq. split; [by intros -> | by intros [= ->]].
Qed.

Lemma upsell_mask_iff (f : flags) :
  upsell_mask f = true <-> other_buckets_clear_and_existing f.
Proof.
  unfold upsell_mask, other_buckets_clear_and_existing.
  rewrite !andb_true_iff, !flag_is_iff. tauto.
Qed.

Lemma crb_number_months_iff (con : constants) :
  crb_number_months con = true <-> crb con = number_of_months.
Proof. unfold crb_number_months. destruct (crb con); split; done. Qed.

(** The fixed-window lookup of [crb_add_churn_flags]. *)
Lemma churn_flags_fixed_window (con : constants) (r : row) :
  crb con = number_of_months ->
  let f := flag (crb_add_churn_flags con r) in
  flagged_within 0 (month_period con) (customer_age r) (new_customer_flag f)
  /\ flagged_within 0 (month_period con) (months_since_customer_churn r)
       (customer_churn_flag f)
  /\ zero_or_one (new_customer_flag f) /\ zero_or_one (customer_churn_flag f).
Proof.
  intros Hc%crb_number_months_iff.
  unfold crb_add_churn_flags, flagged_within, zero_or_one. rewrite Hc. simpl.
  repeat split; try apply mapped_flag_one; apply mapped_flag_cases.
Qed.

(** C3 (amended): under the fixed-N policy [new_customer_flag] is 1 exactly
    when [0 <= months_since(customer_start_date) < N], and
    [customer_churn_flag] exactly when
    [0 <= months_since(customer_churn_date) < N]; otherwise they are 0. The
    row dated at [customer_start_date] itself has [new_customer_flag = 1]
    (for positive N); with a start at 2020-01-01 and N = 3 the rows of
    2020-01, 2020-02 and 2020-03 are flagged and the row of 2020-04 is not. *)
Theorem fixed_window_flags_include_start_month (con : constants) (r : row) :
  crb con = number_of_months ->
  let f := flag (crb_add_churn_flags con r) in
  flagged_within 0 (month_period con) (customer_age r) (new_customer_flag f)
  /\ flagged_within 0 (month_period con) (months_since_customer_churn r)
       (customer_churn_flag f)
  /\ zero_or_one (new_customer_flag f) /\ zero_or_one (customer_churn_flag f)
  /\ (0 < month_period con -> customer_age r = Some 0 ->
      new_customer_flag f = Some 1)
  /\ (month_period con = 3 ->
      customer_start_date (life r) = Some (mkDate 2020 1 1) ->
      year (month (revenue r)) = 2020 ->
      (1 <= month_of (month (revenue r)) <= 3 -> new_customer_flag f = Some 1)
      /\ (month_of (month (revenue r)) = 4 -> new_customer_flag f = Some 0)).
Proof.
  intros Hc f.
  destruct (churn_flags_fixed_window con r Hc) as (Hn & Hch & Zn & Zc).
  fold f in Hn, Hch, Zn, Zc.
  split; [exact Hn | split; [exact Hch | split; [exact Zn | split; [exact Zc |]]]].
  split.
  - intros HN Hage. apply Hn. exists 0. split; [done | lia].
  - intros HN Hstart Hyear. split; intros Hm.
    + apply Hn. unfold customer_age. rewrite Hstart. simpl.
      eexists; split; [reflexivity |].
      unfold calculate_month_difference; simpl. lia.
    + destruct Zn as [Z0 | Z1]; [done |].
      apply Hn in Z1 as (k & Hk & Hr). unfold customer_age in Hk.
      rewrite Hstart in Hk. simpl in Hk. injection Hk as <-.
      unfold calculate_month_difference in Hr; simpl in Hr. lia.
Qed.

Lemma fixed_window_flags_include_start_month_witness :
  let con := mkConstants number_of_months 3 1 in
  let r := initial_row (mkRevenue 7 1 1 (mkDate 2020 1 1) 100)
             (mkLifespan (Some (mkDate 2020 1 1)) (Some (mkDate 2020 6 1))
                (Some (mkDate 2020 1 1)) (Some (mkDate 2020 6 1))
                (Some (mkDate 2020 7 1))
                (Some (mkDate 2020 1 1)) (Some (mkDate 2020 6 1))
                (Some (mkDate 2020 7 1))) in
  new_customer_flag (flag (crb_add_churn_flags con r)) = Some 1.
Proof.
  intros con r.
  destruct (fixed_window_flags_include_start_month con r eq_refl)
    as (_ & _ & _ & _ & Hstart & _).
  apply Hstart; [simpl; lia | reflexivity].
Defined.

Lemma existing_flags_keeps (con : constants) (r : row) :
  let r1 := existing_flags con r in
  arr_delta r1 = arr_delta r
  /\ new_customer_flag (flag r1) = new_customer_flag (flag r)
  /\ customer_churn_flag (flag r1) = customer_churn_flag (flag r)
  /\ cross_sell_flag (flag r1) = cross_sell_flag (flag r)
  /\ product_churn_flag (flag r1) = product_churn_flag (flag r)
  /\ upsell_flag (flag r1) = upsell_flag (flag r)
  /\ downsell_flag (flag r1) = downsell_flag (flag r).
Proof.
  unfold existing_flags. destruct (crb_number_months con); simpl.
  - repeat split.
  - destruct (calculate_start_of_next_period con (work r) _) as [s1 d1].
    destruct (calculate_start_of_next_period con s1 _) as [s2 d2].
    repeat split.
Qed.

(** The fixed-window lookup of the [existing_*] flags stops at 100 months. *)
Lemma existing_flags_fixed_window (con : constants) (r : row) :
  crb con = number_of_months ->
  let f := flag (crb_upsell_flags con r) in
  flagged_within (month_period con) 100 (customer_age r) (existing_customer_flag f)
  /\ flagged_within (month_period con) 100 (product_age r) (existing_product_flag f)
  /\ zero_or_one (existing_customer_flag f)
  /\ zero_or_one (existing_product_flag f).
Proof.
  intros Hc%crb_number_months_iff.
  unfold crb_upsell_flags, existing_flags, flagged_within, zero_or_one.
  rewrite Hc. simpl.
  repeat split; try apply mapped_flag_one; apply mapped_flag_cases.
Qed.

(** Under a calendar policy the [existing_customer] flag compares the age
    with the distance to the start of the period after the start date. *)
Lemma existing_customer_flag_calendar (con : constants) (r : row) :
  crb con <> number_of_months ->
  existing_customer_flag (flag (crb_upsell_flags con r))
  = where_1_0
      (nan_ge (customer_age r)
         (month_difference (customer_start_date (life r))
            (snd (calculate_start_of_next_period con (work r)
                    (customer_start_date (life r)))))).
Proof.
  intros Hc. unfold crb_upsell_flags, existing_flags.
  destruct (crb_number_months con) eqn:E;
    [apply crb_number_months_iff in E; done |].
  destruct (calculate_start_of_next_period con (work r) _) as [s1 d1].
  destruct (calculate_start_of_next_period con s1 _) as [s2 d2].
  reflexivity.
Qed.

(** C5 (failing input): fixed 12-month policy, customer and product started
    2012-01-01, row of 2020-05-01. The customer is 100 months old, more than
    one full period, yet both [existing_*] flags are 0: the lookup table
    only has the keys 12..99. *)
Theorem existing_flag_dropped_at_100_months :
  let con := mkConstants number_of_months 12 1 in
  let r := initial_row (mkRevenue 7 1 1 (mkDate 2020 5 1) 100)
             (mkLifespan (Some (mkDate 2012 1 1)) (Some (mkDate 2020 12 1))
                (Some (mkDate 2012 1 1)) (Some (mkDate 2020 12 1))
                (Some (mkDate 2021 1 1))
                (Some (mkDate 2012 1 1)) (Some (mkDate 2020 12 1))
                (Some (mkDate 2021 1 1))) in
  customer_age r = Some 100
  /\ month_period con <= 100
  /\ existing_customer_flag (flag (crb_upsell_flags con r)) = Some 0
  /\ existing_product_flag (flag (crb_upsell_flags con r)) = Some 0.
Proof.
  intros con r.
  destruct (existing_flags_fixed_window con r eq_refl) as (Hc & Hp & Zc & Zp).
  split; [reflexivity | split; [simpl; lia |]].
  split.
  - destruct Zc as [-> | Z1]; [done |].
    apply Hc in Z1 as (k & Hage & Hk). vm_compute in Hage.
    injection Hage as <-. simpl in Hk. lia.
  - destruct Zp as [-> | Z1]; [done |].
    apply Hp in Z1 as (k & Hage & Hk). vm_compute in Hage.
    injection Hage as <-. simpl in Hk. lia.
Qed.

Lemma where_1_0_cases (b : bool) : zero_or_one (where_1_0 b).
Proof. destruct b; [by right | by left]. Qed.

Lemma where_1_0_one (b : bool) : where_1_0 b = Some 1 <-> b = true.
Proof. destruct b; simpl; split; done. Qed.

(** What the second half of [crb_upsell_flags] writes on a row whose
    upsell columns did not exist before. *)
Lemma upsell_step_values (con : constants) (r : row) :
  upsell_flag (flag r) = None -> downsell_flag (flag r) = None ->
  let f := flag (crb_upsell_flags con r) in
  upsell_flag f = where_1_0 (Qlt_bool 0 (arr_delta r) && upsell_mask f)
  /\ downsell_flag f = where_1_0 (Qlt_bool (arr_delta r) 0 && upsell_mask f)
  /\ new_customer_flag f = new_customer_flag (flag r)
  /\ customer_churn_flag f = customer_churn_flag (flag r)
  /\ cross_sell_flag f = cross_sell_flag (flag r)
  /\ product_churn_flag f = product_churn_flag (flag r).
Proof.
  intros Hu Hd f.
  destruct (existing_flags_keeps con r) as (Ha & Hn & Hc & Hx & Hp & Hu' & Hd').
  assert (Hmask : upsell_mask f = upsell_mask (flag (existing_flags con r)))
    by reflexivity.
  rewrite Hmask. subst f. unfold crb_upsell_flags.
  cbn [flag with_flags upsell_flag downsell_flag new_customer_flag
       customer_churn_flag cross_sell_flag product_churn_flag].
  rewrite Ha, Hu', Hd', Hu, Hd.
  split_and!; try done.
  - destruct (Qlt_bool 0 (arr_delta r) && _); reflexivity.
  - destruct (Qlt_bool (arr_delta r) 0 && _); reflexivity.
Qed.

(** C6: [upsell_flag] is 1 exactly when [arr_delta > 0] and the mask holds
    (the four earlier buckets are 0 and both [existing_*] flags are 1),
    [downsell_flag] is 1 exactly when [arr_delta < 0] under the same mask,
    otherwise each is 0; the two are never both 1. *)
Theorem upsell_downsell_flags_follow_mask (con : constants) (r : row) :
  upsell_flag (flag r) = None -> downsell_flag (flag r) = None ->
  let f := flag (crb_upsell_flags con r) in
  (upsell_flag f = Some 1
     <-> (0 < arr_delta r)%Q /\ other_buckets_clear_and_existing f)
  /\ (downsell_flag f = Some 1
     <-> (arr_delta r < 0)%Q /\ other_buckets_clear_and_existing f)
  /\ zero_or_one (upsell_flag f) /\ zero_or_one (downsell_flag f)
  /\ ~ (upsell_flag f = Some 1 /\ downsell_flag f = Some 1)
  /\ new_customer_flag f = new_customer_flag (flag r)
  /\ customer_churn_flag f = customer_churn_flag (flag r)
  /\ cross_sell_flag f = cross_sell_flag (flag r)
  /\ product_churn_flag f = product_churn_flag (flag r).
Proof.
  intros Hu Hd f.
  destruct (upsell_step_values con r Hu Hd) as (Hup & Hdn & Hkeep).
  fold f in Hup, Hdn, Hkeep. rewrite Hup, Hdn.
  rewrite !where_1_0_one, !andb_true_iff, !Qlt_bool_iff, upsell_mask_iff.
  split; [reflexivity | split; [reflexivity |]].
  split; [apply where_1_0_cases | split; [apply where_1_0_cases |]].
  split; [| exact Hkeep].
  intros [[Hpos _] [Hneg _]].
  exact (Qlt_irrefl _ (Qlt_trans _ _ _ Hpos Hneg)).
Qed.

Lemma upsell_downsell_flags_follow_mask_witness :
  let con := mkConstants number_of_months 3 1 in
  let r := with_arr_change 60
             (with_flags (mkFlags (Some 0) (Some 0) (Some 0) (Some 0)
                            None None None None)
                (initial_row (mkRevenue 7 1 1 (mkDate 2020 9 1) 100)
                   (mkLifespan (Some (mkDate 2020 1 1)) (Some (mkDate 2020 12 1))
                      (Some (mkDate 2020 1 1)) (Some (mkDate 2020 12 1))
                      (Some (mkDate 2021 1 1))
                      (Some (mkDate 2020 1 1)) (Some (mkDate 2020 12 1))
                      (Some (mkDate 2021 1 1))))) in
  ~ (upsell_flag (flag (crb_upsell_flags con r)) = Some 1
     /\ downsell_flag (flag (crb_upsell_flags con r)) = Some 1).
Proof.
  intros con r.
  destruct (upsell_downsell_flags_follow_mask con r eq_refl eq_refl)
    as (_ & _ & _ & _ & Hboth & _).
  exact Hboth.
Defined.

Lemma churn_step_flags (con : constants) (r : row) :
  let f := flag (crb_add_churn_flags con r) in
  zero_or_one (new_customer_flag f) /\ zero_or_one (customer_churn_flag f)
  /\ cross_sell_flag f = cross_sell_flag (flag r)
  /\ product_churn_flag f = product_churn_flag (flag r)
  /\ upsell_flag f = upsell_flag (flag r)
  /\ downsell_flag f = downsell_flag (flag r).
Proof.
  unfold crb_add_churn_flags. destruct (crb_number_months con); simpl.
  - repeat split; apply mapped_flag_cases.
  - destruct (in_first_period con (work r) _ _) as [s1 b1].
    destruct (in_first_period con s1 _ _) as [s2 b2]. simpl.
    repeat split; apply where_1_0_cases.
Qed.

Lemma cross_sell_step_flags (con : constants) (r : row) :
  cross_sell_flag (flag r) = None -> product_churn_flag (flag r) = None ->
  let f := flag (crb_add_cross_sell_flags con r) in
  new_customer_flag f = new_customer_flag (flag r)
  /\ customer_churn_flag f = customer_churn_flag (flag r)
  /\ upsell_flag f = upsell_flag (flag r)
  /\ downsell_flag f = downsell_flag (flag r)
  /\ zero_or_one (cross_sell_flag f) /\ zero_or_one (product_churn_flag f)
  /\ (cross_sell_flag f = Some 1 \/ product_churn_flag f = Some 1 ->
      new_customer_flag f = Some 0 /\ customer_churn_flag f = Some 0).
Proof.
  intros Hx Hp. unfold crb_add_cross_sell_flags.
  assert (Hmask : not_new_or_churn (flag r) = true ->
                  new_customer_flag (flag r) = Some 0
                  /\ customer_churn_flag (flag r) = Some 0).
  { unfold not_new_or_churn. rewrite andb_true_iff, !flag_is_iff. done. }
  destruct (crb_number_months con); simpl.
  - rewrite Hx, Hp. destruct (not_new_or_churn (flag r)); simpl.
    + split_and!; try done; try apply mapped_flag_cases.
      intros _. by apply Hmask.
    + split_and!; try done; try (by left). intros [? | ?]; done.
  - destruct (in_first_period con (work r) _ _) as [s1 b1].
    destruct (in_first_period con s1 _ _) as [s2 b2]. simpl.
    destruct (not_new_or_churn (flag r)); simpl.
    + split_and!; try done; try apply where_1_0_cases.
      intros _. by apply Hmask.
    + split_and!; try done; try (by left). intros [? | ?]; done.
Qed.

(** The exclusivity the masks give, for any row that enters the classifier
    without flag columns. *)
Lemma classify_row_exclusive (con : constants) (r : row) :
  unclassified r ->
  let f := flag (classify_row con r) in
  Forall zero_or_one (bucket_flags f) /\ exclusive_across_steps f.
Proof.
  intros Hr f. unfold unclassified in Hr.
  destruct (churn_step_flags con r) as (Z1 & Z2 & K1 & K2 & K3 & K4).
  rewrite Hr in K1, K2, K3, K4. simpl in K1, K2, K3, K4.
  destruct (cross_sell_step_flags con (crb_add_churn_flags con r) K1 K2)
    as (C1 & C2 & C3 & C4 & Z3 & Z4 & Hcross).
  rewrite K3 in C3. rewrite K4 in C4.
  destruct (upsell_step_values con
              (crb_add_cross_sell_flags con (crb_add_churn_flags con r)) C3 C4)
    as (Hup & Hdn & U1 & U2 & U3 & U4).
  fold (classify_row con r) in Hup, Hdn, U1, U2, U3, U4.
  fold f in Hup, Hdn, U1, U2, U3, U4.
  split.
  - unfold bucket_flags. rewrite !Forall_cons, Forall_nil.
    split_and!; try done.
    + rewrite U1, C1. exact Z1.
    + rewrite U2, C2. exact Z2.
    + rewrite U3. exact Z3.
    + rewrite U4. exact Z4.
    + rewrite Hup. apply where_1_0_cases.
    + rewrite Hdn. apply where_1_0_cases.
  - unfold exclusive_across_steps. split_and!.
    + rewrite Hup, Hdn, !where_1_0_one, !andb_true_iff, upsell_mask_iff.
      unfold other_buckets_clear_and_existing. tauto.
    + rewrite Hup, Hdn, !where_1_0_one, !andb_true_iff.
      intros [[Hpos _] [Hneg _]]. apply Qlt_bool_asym in Hpos. congruence.
    + rewrite U1, U2, U3, U4. exact Hcross.
Qed.

End ClassifierFacts.

(** ** Properties of the pipeline *)

Section PipelineFacts.

Lemma negative_iff (c : option Q) :
  negative c = true <-> exists q, c = Some q /\ (q < 0)%Q.
Proof.
  destruct c as [q|]; simpl.
  - rewrite Qlt_bool_iff. split; [eauto | by intros (? & [= <-] & ?)].
  - split; [done | by intros (? & ? & ?)].
Qed.

Lemma positive_iff (c : option Q) :
  positive c = true <-> exists q, c = Some q /\ (0 < q)%Q.
Proof.
  destruct c as [q|]; simpl.
  - rewrite Qlt_bool_iff. split; [eauto | by intros (? & [= <-] & ?)].
  - split; [done | by intros (? & ? & ?)].
Qed.

Lemma create_arr_deltas_upsell (r : row) :
  Delta_Upsell (create_arr_deltas r) = flag_times (upsell_flag (flag r)) (arr_delta r)
  /\ Delta_Downsell (create_arr_deltas r)
     = flag_times (downsell_flag (flag r)) (arr_delta r).
Proof. split; reflexivity. Qed.

(** The two buckets of the upsell step have the right sign by construction,
    whatever the policy and the data. *)
Lemma upsell_downsell_signs (con : constants) (r : row) :
  upsell_flag (flag r) = None -> downsell_flag (flag r) = None ->
  let r' := create_arr_deltas (crb_upsell_flags con r) in
  negative (Delta_Upsell r') = false /\ positive (Delta_Downsell r') = false.
Proof.
  intros Hu Hd r'.
  destruct (upsell_step_values con r Hu Hd) as (Hup & Hdn & _).
  destruct (existing_flags_keeps con r) as (Ha & _).
  assert (Hdelta : arr_delta (crb_upsell_flags con r) = arr_delta r) by exact Ha.
  subst r'. destruct (create_arr_deltas_upsell (crb_upsell_flags con r)) as [-> ->].
  rewrite Hdelta, Hup, Hdn. split; apply not_true_iff_false.
  - rewrite negative_iff. intros (q & Hq & Hneg).
    destruct (Qlt_bool 0 (arr_delta r)) eqn:E; simpl in Hq.
    + destruct (upsell_mask _); simpl in Hq; injection Hq as <-.
      * apply Qlt_bool_iff in E. rewrite Qmult_1_l in Hneg.
        exact (Qlt_irrefl _ (Qlt_trans _ _ _ E Hneg)).
      * rewrite Qmult_0_l in Hneg. exact (Qlt_irrefl _ Hneg).
    + injection Hq as <-. rewrite Qmult_0_l in Hneg. exact (Qlt_irrefl _ Hneg).
  - rewrite positive_iff. intros (q & Hq & Hpos).
    destruct (Qlt_bool (arr_delta r) 0) eqn:E; simpl in Hq.
    + destruct (upsell_mask _); simpl in Hq; injection Hq as <-.
      * apply Qlt_bool_iff in E. rewrite Qmult_1_l in Hpos.
        exact (Qlt_irrefl _ (Qlt_trans _ _ _ Hpos E)).
      * rewrite Qmult_0_l in Hpos. exact (Qlt_irrefl _ Hpos).
    + injection Hq as <-. rewrite Qmult_0_l in Hpos. exact (Qlt_irrefl _ Hpos).
Qed.

Lemma insert_sorted_elem (x r : row) (l : list row) :
  x ∈ insert_sorted r l -> x = r \/ x ∈ l.
Proof.
  induction l as [|y l IH]; simpl.
  - intros ->%list_elem_of_singleton. by left.
  - destruct (row_leb r y).
    + intros [-> | H]%elem_of_cons; [by left | by right].
    + intros [-> | H]%elem_of_cons; [right; by left |].
      destruct (IH H) as [-> | H']; [by left | right; by right].
Qed.

Lemma sort_values_elem (x : row) (l : list row) : x ∈ sort_values l -> x ∈ l.
Proof.
  unfold sort_values. induction l as [|y l IH]; simpl; [done |].
  intros [-> | H]%insert_sorted_elem; [by left | right; auto].
Qed.

Lemma collect_elem {A : Type} (l : list (result A)) (t : list A) (a : A) :
  collect l = Ok t -> a ∈ t -> Ok a ∈ l.
Proof.
  revert t. induction l as [|x l IH]; simpl; intros t.
  - intros [= <-] H. by apply not_elem_of_nil in H.
  - destruct x as [b|e]; simpl; [|done].
    destruct (collect l) as [t'|e]; simpl; [|done].
    intros [= <-] [-> | H]%elem_of_cons; [by left | right; eauto].
Qed.

Lemma trim_dataset_unclassified (con : constants) (df : list row) :
  Forall unclassified df -> Forall unclassified (trim_dataset con df).
Proof.
  rewrite !Forall_forall. intros Hdf r. unfold trim_dataset.
  destruct (crb_number_months con).
  - intros [Hin _]%list_elem_of_In%filter_In. apply Hdf. by apply list_elem_of_In.
  - intros ([r' d] & -> & [Hin _]%list_elem_of_In%filter_In)%list_elem_of_fmap.
    apply list_elem_of_In, list_elem_of_fmap in Hin as (r0 & Heq & Hin).
    destruct (calculate_start_of_next_period con (work r0) _) as [s p].
    injection Heq as -> ->. simpl. exact (Hdf r0 Hin).
Qed.

Lemma arr_changes_unclassified (con : constants) (df df' : list row) :
  Forall unclassified df -> calculate_arr_changes con df = Ok df' ->
  Forall unclassified df'.
Proof.
  rewrite !Forall_forall. intros Hdf. unfold calculate_arr_changes.
  assert (Hsorted : forall r, r ∈ sort_values df -> unclassified r)
    by (intros r Hr; apply Hdf, sort_values_elem, Hr).
  destruct (crb_number_months con).
  - intros [= <-] r (i & r0 & -> & Hl)%elem_of_lookup_imap.
    change (unclassified r0). apply Hsorted, list_elem_of_lookup. eauto.
  - destruct (collect _) as [periods|e] eqn:E; simpl; [|done].
    assert (Hperiods : forall rp, rp ∈ periods -> unclassified rp.1).
    { intros [r d] Hin. apply (collect_elem _ _ _ E) in Hin.
      apply list_elem_of_fmap in Hin as (r0 & Heq & Hin).
      destruct (calculate_start_of_current_period con (work r0) _) as [s [d'|e']];
        simpl in Heq; [|done].
      injection Heq as -> ->. exact (Hsorted r0 Hin). }
    intros [= <-] r ([r0 d] & Hin & Hrp)%list_elem_of_bind.
    specialize (Hperiods _ Hrp). simpl in *. unfold merge_bop in Hin.
    destruct (List.filter _ _) as [|q l].
    + apply list_elem_of_singleton in Hin as ->. exact Hperiods.
    + apply list_elem_of_fmap in Hin as (r' & -> & _). exact Hperiods.
Qed.

(** A run that returns went through every step on a table with rows. *)
Lemma bridge_inv (con : constants) (data : list revenue_row) (rows : list row) :
  customer_revenue_bridge con data = Ok rows ->
  exists changes,
    calculate_arr_changes con
      (trim_dataset con
         (calculate_segment_start_end_dates (fill_month_completeness data)))
    = Ok changes
    /\ changes <> []
    /\ rows = create_flattened_output
                (create_arr_deltas <$>
                   (crb_upsell_flags con <$>
                      (crb_add_cross_sell_flags con <$>
                         (crb_add_churn_flags con <$> changes)))).
Proof.
  unfold customer_revenue_bridge.
  destruct (calculate_arr_changes con _) as [df|e]; simpl; [|done].
  destruct df as [|r df]; simpl; [done |].
  intros [= <-]. exists (r :: df). done.
Qed.

(** Every row of the flat table is a row without flag columns that went
    through the three classifier steps and [create_arr_deltas]. *)
Lemma bridge_rows_classified (con : constants) (data : list revenue_row)
    (rows : list row) (r : row) :
  customer_revenue_bridge con data = Ok rows -> r ∈ rows ->
  exists r0, unclassified r0 /\ r = create_arr_deltas (classify_row con r0).
Proof.
  intros (df & E & _ & ->)%bridge_inv [Hin _]%list_elem_of_In%filter_In.
  apply list_elem_of_In in Hin.
  apply list_elem_of_fmap in Hin as (r3 & -> & Hin).
  apply list_elem_of_fmap in Hin as (r2 & -> & Hin).
  apply list_elem_of_fmap in Hin as (r1 & -> & Hin).
  apply list_elem_of_fmap in Hin as (r0 & -> & Hin).
  exists r0. split; [|reflexivity].
  eapply Forall_forall; [|exact Hin].
  eapply arr_changes_unclassified; [|exact E].
  apply trim_dataset_unclassified, Forall_forall.
  intros x (v & -> & _)%list_elem_of_fmap. reflexivity.
Qed.

(** C1 (amended): on every row of the classified dataframe, after the
    three steps have run in order under either policy, every bucket flag is
    0 or 1 and exclusivity holds across the steps: a row with
    [upsell_flag = 1] or [downsell_flag = 1] has the four earlier bucket
    flags at 0 and never both of the two; a row with [cross_sell_flag = 1]
    or [product_churn_flag = 1] has [new_customer_flag = 0] and
    [customer_churn_flag = 0]. Nothing separates [new_customer] from
    [customer_churn], nor [cross_sell] from [product_churn]. *)
Theorem buckets_exclusive_across_steps (con : constants)
    (data : list revenue_row) (rows : list row) (r : row) :
  customer_revenue_bridge con data = Ok rows -> r ∈ rows ->
  Forall zero_or_one (bucket_flags (flag r))
  /\ exclusive_across_steps (flag r).
Proof.
  intros Hrun Hin.
  destruct (bridge_rows_classified con data rows r Hrun Hin) as (r0 & Hr0 & ->).
  change (flag (create_arr_deltas (classify_row con r0)))
    with (flag (classify_row con r0)).
  exact (classify_row_exclusive con r0 Hr0).
Qed.

Lemma buckets_exclusive_across_steps_witness :
  exists rows,
    customer_revenue_bridge (mkConstants YTD 0 1)
      (monthly 7 1 1 (mkDate 2020 1 1) [100%Q; 50%Q; 50%Q]) = Ok rows
    /\ Forall (fun r => exclusive_across_steps (flag r)) rows.
Proof.
  destruct (customer_revenue_bridge (mkConstants YTD 0 1)
              (monthly 7 1 1 (mkDate 2020 1 1) [100%Q; 50%Q; 50%Q]))
    as [rows | e] eqn:E.
  - exists rows. split; [reflexivity |].
    apply Forall_forall. intros r Hr.
    exact (proj2 (buckets_exclusive_across_steps _ _ rows r E Hr)).
  - vm_compute in E. discriminate E.
Defined.

(** C1 (counterexample): one customer with a single active month, 2020-01.
    Under the 3-month policy the row of 2020-02 carries both
    [new_customer_flag = 1] and [customer_churn_flag = 1]; under YTD a
    customer active 2020-01..2020-03 has both on the row of 2020-05. *)
Lemma new_customer_and_churn_on_one_row :
  (exists rows r,
      customer_revenue_bridge (mkConstants number_of_months 3 1)
        (monthly 7 1 1 (mkDate 2020 1 1) [100%Q]) = Ok rows
      /\ r ∈ rows
      /\ month (revenue r) = mkDate 2020 2 1
      /\ new_customer_flag (flag r) = Some 1
      /\ customer_churn_flag (flag r) = Some 1
      /\ ~ at_most_one_bucket (flag r))
  /\ (exists rows r,
      customer_revenue_bridge (mkConstants YTD 0 1)
        (monthly 7 1 1 (mkDate 2020 1 1) [100%Q; 50%Q; 50%Q]) = Ok rows
      /\ r ∈ rows
      /\ month (revenue r) = mkDate 2020 5 1
      /\ new_customer_flag (flag r) = Some 1
      /\ customer_churn_flag (flag r) = Some 1
      /\ ~ at_most_one_bucket (flag r)).
Proof.
  split.
  - eexists _, _. split; [vm_compute; reflexivity |].
    split; [apply list_elem_of_lookup; exists 1%nat; reflexivity |].
    split_and!; try reflexivity.
    unfold at_most_one_bucket. vm_compute. lia.
  - eexists _, _. split; [vm_compute; reflexivity |].
    split; [apply list_elem_of_lookup; exists 4%nat; reflexivity |].
    split_and!; try reflexivity.
    unfold at_most_one_bucket. vm_compute. lia.
Qed.

(** C3 (counterexample): customer started 2020-01-01, 3-month policy. The
    row dated at the start date itself has [new_customer_flag = 1], although
    its elapsed months are 0. *)
Lemma start_month_row_is_new_customer :
  let con := mkConstants number_of_months 3 1 in
  exists rows r,
    customer_revenue_bridge con
      (monthly 7 1 1 (mkDate 2020 1 1) [100%Q; 100%Q; 100%Q; 100%Q; 100%Q]) = Ok rows
    /\ r ∈ rows
    /\ customer_start_date (life r) = Some (mkDate 2020 1 1)
    /\ month (revenue r) = mkDate 2020 1 1
    /\ customer_age r = Some 0
    /\ new_customer_flag (flag r) = Some 1
    /\ ~ flagged_strictly_within (month_period con) (customer_age r)
           (new_customer_flag (flag r)).
Proof.
  eexists _, _. split; [vm_compute; reflexivity |].
  split; [apply list_elem_of_lookup; exists 0%nat; reflexivity |].
  split_and!; try reflexivity.
  unfold flagged_strictly_within. intros [H _].
  destruct (H eq_refl) as (k & Hk & Hr). vm_compute in Hk.
  injection Hk as <-. lia.
Qed.

(** C4 (failing input): YTD policy; one customer with ARR 100 in 2020-01
    and 50 in 2020-02 and 2020-03. The input is non-negative with unique
    keys, the pipeline fills the gaps itself. The row of 2020-02 is flagged
    new customer, its ARR at the start of the year is 100, so
    [Delta_New_Customer = -50 < 0] and [check_no_negative_new_logo] raises. *)
Theorem ytd_new_customer_delta_negative :
  let con := mkConstants YTD 0 1 in
  let data := monthly 7 1 1 (mkDate 2020 1 1) [100%Q; 50%Q; 50%Q] in
  non_negative_arr data /\ unique_keys data
  /\ exists rows r,
      customer_revenue_bridge con data = Ok rows
      /\ r ∈ rows
      /\ month (revenue r) = mkDate 2020 2 1
      /\ new_customer_flag (flag r) = Some 1
      /\ (arr_bop r == 100)%Q
      /\ (exists q, Delta_New_Customer r = Some q /\ (q == -50)%Q)
      /\ ~ signs_ok r
      /\ directionality_checks rows
         = Raise (ValueError "Customers in the dataset have negative new logo.").
Proof.
  intros con data. split_and!.
  - unfold non_negative_arr. repeat constructor; done.
  - unfold unique_keys. apply (@bool_decide_unpack _ (NoDup_dec _)).
    vm_compute. exact I.
  - eexists _, _. split; [vm_compute; reflexivity |].
    split; [apply list_elem_of_lookup; exists 1%nat; reflexivity |].
    split_and!; try reflexivity.
    + eexists; split; [reflexivity | reflexivity].
    + unfold signs_ok. intros (_ & _ & Hneg & _). vm_compute in Hneg. done.
Qed.

End PipelineFacts.

(** ** Properties of the period calculator *)

Section PeriodFacts.

Ltac enum_1_12 m Hm :=
  let H := fresh "Hcases" in
  assert (m = 1 \/ m = 2 \/ m = 3 \/ m = 4 \/ m = 5 \/ m = 6 \/ m = 7
          \/ m = 8 \/ m = 9 \/ m = 10 \/ m = 11 \/ m = 12) as H by lia;
  clear Hm;
  repeat (destruct H as [-> | H]); [..| subst m].

Lemma quarter_boundaries_in_range (fy : Z) :
  Forall (fun b => 1 <= b <= 12) (quarter_boundaries fy).
Proof.
  unfold quarter_boundaries, soq_of, zero_as_twelve. simpl.
  repeat constructor;
    match goal with
    | |- context [?a mod 12] =>
        pose proof (Z.mod_pos_bound a 12 ltac:(lia));
        destruct (Z.eqb_spec (a mod 12) 0); lia
    end.
Qed.

(** Under YTD/FYTD every row is assigned: the two masks are complementary. *)
Lemma next_year_start (con : constants) (s : scratch) (d : date) :
  crb con = YTD \/ crb con = FYTD ->
  snd (calculate_start_of_next_period con s (Some d))
  = Some (first_of_month
            (if month_of d <? effective_fy con then year d else year d + 1)
            (effective_fy con)).
Proof.
  intros Hc. unfold calculate_start_of_next_period.
  assert (E : forall c, nan_of
     (loc_set (nan_geb (Some (month_of d)) (effective_fy con)) (Some (Z.succ (year d)))
        (loc_set (nan_ltb (Some (month_of d)) (effective_fy con)) (Some (year d)) c))
     = Some (if month_of d <? effective_fy con then year d else year d + 1)).
  { intros c. simpl. rewrite Z.geb_leb.
    destruct (Z.ltb_spec (month_of d) (effective_fy con));
      destruct (Z.leb_spec (effective_fy con) (month_of d)); try lia; simpl.
    - destruct c; reflexivity.
    - f_equal; lia. }
  destruct Hc as [-> | ->]; simpl; simpl in E; rewrite E; reflexivity.
Qed.

(** What [calculate_start_of_next_period] leaves in [month_next_period]
    under YTD/FYTD: the fiscal start month, on every row. *)
Lemma next_year_leaves_start_month (con : constants) (s : scratch) (e : dt) :
  crb con = YTD \/ crb con = FYTD ->
  month_next_period (fst (calculate_start_of_next_period con s e))
  = Num (effective_fy con).
Proof.
  intros [Hc | Hc]; unfold calculate_start_of_next_period; rewrite Hc; reflexivity.
Qed.

Lemma current_year_start (con : constants) (s : scratch) (d : date) (m : Z) :
  crb con = YTD \/ crb con = FYTD ->
  month_next_period s = Num m ->
  snd (calculate_start_of_current_period con s (Some d))
  = Ok (Some (first_of_month
                (if month_of d <? effective_fy con then year d - 1 else year d)
                m)).
Proof.
  intros Hc Hs. unfold calculate_start_of_current_period.
  assert (E : forall c, nan_of
     (loc_set (nan_geb (Some (month_of d)) (effective_fy con)) (Some (year d))
        (loc_set (nan_ltb (Some (month_of d)) (effective_fy con))
           (Some (Z.pred (year d))) c))
     = Some (if month_of d <? effective_fy con then year d - 1 else year d)).
  { intros c. simpl. rewrite Z.geb_leb.
    destruct (Z.ltb_spec (month_of d) (effective_fy con));
      destruct (Z.leb_spec (effective_fy con) (month_of d)); try lia; simpl.
    - destruct c; f_equal; lia.
    - f_equal; lia. }
  destruct Hc as [-> | ->]; simpl; simpl in E; rewrite Hs; simpl; rewrite E;
    reflexivity.
Qed.

(** On a dataframe that never went through [calculate_start_of_next_period]
    the YTD/FYTD branch reads a column that does not exist. *)
Lemma current_year_start_fresh (con : constants) (d : dt) :
  crb con = YTD \/ crb con = FYTD ->
  snd (calculate_start_of_current_period con fresh d)
  = Raise (KeyError "month_next_period").
Proof.
  intros [Hc | Hc]; unfold calculate_start_of_current_period; rewrite Hc;
    reflexivity.
Qed.




(** The dataframe state of the pipeline: under YTD (the fiscal start month
    is then 1), for a row of any calendar month,
    [calculate_start_of_next_period] returns January 1 of the following
    year, and [calculate_start_of_current_period], run on a dataframe that
    has been through [calculate_start_of_next_period] before, returns
    January 1 of the row's year; for 2021-07-01 these are 2022-01-01 and
    2021-01-01. *)
Lemma ytd_period_bounds (con : constants) (s : scratch) (e : dt) (d : date) :
  crb con = YTD -> valid_month d ->
  let trimmed := fst (calculate_start_of_next_period con s e) in
  snd (calculate_start_of_next_period con s (Some d))
    = Some (mkDate (year d + 1) 1 1)
  /\ snd (calculate_start_of_current_period con trimmed (Some d))
    = Ok (Some (mkDate (year d) 1 1))
  /\ (d = mkDate 2021 7 1 ->
      snd (calculate_start_of_next_period con s (Some d))
        = Some (mkDate 2022 1 1)
      /\ snd (calculate_start_of_current_period con trimmed (Some d))
        = Ok (Some (mkDate 2021 1 1))).
Proof.
  intros Hc Hm trimmed.
  assert (Hfy : effective_fy con = 1) by (unfold effective_fy; rewrite Hc; done).
  assert (Hlt : (month_of d <? 1) = false)
    by (apply Z.ltb_ge; unfold valid_month in Hm; lia).
  assert (Hnext : snd (calculate_start_of_next_period con s (Some d))
                  = Some (mkDate (year d + 1) 1 1)).
  { rewrite next_year_start by auto. rewrite Hfy, Hlt. reflexivity. }
  assert (Hcur : snd (calculate_start_of_current_period con trimmed (Some d))
                 = Ok (Some (mkDate (year d) 1 1))).
  { rewrite (current_year_start con trimmed d 1); auto.
    - rewrite Hfy, Hlt. reflexivity.
    - subst trimmed. rewrite next_year_leaves_start_month by auto.
      rewrite Hfy. reflexivity. }
  split; [exact Hnext | split; [exact Hcur |]].
  intros ->. split; [exact Hnext | exact Hcur].
Qed.

Lemma ytd_period_bounds_witness :
  let con := mkConstants YTD 0 1 in
  let trimmed :=
    fst (calculate_start_of_next_period con fresh (Some (mkDate 2021 12 1))) in
  snd (calculate_start_of_next_period con fresh (Some (mkDate 2021 7 1)))
    = Some (mkDate 2022 1 1)
  /\ snd (calculate_start_of_current_period con trimmed (Some (mkDate 2021 7 1)))
    = Ok (Some (mkDate 2021 1 1)).
Proof.
  intros con trimmed.
  destruct (ytd_period_bounds con fresh (Some (mkDate 2021 12 1))
              (mkDate 2021 7 1) eq_refl
              ltac:(unfold valid_month; simpl; lia)) as (_ & _ & H).
  exact (H eq_refl).
Defined.

(** C8 (failing input): YTD with [fy_start_month = 1], a row dated
    2021-07-01. [calculate_start_of_next_period] returns 2022-01-01, but
    [calculate_start_of_current_period], called on a dataframe that has not
    been through [calculate_start_of_next_period], raises [KeyError]: its
    YTD/FYTD branch writes the column [month_current_period] and then
    assembles the date from [month_next_period], which it never writes. It
    returns 2021-01-01 only where an earlier call of the other calculator,
    on whatever date column, has left [month_next_period] behind, as
    [trim_dataset] does in the pipeline. *)
Theorem ytd_current_period_reads_unwritten_column :
  let con := mkConstants YTD 12 1 in
  let d := mkDate 2021 7 1 in
  snd (calculate_start_of_next_period con fresh (Some d))
  = Some (mkDate 2022 1 1)
  /\ snd (calculate_start_of_current_period con fresh (Some d))
     = Raise (KeyError "month_next_period")
  /\ (forall e,
        snd (calculate_start_of_current_period con
               (fst (calculate_start_of_next_period con fresh e)) (Some d))
        = Ok (Some (mkDate 2021 1 1))).
Proof.
  intros con d.
  split; [reflexivity |].
  split; [apply current_year_start_fresh; by left |].
  intros e.
  destruct (ytd_period_bounds con fresh e d eq_refl
              ltac:(unfold valid_month; simpl; lia)) as (_ & Hcur & _).
  exact Hcur.
Qed.

(** A row some quarter pass assigns gets the start of the following fiscal
    quarter, whatever earlier calls left in the working columns. *)
Lemma next_quarter_start_when_assigned (N fy : Z) (s : scratch) (d : date) :
  1 <= fy <= 12 -> valid_month d ->
  quarter_assigned fy (month_of d) = true ->
  snd (calculate_start_of_next_period (mkConstants FQTD N fy) s (Some d))
  = Some (following_quarter_start fy d).
Proof.
  destruct d as [y m dd]. unfold valid_month. simpl. intros Hfy Hm.
  enum_1_12 fy Hfy; enum_1_12 m Hm; intros Ha;
    try (vm_compute in Ha; discriminate Ha); clear Ha;
    destruct s as [[| |?] [| |?]]; reflexivity.
Qed.

(** A row no quarter pass assigns keeps whatever the working columns held:
    NaT on a fresh dataframe, the result of the previous call otherwise. *)
Lemma next_quarter_start_when_skipped (N fy : Z) (s : scratch) (d : date) :
  1 <= fy <= 12 -> valid_month d ->
  quarter_assigned fy (month_of d) = false ->
  snd (calculate_start_of_next_period (mkConstants FQTD N fy) s (Some d))
  = to_datetime (nan_of (year_next_period s)) (nan_of (month_next_period s)).
Proof.
  destruct d as [y m dd]. unfold valid_month. simpl. intros Hfy Hm.
  enum_1_12 fy Hfy; enum_1_12 m Hm; intros Ha;
    try (vm_compute in Ha; discriminate Ha); clear Ha;
    destruct s as [[| |?] [| |?]]; reflexivity.
Qed.

(** The months each fiscal start month leaves unassigned. *)
Lemma quarter_months_skipped :
  (fun fy => List.filter (fun m => negb (quarter_assigned fy m)) (seqZ 1 12))
    <$> seqZ 1 12
  = [ []; [1; 10]; [1; 2; 10; 11]; []; [1; 10]; [1; 2; 10; 11];
      []; [1; 10]; [1; 2; 10; 11]; []; [1; 10]; [1; 2; 10; 11] ].
Proof. vm_compute. reflexivity. Qed.

(** With standard quarters (QTD) every row gets the following quarter. *)
Lemma qtd_next_quarter_start (N fy : Z) (s : scratch) (d : date) :
  valid_month d ->
  snd (calculate_start_of_next_period (mkConstants QTD N fy) s (Some d))
  = Some (following_quarter_start 1 d).
Proof.
  destruct d as [y m dd]. unfold valid_month. simpl. intros Hm.
  enum_1_12 m Hm; destruct s as [[| |?] [| |?]]; reflexivity.
Qed.

(** C7 (failing input): FQTD with [fy_start_month = 2]. The boundaries are
    [2; 5; 8; 11] and a row of month 6 gets month 8 of its year, but a row
    dated 2021-10-01 (quarter 8..10, next quarter 2021-11-01) is assigned by
    no pass of the loop: on a fresh dataframe the result is NaT, otherwise
    whatever the previous call left. The same holds for month 1. *)
Theorem fqtd_october_row_gets_no_next_period :
  let con := mkConstants FQTD 0 2 in
  quarter_boundaries 2 = [2; 5; 8; 11]
  /\ (forall y dd s,
        snd (calculate_start_of_next_period con s (Some (mkDate y 6 dd)))
        = Some (mkDate y 8 1))
  /\ following_quarter_start 2 (mkDate 2021 10 1) = mkDate 2021 11 1
  /\ snd (calculate_start_of_next_period con fresh (Some (mkDate 2021 10 1)))
     = None
  /\ (forall s,
        snd (calculate_start_of_next_period con s (Some (mkDate 2021 10 1)))
        = to_datetime (nan_of (year_next_period s))
                      (nan_of (month_next_period s)))
  /\ following_quarter_start 2 (mkDate 2021 1 1) = mkDate 2021 2 1
  /\ snd (calculate_start_of_next_period con fresh (Some (mkDate 2021 1 1)))
     = None.
Proof.
  intros con.
  split; [reflexivity |].
  split.
  { intros y dd s.
    exact (next_quarter_start_when_assigned 0 2 s (mkDate y 6 dd)
             ltac:(lia) ltac:(unfold valid_month; simpl; lia) eq_refl). }
  split; [reflexivity |].
  split; [reflexivity |].
  split.
  { intros s.
    exact (next_quarter_start_when_skipped 0 2 s (mkDate 2021 10 1)
             ltac:(lia) ltac:(unfold valid_month; simpl; lia) eq_refl). }
  split; reflexivity.
Qed.

End PeriodFacts.

(** ** Properties of the configuration check *)

Section ConfigCheckFacts.

Variable strftime_month : pyval -> option string.

Lemma in_month_range_spec (v : pyval) (le gt : bool) :
  py_le v 12 = Ok le -> py_gt v 0 = Ok gt ->
  is_number v && le && gt = in_month_range v.
Proof.
  destruct v; simpl; intros [= <-] [= <-]; try reflexivity.
  - apply andb_comm.
  - apply andb_comm.
  - destruct b; reflexivity.
Qed.

Lemma not_number_not_in_range (v : pyval) :
  is_number v = false -> in_month_range v = false.
Proof. destruct v; simpl; done. Qed.

Lemma check_config_raises_iff (con : gmap string pyval) :
  raises (check_config_time_period strftime_month con)
  <-> invalid_as_checked strftime_month con.
Proof.
  unfold check_config_time_period, invalid_as_checked, item.
  destruct (con !! "crb_type") as [c|]; simpl; [|tauto].
  destruct (py_in c crb_type_options) eqn:E; simpl;
    [| split; [intros _; by left | done]].
  destruct (str_eq c "number_of_months") eqn:Enm; simpl.
  - destruct (con !! "month_period") as [v|]; simpl;
      [| split; [intros _; right; left; done | done]].
    destruct (is_number v) eqn:Ev; simpl;
      [| split; [intros _; right; left; done | done]].
    assert (Efy : py_in c ["FYTD"; "FQTD"] = false).
    { destruct c; try discriminate Enm. unfold str_eq in Enm.
      apply bool_decide_eq_true in Enm as ->. reflexivity. }
    rewrite Efy. simpl.
    split; [done | intros [? | [[_ ?] | [? _]]]; discriminate].
  - destruct (py_in c ["FYTD"; "FQTD"]) eqn:Efy; simpl;
      [| split; [done | intros [? | [[? _] | [? _]]]; discriminate]].
    destruct (con !! "fy_start_month") as [v|]; simpl;
      [| split; [intros _; right; right; done | done]].
    destruct (py_le v 12) as [le|] eqn:Ele; simpl.
    + destruct (py_gt v 0) as [gt|] eqn:Egt; simpl;
        [| destruct v; simpl in *; discriminate].
      rewrite (in_month_range_spec v le gt Ele Egt).
      destruct (in_month_range v); simpl.
      * destruct (strftime_month v); simpl.
        -- split; [done |].
           intros [? | [[? _] | [_ [? | ?]]]]; discriminate.
        -- split; [intros _; right; right; split; [done | by right] | done].
      * split; [intros _; right; right; split; [done | by left] | done].
    + assert (is_number v = false) by (destruct v; simpl in *; done).
      rewrite not_number_not_in_range by done.
      split; [intros _; right; right; split; [done | by left] | done].
Qed.

Lemma checked_implies_specified (con : gmap string pyval) :
  (forall z, 1 <= z <= 12 -> strftime_month (PyInt z) <> None) ->
  invalid_as_checked strftime_month con -> invalid_as_specified con.
Proof.
  intros Hfmt. unfold invalid_as_checked, invalid_as_specified.
  destruct (con !! "crb_type") as [c|]; [|done].
  intros [H | [[H1 H2] | [H1 H2]]]; [by left | right; left | right; right];
    (split; [exact H1 |]).
  - destruct (con !! "month_period") as [[] |]; simpl in *; done.
  - destruct (con !! "fy_start_month") as [v |]; [|done].
    destruct v as [z | | | | |]; try done. simpl in *.
    destruct H2 as [H2 | H2].
    + apply andb_false_iff in H2. apply andb_false_iff.
      destruct H2 as [H2 | H2]; [left | right; exact H2].
      apply Z.ltb_ge in H2. apply Z.leb_gt. lia.
    + destruct (Z.leb_spec 1 z); [|done].
      destruct (Z.leb_spec z 12); [|done].
      exfalso. apply (Hfmt z); [lia | exact H2].
Qed.

(** C9 (amended): [check_config_time_period] raises exactly when
    [crb_type] is missing or not one of the five options, or
    [crb_type = number_of_months] and [month_period] is missing or not a
    number (any int, float or bool passes, whatever its sign), or [crb_type]
    is FYTD/FQTD and [fy_start_month] is missing, not a number, outside
    (0, 12], or not formattable as a month name; provided the integers 1..12
    format, every configuration the specification calls valid returns
    without error. *)
Theorem check_config_raises_on_what_it_tests (con : gmap string pyval) :
  (raises (check_config_time_period strftime_month con)
   <-> invalid_as_checked strftime_month con)
  /\ ((forall z, 1 <= z <= 12 -> strftime_month (PyInt z) <> None) ->
      ~ invalid_as_specified con ->
      check_config_time_period strftime_month con = Ok tt).
Proof.
  split; [apply check_config_raises_iff |].
  intros Hfmt Hvalid.
  destruct (check_config_time_period strftime_month con) as [[]|e] eqn:E;
    [reflexivity |].
  exfalso. apply Hvalid, (checked_implies_specified con Hfmt).
  apply check_config_raises_iff. rewrite E. exact I.
Qed.

End ConfigCheckFacts.

Lemma strftime_int_month_formats (z : Z) :
  1 <= z <= 12 -> strftime_int_month (PyInt z) <> None.
Proof.
  intros Hz. unfold strftime_int_month.
  destruct (Z.leb_spec 1 z); [|lia]. destruct (Z.leb_spec z 12); [|lia]. simpl.
  assert (z = 1 \/ z = 2 \/ z = 3 \/ z = 4 \/ z = 5 \/ z = 6 \/ z = 7
          \/ z = 8 \/ z = 9 \/ z = 10 \/ z = 11 \/ z = 12) as Hc by lia.
  repeat (destruct Hc as [-> | Hc]); try subst z; done.
Qed.

Lemma check_config_raises_on_what_it_tests_witness :
  let con : gmap string pyval :=
    <["crb_type" := PyStr "FYTD"]> (<["fy_start_month" := PyInt 4]> ∅) in
  check_config_time_period strftime_int_month con = Ok tt.
Proof.
  intros con.
  apply (proj2 (check_config_raises_on_what_it_tests strftime_int_month con)
           strftime_int_month_formats).
  vm_compute. intros [H | [[H _] | [_ H]]]; discriminate H.
Defined.

(** C9 (counterexample): [crb_type = number_of_months] with
    [month_period = 0] is not a positive int, yet the check returns. *)
Lemma zero_month_period_is_accepted :
  let con : gmap string pyval :=
    <["crb_type" := PyStr "number_of_months"]> (<["month_period" := PyInt 0]> ∅) in
  invalid_as_specified con
  /\ check_config_time_period strftime_int_month con = Ok tt
  /\ ~ (raises (check_config_time_period strftime_int_month con)
        <-> invalid_as_specified con).
Proof.
  intros con.
  assert (Hinv : invalid_as_specified con).
  { vm_compute. right; left. done. }
  assert (Hok : check_config_time_period strftime_int_month con = Ok tt)
    by (vm_compute; reflexivity).
  split; [exact Hinv | split; [exact Hok |]].
  intros [_ H]. specialize (H Hinv). rewrite Hok in H. exact H.
Qed.

(** ** Properties of the waterfall check *)

Section WaterfallCheckFacts.

Lemma round_half_even_zero_iff (n d : Z) :
  0 < d -> round_half_even n d = 0 <-> Z.abs (2 * n) <= d.
Proof.
  intros Hd. unfold round_half_even.
  pose proof (Z.div_mod n d ltac:(lia)) as Hdm.
  pose proof (Z.mod_pos_bound n d Hd) as Hr.
  set (f := n / d) in *. set (r := n mod d) in *.
  destruct (Z.ltb_spec (2 * r) d) as [Hlo | Hlo].
  - split; [intros Hf; rewrite Hf in Hdm; lia |].
    intros Habs. destruct (Z.lt_trichotomy f 0) as [Hf | [Hf | Hf]]; [| done |]; nia.
  - destruct (Z.ltb_spec d (2 * r)) as [Hhi | Hhi].
    + split; [intros Hf; assert (f = -1) as Hf' by lia; rewrite Hf' in Hdm; lia |].
      intros Habs. destruct (Z.lt_trichotomy f (-1)) as [Hf | [Hf | Hf]];
        [| lia |]; nia.
    + assert (Htie : 2 * r = d) by lia.
      destruct (Z.even f) eqn:Ev.
      * split; [intros Hf; rewrite Hf in Hdm; lia |].
        intros Habs.
        destruct (Z.lt_trichotomy f (-1)) as [Hf | [Hf | Hf]];
          [nia | subst f; rewrite Hf in Ev; discriminate Ev |].
        destruct (Z.eq_dec f 0); [done | nia].
      * split; [intros Hf; assert (f = -1) as Hf' by lia; rewrite Hf' in Hdm; lia |].
        intros Habs.
        destruct (Z.lt_trichotomy f (-1)) as [Hf | [Hf | Hf]]; [nia | lia |].
        destruct (Z.eq_dec f 0) as [Hz | Hz];
          [subst f; rewrite Hz in Ev; discriminate Ev | nia].
Qed.

(** A check sum rounds to 0.00 exactly when it is within 0.005 of zero. *)
Lemma round2_zero_iff (q : Q) : round2 q = 0 <-> (Qabs q <= 1 # 200)%Q.
Proof.
  unfold round2. rewrite round_half_even_zero_iff by lia.
  destruct q as [n d]. unfold Qle, Qabs. simpl. lia.
Qed.

Lemma round2_nonzero_iff (q : Q) :
  negb (round2 q =? 0) = true <-> (1 # 200 < Qabs q)%Q.
Proof.
  rewrite negb_true_iff, Z.eqb_neq, round2_zero_iff.
  split; [apply Qnot_le_lt | apply Qlt_not_le].
Qed.

Lemma offenders_nonempty (df_waterfall : list waterfall_row) :
  List.filter (fun p : Z * Q => negb (round2 p.2 =? 0)) (check_sums df_waterfall) <> []
  <-> entity_off_by_more_than_half_cent df_waterfall.
Proof.
  unfold entity_off_by_more_than_half_cent. split.
  - intros Hne.
    destruct (List.filter _ (check_sums df_waterfall)) as [|[k total] l] eqn:E;
      [done |].
    assert (Hin : In (k, total) (List.filter
              (fun p : Z * Q => negb (round2 p.2 =? 0)) (check_sums df_waterfall)))
      by (rewrite E; left; reflexivity).
    apply filter_In in Hin as [Hin Hnz].
    exists k, total. split; [by apply list_elem_of_In |].
    by apply round2_nonzero_iff.
  - intros (k & total & Hin & Hoff) Hnil.
    assert (Hin' : In (k, total) (List.filter
              (fun p : Z * Q => negb (round2 p.2 =? 0)) (check_sums df_waterfall))).
    { apply filter_In. split; [by apply list_elem_of_In |].
      by apply round2_nonzero_iff. }
    rewrite Hnil in Hin'. exact Hin'.
Qed.

(** C2 (amended): [check_waterfall_sums] raises exactly when (a) some
    entity's sum of all categories but "EoP ARR" does not round to 0.00,
    that is, differs from zero by more than 0.005, or (b) the annual totals
    of the input [arr] and of the waterfall "EoP ARR", rounded to two
    decimals, differ; when only (b) holds it raises after producing the
    per-customer comparison, and under (a) it raises with the offending
    check sums. *)
Theorem waterfall_check_raises_iff (df_initial : input_frame)
    (df_waterfall : list waterfall_row) :
  (raises_error (check_waterfall_sums df_initial df_waterfall)
   <-> entity_off_by_more_than_half_cent df_waterfall
       \/ annual_totals_differ df_initial df_waterfall)
  /\ (~ entity_off_by_more_than_half_cent df_waterfall ->
      annual_totals_differ df_initial df_waterfall ->
      check_waterfall_sums df_initial df_waterfall
      = SumsNotEqual (incorrect_customers df_initial df_waterfall))
  /\ (entity_off_by_more_than_half_cent df_waterfall ->
      exists offenders,
        offenders <> []
        /\ check_waterfall_sums df_initial df_waterfall
           = DoesNotSumToZero offenders).
Proof.
  pose proof (offenders_nonempty df_waterfall) as Hoff.
  unfold check_waterfall_sums, raises_error, annual_totals_differ.
  destruct (List.filter _ (check_sums df_waterfall)) as [|p l].
  - assert (Hnone : ~ entity_off_by_more_than_half_cent df_waterfall)
      by (intros H; apply Hoff in H; done).
    destruct (decide (revenue_by_year df_initial
                      = revenue_by_year_waterfall df_waterfall)) as [Heq | Hne].
    + split_and!; [split; [done | intros [? | ?]; done] | done | done].
    + split_and!; [split; [by right | done] | done | done].
  - assert (Hsome : entity_off_by_more_than_half_cent df_waterfall)
      by (apply Hoff; done).
    split_and!; [split; [by left | done] | done |].
    intros _. exists (p :: l). done.
Qed.

(** C2 (counterexample): one entity whose categories other than "EoP ARR"
    sum to 0.007, with matching annual totals. Neither (a) as stated (more
    than 0.01) nor (b) holds, yet the check raises: 0.007 rounds to 0.01. *)
Lemma seven_thousandths_raise :
  let df_initial := mkFrame false [mkInput 7 (mkDate 2020 3 1) 100 1] in
  let df_waterfall :=
    [mkWaterfall 1 7 (mkDate 2020 3 1) "EoP ARR" 100;
     mkWaterfall 1 7 (mkDate 2020 3 1) "Upsell" (7 # 1000)] in
  raises_error (check_waterfall_sums df_initial df_waterfall)
  /\ ~ entity_off_by_more_than_cent df_waterfall
  /\ ~ annual_totals_differ df_initial df_waterfall
  /\ ~ (raises_error (check_waterfall_sums df_initial df_waterfall)
        <-> entity_off_by_more_than_cent df_waterfall
            \/ annual_totals_differ df_initial df_waterfall).
Proof.
  intros df_initial df_waterfall.
  assert (Hr : raises_error (check_waterfall_sums df_initial df_waterfall)).
  { unfold raises_error. vm_compute. discriminate. }
  assert (Ha : ~ entity_off_by_more_than_cent df_waterfall).
  { intros (k & total & Hin & Hoff). vm_compute in Hin.
    apply list_elem_of_singleton in Hin. injection Hin as -> ->.
    vm_compute in Hoff. discriminate Hoff. }
  assert (Hb : ~ annual_totals_differ df_initial df_waterfall).
  { unfold annual_totals_differ. intros Hne. apply Hne.
    vm_compute. reflexivity. }
  split_and!; try assumption.
  intros [H _]. destruct (H Hr); contradiction.
Qed.

End WaterfallCheckFacts.

(** ** Further properties of the period calculator *)

Section PeriodBrackets.

Ltac each_month m Hm :=
  let H := fresh "Hcases" in
  assert (m = 1 \/ m = 2 \/ m = 3 \/ m = 4 \/ m = 5 \/ m = 6 \/ m = 7
          \/ m = 8 \/ m = 9 \/ m = 10 \/ m = 11 \/ m = 12) as H by lia;
  clear Hm;
  repeat (destruct H as [-> | H]); [..| subst m].

Ltac eval_closed :=
  unfold following_quarter_start, calculate_month_difference, first_of_month;
  cbn [year month_of day];
  repeat match goal with
         | |- context [?a mod 3] =>
             let v := eval vm_compute in (a mod 3) in
             change (a mod 3) with v
         end;
  repeat match goal with
         | |- context [?a >? 12] =>
             let v := eval vm_compute in (a >? 12) in
             change (a >? 12) with v
         end;
  cbn [year month_of day].

(** X1: under YTD and FYTD, on a dataframe whose [month_next_period]
    column holds the fiscal start month, the two calculators bracket the
    row: both results are first days of the fiscal start month, twelve
    months apart, and the row's month is 0 to 11 months after the start of
    the current period. *)
Theorem fiscal_year_bracket (con : constants) (s s' : scratch) (d : date) :
  crb con = YTD \/ crb con = FYTD ->
  1 <= effective_fy con <= 12 -> valid_month d ->
  month_next_period s' = Num (effective_fy con) ->
  exists c n,
    snd (calculate_start_of_current_period con s' (Some d)) = Ok (Some c)
    /\ snd (calculate_start_of_next_period con s (Some d)) = Some n
    /\ month_of c = effective_fy con /\ month_of n = effective_fy con
    /\ day c = 1 /\ day n = 1
    /\ calculate_month_difference c n = 12
    /\ 0 <= calculate_month_difference c d < 12.
Proof.
  intros Hc Hfy Hm Hs. unfold valid_month in Hm.
  rewrite (current_year_start con s' d _ Hc Hs), (next_year_start con s d Hc).
  eexists _, _. split; [reflexivity |]. split; [reflexivity |].
  unfold calculate_month_difference, first_of_month. simpl.
  destruct (Z.ltb_spec (month_of d) (effective_fy con)); simpl; lia.
Qed.

Lemma fiscal_year_bracket_witness :
  let con := mkConstants FYTD 0 4 in
  let trimmed := fst (calculate_start_of_next_period con fresh
                        (Some (mkDate 2020 12 1))) in
  exists c n,
    snd (calculate_start_of_current_period con trimmed (Some (mkDate 2021 2 1)))
      = Ok (Some c)
    /\ snd (calculate_start_of_next_period con fresh (Some (mkDate 2021 2 1)))
      = Some n
    /\ calculate_month_difference c n = 12.
Proof.
  intros con trimmed.
  destruct (fiscal_year_bracket con fresh trimmed (mkDate 2021 2 1)
              (or_intror eq_refl) ltac:(vm_compute; split; discriminate)
              ltac:(unfold valid_month; simpl; lia) eq_refl)
    as (c & n & Hcur & Hnext & _ & _ & _ & _ & H12 & _).
  exists c, n. split; [exact Hcur | split; [exact Hnext | exact H12]].
Defined.

(** X2: under QTD [calculate_start_of_next_period] gives every row of a
    calendar month the first day of a quarter month (1, 4, 7 or 10) that is
    one to three months after the row's month, whatever the working columns
    held before. *)
Theorem qtd_next_quarter_bracket (N fy : Z) (s : scratch) (d : date) :
  valid_month d ->
  exists n,
    snd (calculate_start_of_next_period (mkConstants QTD N fy) s (Some d))
      = Some n
    /\ day n = 1 /\ (month_of n - 1) mod 3 = 0
    /\ 1 <= calculate_month_difference d n <= 3.
Proof.
  intros Hm. rewrite qtd_next_quarter_start by exact Hm.
  eexists. split; [reflexivity |].
  destruct d as [y m dd]. unfold valid_month in Hm. simpl in Hm.
  each_month m Hm; eval_closed; eval_closed; lia.
Qed.

Lemma qtd_next_quarter_bracket_witness :
  exists n,
    snd (calculate_start_of_next_period (mkConstants QTD 0 1) fresh
           (Some (mkDate 2021 11 1))) = Some n
    /\ 1 <= calculate_month_difference (mkDate 2021 11 1) n <= 3.
Proof.
  destruct (qtd_next_quarter_bracket 0 1 fresh (mkDate 2021 11 1)
              ltac:(unfold valid_month; simpl; lia))
    as (n & Hn & _ & _ & Hd).
  exists n. split; [exact Hn | exact Hd].
Defined.

Lemma qtd_current_computed (N fy : Z) (s : scratch) (d : date) :
  valid_month d ->
  snd (calculate_start_of_current_period (mkConstants QTD N fy) s (Some d))
  = Ok (Some (if month_of d <? 4 then mkDate (year d) 1 1
              else if month_of d <? 7 then mkDate (year d) 4 1
              else if month_of d <? 10 then mkDate (year d) 7 1
              else mkDate (year d - 1) 10 1)).
Proof.
  destruct d as [y m dd]. unfold valid_month. simpl. intros Hm.
  each_month m Hm; destruct s as [[| |?] [| |?]]; reflexivity.
Qed.

(** X3: under QTD [calculate_start_of_current_period] returns the first
    day of the row's quarter for the months January to September, but for
    October to December it returns October 1 of the previous year: the
    branch for quarters starting in month 10 or later subtracts a year. *)
Theorem qtd_current_quarter_start (N fy : Z) (s : scratch) (d : date) :
  valid_month d ->
  exists c,
    snd (calculate_start_of_current_period (mkConstants QTD N fy) s (Some d))
      = Ok (Some c)
    /\ day c = 1
    /\ (month_of d < 10 ->
        year c = year d /\ (month_of c - 1) mod 3 = 0
        /\ 0 <= calculate_month_difference c d <= 2)
    /\ (10 <= month_of d -> c = mkDate (year d - 1) 10 1).
Proof.
  intros Hm. rewrite qtd_current_computed by exact Hm.
  eexists. split; [reflexivity |].
  unfold valid_month in Hm. unfold calculate_month_difference.
  assert (Hfin : forall c : date,
    day c = 1 ->
    (month_of d < 10 -> year c = year d /\ (month_of c - 1) mod 3 = 0
       /\ 0 <= (year d - year c) * 12 + month_of d - month_of c <= 2) ->
    (10 <= month_of d -> c = mkDate (year d - 1) 10 1) ->
    day c = 1
    /\ (month_of d < 10 -> year c = year d /\ (month_of c - 1) mod 3 = 0
         /\ 0 <= (year d - year c) * 12 + month_of d - month_of c <= 2)
    /\ (10 <= month_of d -> c = mkDate (year d - 1) 10 1)) by tauto.
  destruct (Z.ltb_spec (month_of d) 4);
    [apply Hfin; simpl; [reflexivity | intros _; split_and!; first [reflexivity | lia] | lia] |].
  destruct (Z.ltb_spec (month_of d) 7);
    [apply Hfin; simpl; [reflexivity | intros _; split_and!; first [reflexivity | lia] | lia] |].
  destruct (Z.ltb_spec (month_of d) 10);
    [apply Hfin; simpl; [reflexivity | intros _; split_and!; first [reflexivity | lia] | lia] |].
  apply Hfin; simpl; [reflexivity | lia | reflexivity].
Qed.

Lemma qtd_current_quarter_start_witness :
  exists c,
    snd (calculate_start_of_current_period (mkConstants QTD 0 1) fresh
           (Some (mkDate 2021 11 1))) = Ok (Some c)
    /\ c = mkDate 2020 10 1.
Proof.
  destruct (qtd_current_quarter_start 0 1 fresh (mkDate 2021 11 1)
              ltac:(unfold valid_month; simpl; lia))
    as (c & Hc & _ & _ & Hlate).
  exists c. split; [exact Hc | apply Hlate; simpl; lia].
Defined.

(** X4: under FQTD a row whose month no pass of the quarter loop assigns
    gets the result of the previous call on the same dataframe, whatever
    date column that call was about: the working columns leak from one call
    to the next. *)
Theorem skipped_row_repeats_previous_result (N fy : Z) (s : scratch)
    (e : dt) (d : date) :
  1 <= fy <= 12 -> valid_month d ->
  quarter_assigned fy (month_of d) = false ->
  let con := mkConstants FQTD N fy in
  snd (calculate_start_of_next_period con
         (fst (calculate_start_of_next_period con s e)) (Some d))
  = snd (calculate_start_of_next_period con s e).
Proof.
  intros Hfy Hm Hskip con.
  exact (next_quarter_start_when_skipped N fy
           (fst (calculate_start_of_next_period con s e)) d Hfy Hm Hskip).
Qed.

Lemma skipped_row_repeats_previous_result_witness :
  let con := mkConstants FQTD 0 2 in
  snd (calculate_start_of_next_period con
         (fst (calculate_start_of_next_period con fresh (Some (mkDate 2019 6 1))))
         (Some (mkDate 2021 10 1)))
  = Some (mkDate 2019 8 1).
Proof.
  intros con. subst con.
  rewrite (skipped_row_repeats_previous_result 0 2 fresh
             (Some (mkDate 2019 6 1)) (mkDate 2021 10 1)
             ltac:(lia) ltac:(unfold valid_month; simpl; lia) eq_refl).
  reflexivity.
Defined.

(** X5: under the fixed-N policy [calculate_start_of_next_period] returns
    a date exactly [month_period] months after the row's date (for any
    sign of [month_period]), with the day clipped to the length of the
    target month, and leaves the working columns as they were. *)
Theorem fixed_window_next_period (con : constants) (s : scratch) (d : date) :
  crb con = number_of_months -> valid_month d ->
  exists n,
    calculate_start_of_next_period con s (Some d) = (s, Some n)
    /\ calculate_month_difference d n = month_period con
    /\ valid_month n
    /\ day n = Z.min (day d) (days_in_month (year n) (month_of n)).
Proof.
  intros Hc Hm. exists (add_months d (month_period con)).
  unfold calculate_start_of_next_period. rewrite Hc. simpl.
  split; [reflexivity |].
  split; [apply month_difference_add_months, Hm |].
  split; [| reflexivity].
  unfold valid_month, add_months. simpl.
  pose proof (Z.mod_pos_bound (year d * 12 + (month_of d - 1) + month_period con)
                12 ltac:(lia)). lia.
Qed.

Lemma fixed_window_next_period_witness :
  exists n,
    calculate_start_of_next_period (mkConstants number_of_months 13 1) fresh
      (Some (mkDate 2020 1 31)) = (fresh, Some n)
    /\ calculate_month_difference (mkDate 2020 1 31) n = 13.
Proof.
  destruct (fixed_window_next_period (mkConstants number_of_months 13 1) fresh
              (mkDate 2020 1 31) eq_refl
              ltac:(unfold valid_month; simpl; lia))
    as (n & Hn & Hd & _).
  exists n. split; [exact Hn | exact Hd].
Defined.

End PeriodBrackets.

(** ** Further properties of the classifier *)

Section ClassifierCalendar.

Lemma churn_step_keeps_row (con : constants) (r : row) :
  revenue (crb_add_churn_flags con r) = revenue r
  /\ life (crb_add_churn_flags con r) = life r
  /\ arr_delta (crb_add_churn_flags con r) = arr_delta r.
Proof.
  unfold crb_add_churn_flags. destruct (crb_number_months con); [done |].
  destruct (in_first_period con (work r) _ _) as [s1 b1].
  destruct (in_first_period con s1 _ _) as [s2 b2]. done.
Qed.

Lemma cross_sell_step_keeps_row (con : constants) (r : row) :
  revenue (crb_add_cross_sell_flags con r) = revenue r
  /\ life (crb_add_cross_sell_flags con r) = life r
  /\ arr_delta (crb_add_cross_sell_flags con r) = arr_delta r.
Proof.
  unfold crb_add_cross_sell_flags. destruct (crb_number_months con); [done |].
  destruct (in_first_period con (work r) _ _) as [s1 b1].
  destruct (in_first_period con s1 _ _) as [s2 b2]. done.
Qed.

Lemma upsell_step_keeps_row (con : constants) (r : row) :
  revenue (crb_upsell_flags con r) = revenue r
  /\ life (crb_upsell_flags con r) = life r
  /\ arr_delta (crb_upsell_flags con r) = arr_delta r.
Proof.
  unfold crb_upsell_flags, existing_flags.
  destruct (crb_number_months con); [done |].
  destruct (calculate_start_of_next_period con (work r) _) as [s1 d1].
  destruct (calculate_start_of_next_period con s1 _) as [s2 d2]. done.
Qed.

(** The calendar test of one flag under YTD, for a dated anchor. *)
Lemma in_first_period_ytd (con : constants) (s : scratch) (a m : date) :
  crb con = YTD -> valid_month a -> valid_month m ->
  snd (in_first_period con s (Some a) m) = true
  <-> year m = year a /\ month_of a < month_of m.
Proof.
  intros Hc Ha Hm. unfold in_first_period.
  pose proof (next_year_start con s a (or_introl Hc)) as Hnext.
  destruct (calculate_start_of_next_period con s (Some a)) as [s' p].
  simpl in Hnext. subst p.
  assert (Hfy : effective_fy con = 1) by (unfold effective_fy; rewrite Hc; done).
  unfold valid_month in *. rewrite Hfy.
  destruct (Z.ltb_spec (month_of a) 1); [lia |].
  simpl. unfold calculate_month_difference. simpl.
  rewrite andb_true_iff, Z.ltb_lt, Z.gtb_ltb, Z.ltb_lt. lia.
Qed.

(** X6: under YTD the first classifier step flags a row as new customer
    exactly when it lies in the calendar year of the customer's start and in
    a later month; the row of the start month itself is not flagged. The
    same holds for [customer_churn_flag] and the churn date. *)
Theorem ytd_new_customer_rows (con : constants) (r : row) (st ch : date) :
  crb con = YTD ->
  customer_start_date (life r) = Some st ->
  customer_churn_date (life r) = Some ch ->
  valid_month st -> valid_month ch -> valid_month (month (revenue r)) ->
  let f := flag (crb_add_churn_flags con r) in
  let m := month (revenue r) in
  (new_customer_flag f = Some 1 <-> year m = year st /\ month_of st < month_of m)
  /\ (customer_churn_flag f = Some 1
      <-> year m = year ch /\ month_of ch < month_of m)
  /\ zero_or_one (new_customer_flag f) /\ zero_or_one (customer_churn_flag f).
Proof.
  intros Hc Hst Hch Vst Vch Vm f m. subst f.
  unfold crb_add_churn_flags.
  assert (crb_number_months con = false) as ->
    by (unfold crb_number_months; rewrite Hc; done).
  rewrite Hst, Hch.
  pose proof (in_first_period_ytd con (work r) st m Hc Vst Vm) as H1.
  destruct (in_first_period con (work r) (Some st) _) as [s1 b1].
  pose proof (in_first_period_ytd con s1 ch m Hc Vch Vm) as H2.
  destruct (in_first_period con s1 (Some ch) _) as [s2 b2].
  simpl in *. rewrite !where_1_0_one.
  split_and!; [exact H1 | exact H2 | apply where_1_0_cases | apply where_1_0_cases].
Qed.

Lemma ytd_new_customer_rows_witness :
  let con := mkConstants YTD 0 1 in
  let r := initial_row (mkRevenue 7 1 1 (mkDate 2020 3 1) 100)
             (mkLifespan (Some (mkDate 2020 3 1)) (Some (mkDate 2020 12 1))
                (Some (mkDate 2020 3 1)) (Some (mkDate 2020 12 1))
                (Some (mkDate 2021 1 1))
                (Some (mkDate 2020 3 1)) (Some (mkDate 2020 12 1))
                (Some (mkDate 2021 1 1))) in
  new_customer_flag (flag (crb_add_churn_flags con r)) <> Some 1.
Proof.
  intros con r.
  destruct (ytd_new_customer_rows con r (mkDate 2020 3 1) (mkDate 2021 1 1)
              eq_refl eq_refl eq_refl
              ltac:(unfold valid_month; simpl; lia)
              ltac:(unfold valid_month; simpl; lia)
              ltac:(unfold valid_month; simpl; lia)) as (Hnew & _).
  intros H. apply Hnew in H as [_ H]. simpl in H. lia.
Defined.

(** X7: under YTD [existing_customer_flag] is 1 exactly on the rows of a
    calendar year after the year the customer started in. *)
Theorem ytd_existing_customer_rows (con : constants) (r : row) (st : date) :
  crb con = YTD ->
  customer_start_date (life r) = Some st ->
  valid_month st -> valid_month (month (revenue r)) ->
  let f := flag (crb_upsell_flags con r) in
  (existing_customer_flag f = Some 1 <-> year st < year (month (revenue r)))
  /\ zero_or_one (existing_customer_flag f).
Proof.
  intros Hc Hst Vst Vm f. subst f.
  rewrite existing_customer_flag_calendar by (rewrite Hc; done).
  rewrite where_1_0_one. split; [| apply where_1_0_cases].
  unfold customer_age. rewrite Hst.
  rewrite (next_year_start con (work r) st (or_introl Hc)).
  assert (Hfy : effective_fy con = 1) by (unfold effective_fy; rewrite Hc; done).
  unfold valid_month in *. rewrite Hfy.
  destruct (Z.ltb_spec (month_of st) 1); [lia |].
  simpl. unfold calculate_month_difference. simpl.
  rewrite Z.geb_leb, Z.leb_le. lia.
Qed.

Lemma ytd_existing_customer_rows_witness :
  let con := mkConstants YTD 0 1 in
  let r := initial_row (mkRevenue 7 1 1 (mkDate 2021 1 1) 100)
             (mkLifespan (Some (mkDate 2020 3 1)) (Some (mkDate 2021 12 1))
                (Some (mkDate 2020 3 1)) (Some (mkDate 2021 12 1))
                (Some (mkDate 2022 1 1))
                (Some (mkDate 2020 3 1)) (Some (mkDate 2021 12 1))
                (Some (mkDate 2022 1 1))) in
  existing_customer_flag (flag (crb_upsell_flags con r)) = Some 1.
Proof.
  intros con r.
  apply (ytd_existing_customer_rows con r (mkDate 2020 3 1) eq_refl eq_refl
           ltac:(unfold valid_month; simpl; lia)
           ltac:(unfold valid_month; simpl; lia)).
  simpl. lia.
Defined.

End ClassifierCalendar.

Section ClassifierFixedWindow.

Lemma classify_row_keeps (con : constants) (r : row) :
  revenue (classify_row con r) = revenue r
  /\ life (classify_row con r) = life r
  /\ arr_delta (classify_row con r) = arr_delta r.
Proof.
  unfold classify_row.
  destruct (upsell_step_keeps_row con
              (crb_add_cross_sell_flags con (crb_add_churn_flags con r)))
    as (-> & -> & ->).
  destruct (cross_sell_step_keeps_row con (crb_add_churn_flags con r))
    as (-> & -> & ->).
  apply churn_step_keeps_row.
Qed.

(** The customer flags a row leaves the classifier with are those of the
    first step. *)
Lemma classify_row_customer_flags (con : constants) (r : row) :
  unclassified r ->
  new_customer_flag (flag (classify_row con r))
  = new_customer_flag (flag (crb_add_churn_flags con r))
  /\ customer_churn_flag (flag (classify_row con r))
     = customer_churn_flag (flag (crb_add_churn_flags con r)).
Proof.
  intros Hr. unfold unclassified in Hr.
  destruct (churn_step_flags con r) as (_ & _ & K1 & K2 & K3 & K4).
  rewrite Hr in K1, K2, K3, K4. simpl in K1, K2, K3, K4.
  destruct (cross_sell_step_flags con (crb_add_churn_flags con r) K1 K2)
    as (C1 & C2 & C3 & C4 & _).
  rewrite K3 in C3. rewrite K4 in C4.
  destruct (upsell_step_values con
              (crb_add_cross_sell_flags con (crb_add_churn_flags con r)) C3 C4)
    as (_ & _ & U1 & U2 & _).
  unfold classify_row. rewrite U1, U2, C1, C2. done.
Qed.

(** X8: under the fixed-N policy with [month_period >= 0], a row whose
    customer is 0 to 99 months old leaves the classifier with exactly one of
    [new_customer_flag] and [existing_customer_flag] at 1 (new below N
    months, existing from N months on); for a negative age neither is 1,
    and from 100 months on [existing_customer_flag] is 0. *)
Theorem fixed_window_new_or_existing (con : constants) (r : row) (age : Z) :
  crb con = number_of_months -> 0 <= month_period con ->
  unclassified r -> customer_age r = Some age ->
  let f := flag (classify_row con r) in
  (0 <= age < 100 ->
     (age < month_period con
        /\ new_customer_flag f = Some 1 /\ existing_customer_flag f = Some 0)
     \/ (month_period con <= age
        /\ new_customer_flag f = Some 0 /\ existing_customer_flag f = Some 1))
  /\ (age < 0 ->
      new_customer_flag f = Some 0 /\ existing_customer_flag f = Some 0)
  /\ (100 <= age -> existing_customer_flag f = Some 0).
Proof.
  intros Hc HN Hr Hage f.
  destruct (classify_row_customer_flags con r Hr) as (Hnew & _).
  destruct (churn_flags_fixed_window con r Hc) as (Wn & _ & Zn & _).
  set (r' := crb_add_cross_sell_flags con (crb_add_churn_flags con r)).
  destruct (existing_flags_fixed_window con r' Hc) as (We & _ & Ze & _).
  assert (Hage' : customer_age r' = Some age).
  { unfold customer_age, r'.
    destruct (cross_sell_step_keeps_row con (crb_add_churn_flags con r))
      as (-> & -> & _).
    destruct (churn_step_keeps_row con r) as (-> & -> & _). exact Hage. }
  change (flag (crb_upsell_flags con r')) with f in We, Ze.
  fold f in Hnew.
  unfold flagged_within in Wn, We. rewrite <- Hnew in Wn, Zn.
  rewrite Hage in Wn. rewrite Hage' in We.
  assert (Nn : new_customer_flag f = Some 1 <-> 0 <= age < month_period con).
  { rewrite Wn. split; [intros (k & [= <-] & ?); done | eauto]. }
  assert (Ne : existing_customer_flag f = Some 1 <-> month_period con <= age < 100).
  { rewrite We. split; [intros (k & [= <-] & ?); done | eauto]. }
  assert (Fn : new_customer_flag f <> Some 1 -> new_customer_flag f = Some 0)
    by (destruct Zn; [done | intros; done]).
  assert (Fe : existing_customer_flag f <> Some 1 -> existing_customer_flag f = Some 0)
    by (destruct Ze; [done | intros; done]).
  split.
  - intros Hrange. destruct (Z.lt_ge_cases age (month_period con)).
    + left. split_and!; [done | apply Nn; lia | apply Fe; rewrite Ne; lia].
    + right. split_and!; [done | apply Fn; rewrite Nn; lia | apply Ne; lia].
  - split.
    + intros Hout. split; [apply Fn; rewrite Nn; lia | apply Fe; rewrite Ne; lia].
    + intros Hout. apply Fe. rewrite Ne. lia.
Qed.

Lemma fixed_window_new_or_existing_witness :
  let con := mkConstants number_of_months 3 1 in
  let r := initial_row (mkRevenue 7 1 1 (mkDate 2020 4 1) 100)
             (mkLifespan (Some (mkDate 2020 1 1)) (Some (mkDate 2020 12 1))
                (Some (mkDate 2020 1 1)) (Some (mkDate 2020 12 1))
                (Some (mkDate 2021 1 1))
                (Some (mkDate 2020 1 1)) (Some (mkDate 2020 12 1))
                (Some (mkDate 2021 1 1))) in
  new_customer_flag (flag (classify_row con r)) = Some 0
  /\ existing_customer_flag (flag (classify_row con r)) = Some 1.
Proof.
  intros con r.
  destruct (fixed_window_new_or_existing con r 3 eq_refl ltac:(simpl; lia)
              eq_refl eq_refl) as (Hin & _).
  destruct (Hin ltac:(lia)) as [(Hlt & _) | (_ & Hn & He)];
    [simpl in Hlt; lia | split; [exact Hn | exact He]].
Defined.

Lemma in_first_period_undated (con : constants) (s : scratch) (m : date) :
  snd (in_first_period con s None m) = false.
Proof.
  unfold in_first_period.
  destruct (calculate_start_of_next_period con s None) as [s' p]. reflexivity.
Qed.

Lemma churn_step_undated (con : constants) (r : row) :
  customer_start_date (life r) = None -> customer_churn_date (life r) = None ->
  new_customer_flag (flag (crb_add_churn_flags con r)) = Some 0
  /\ customer_churn_flag (flag (crb_add_churn_flags con r)) = Some 0.
Proof.
  intros Hcs Hcc. unfold crb_add_churn_flags. rewrite Hcs, Hcc.
  destruct (crb_number_months con); [done |].
  pose proof (in_first_period_undated con (work r) (month (revenue r))) as H1.
  destruct (in_first_period con (work r) None _) as [s1 b1].
  pose proof (in_first_period_undated con s1 (month (revenue r))) as H2.
  destruct (in_first_period con s1 None _) as [s2 b2].
  simpl in *. subst. done.
Qed.

Lemma cross_sell_step_undated (con : constants) (r : row) :
  cross_sell_flag (flag r) = None -> product_churn_flag (flag r) = None ->
  product_start_date (life r) = None -> product_churn_date (life r) = None ->
  cross_sell_flag (flag (crb_add_cross_sell_flags con r)) = Some 0
  /\ product_churn_flag (flag (crb_add_cross_sell_flags con r)) = Some 0.
Proof.
  intros Hx Hp Hps Hpc. unfold crb_add_cross_sell_flags. rewrite Hps, Hpc.
  destruct (crb_number_months con).
  - simpl. rewrite Hx, Hp. destruct (not_new_or_churn (flag r)); done.
  - pose proof (in_first_period_undated con (work r) (month (revenue r))) as H1.
    destruct (in_first_period con (work r) None _) as [s1 b1].
    pose proof (in_first_period_undated con s1 (month (revenue r))) as H2.
    destruct (in_first_period con s1 None _) as [s2 b2].
    simpl in *. subst. rewrite !andb_false_r. done.
Qed.

Lemma existing_flags_undated (con : constants) (r : row) :
  customer_start_date (life r) = None -> product_start_date (life r) = None ->
  existing_customer_flag (flag (crb_upsell_flags con r)) = Some 0
  /\ existing_product_flag (flag (crb_upsell_flags con r)) = Some 0.
Proof.
  intros Hcs Hps. unfold crb_upsell_flags, existing_flags. rewrite Hcs, Hps.
  destruct (crb_number_months con); [done |].
  destruct (calculate_start_of_next_period con (work r) None) as [s1 d1].
  destruct (calculate_start_of_next_period con s1 None) as [s2 d2]. done.
Qed.

(** X9: a row whose customer and product dates are all NaT (no lifespan
    record) leaves the classifier with all eight flags at 0, under every
    policy and whatever the working columns hold. *)
Theorem undated_row_gets_no_flag (con : constants) (r : row) :
  unclassified r ->
  customer_start_date (life r) = None -> customer_churn_date (life r) = None ->
  product_start_date (life r) = None -> product_churn_date (life r) = None ->
  flag (classify_row con r)
  = mkFlags (Some 0) (Some 0) (Some 0) (Some 0)
            (Some 0) (Some 0) (Some 0) (Some 0).
Proof.
  intros Hr Hcs Hcc Hps Hpc. unfold unclassified in Hr.
  set (r1 := crb_add_churn_flags con r).
  set (r2 := crb_add_cross_sell_flags con r1).
  destruct (churn_step_undated con r Hcs Hcc) as (N1 & N2).
  destruct (churn_step_flags con r) as (_ & _ & K1 & K2 & K3 & K4).
  rewrite Hr in K1, K2, K3, K4. simpl in K1, K2, K3, K4.
  destruct (churn_step_keeps_row con r) as (_ & L1 & _).
  fold r1 in N1, N2, K1, K2, K3, K4, L1.
  destruct (cross_sell_step_undated con r1 K1 K2) as (X1 & X2);
    [rewrite L1; exact Hps | rewrite L1; exact Hpc |].
  destruct (cross_sell_step_flags con r1 K1 K2) as (C1 & C2 & C3 & C4 & _).
  destruct (cross_sell_step_keeps_row con r1) as (_ & L2 & _).
  fold r2 in X1, X2, C1, C2, C3, C4, L2.
  rewrite K3 in C3. rewrite K4 in C4.
  destruct (existing_flags_undated con r2) as (E1 & E2);
    [rewrite L2, L1; exact Hcs | rewrite L2, L1; exact Hps |].
  destruct (upsell_step_values con r2 C3 C4) as (U & D & F1 & F2 & F3 & F4).
  change (crb_upsell_flags con r2) with (classify_row con r) in *.
  assert (Hmask : upsell_mask (flag (classify_row con r)) = false).
  { unfold upsell_mask. rewrite E1. simpl. rewrite !andb_false_r. done. }
  rewrite Hmask, !andb_false_r in U, D.
  destruct (flag (classify_row con r)) as [f1 f2 f3 f4 f5 f6 f7 f8].
  simpl in *. unfold where_1_0 in U, D. clear Hmask.
  rewrite F1, F2, F3, F4, E1, E2, U, D, C1, C2, N1, N2, X1, X2. reflexivity.
Qed.

Lemma undated_row_gets_no_flag_witness :
  upsell_flag (flag (classify_row (mkConstants QTD 0 1)
     (initial_row (mkRevenue 7 1 1 (mkDate 2020 4 1) 100)
        (mkLifespan None None None None None None None None))))
  = Some 0.
Proof.
  rewrite (undated_row_gets_no_flag (mkConstants QTD 0 1)
             (initial_row (mkRevenue 7 1 1 (mkDate 2020 4 1) 100)
                (mkLifespan None None None None None None None None))
             eq_refl eq_refl eq_refl eq_refl eq_refl).
  reflexivity.
Defined.

End ClassifierFixedWindow.

(** ** Further properties of the pipeline and its checks *)

Section DirectionChecks.

Lemma raise_if_any_ok (bad : row -> bool) (message : string) (df : list row) :
  raise_if_any bad message df = Ok tt <-> Forall (fun r => bad r = false) df.
Proof.
  unfold raise_if_any. induction df as [|r df IH]; simpl.
  - split; [constructor | done].
  - rewrite Forall_cons. destruct (bad r); simpl.
    + split; [done | intros [? _]; done].
    + rewrite <- IH. destruct (existsb bad df); split; try done;
        try (intros [_ ?]; done).
Qed.

Lemma raise_if_any_cases (bad : row -> bool) (message : string) (df : list row) :
  raise_if_any bad message df = Ok tt
  \/ raise_if_any bad message df = Raise (ValueError message).
Proof. unfold raise_if_any. destruct (existsb bad df); auto. Qed.

(** X10: the three directionality checks all pass exactly when every row
    of the flat table has the six bucket amounts on the right side of zero;
    in particular they pass on an empty table, and a NaN amount never makes
    a check fail. *)
Theorem directionality_checks_pass_iff (df : list row) :
  directionality_checks df = Ok tt <-> Forall signs_ok df.
Proof.
  pose proof (raise_if_any_ok (fun r => positive (Delta_Churn r))
                "Customers in the dataset have positive churn" df) as H1.
  pose proof (raise_if_any_ok (fun r => positive (Delta_Downgrade r))
                "Customers in the dataset have positive product churn" df) as H2.
  pose proof (raise_if_any_ok (fun r => negative (Delta_New_Customer r))
                "Customers in the dataset have negative new logo." df) as H3.
  pose proof (raise_if_any_ok (fun r => negative (Delta_Cross_Sell r))
                "Customers in the dataset have negative cross-sell." df) as H4.
  pose proof (raise_if_any_ok (fun r => negative (Delta_Upsell r))
                "Customers in the dataset have negative upsell." df) as H5.
  pose proof (raise_if_any_ok (fun r => positive (Delta_Downsell r))
                "Customers in the dataset have positive downsell." df) as H6.
  assert (Hsplit : Forall signs_ok df
            <-> Forall (fun r => positive (Delta_Churn r) = false) df
                /\ Forall (fun r => positive (Delta_Downgrade r) = false) df
                /\ Forall (fun r => negative (Delta_New_Customer r) = false) df
                /\ Forall (fun r => negative (Delta_Cross_Sell r) = false) df
                /\ Forall (fun r => negative (Delta_Upsell r) = false) df
                /\ Forall (fun r => positive (Delta_Downsell r) = false) df).
  { rewrite !Forall_forall. unfold signs_ok. split.
    - intros H. split_and!; intros r Hr; apply (H r Hr).
    - intros (A1 & A2 & A3 & A4 & A5 & A6) r Hr. split_and!; auto. }
  rewrite Hsplit, <- H1, <- H2, <- H3, <- H4, <- H5, <- H6.
  unfold directionality_checks, check_no_positive_churn,
    check_no_negative_new_logo, check_upsell_downsell_direction.
  destruct (raise_if_any_cases (fun r => positive (Delta_Churn r))
              "Customers in the dataset have positive churn" df) as [-> | ->];
  destruct (raise_if_any_cases (fun r => positive (Delta_Downgrade r))
              "Customers in the dataset have positive product churn" df) as [-> | ->];
  destruct (raise_if_any_cases (fun r => negative (Delta_New_Customer r))
              "Customers in the dataset have negative new logo." df) as [-> | ->];
  destruct (raise_if_any_cases (fun r => negative (Delta_Cross_Sell r))
              "Customers in the dataset have negative cross-sell." df) as [-> | ->];
  destruct (raise_if_any_cases (fun r => negative (Delta_Upsell r))
              "Customers in the dataset have negative upsell." df) as [-> | ->];
  destruct (raise_if_any_cases (fun r => positive (Delta_Downsell r))
              "Customers in the dataset have positive downsell." df) as [-> | ->];
  simpl; split; try done; intros (A1 & A2 & A3 & A4 & A5 & A6); done.
Qed.

Lemma existsb_none {A : Type} (f : A -> bool) (l : list A) :
  (forall x, x ∈ l -> f x = false) -> existsb f l = false.
Proof.
  induction l as [|x l IH]; simpl; [done |].
  intros H. rewrite (H x) by (by left). simpl. apply IH.
  intros y Hy. apply H. by right.
Qed.

(** X11: whatever the data and the policy, the flat table the pipeline
    produces passes [check_upsell_downsell_direction]: no row has a
    negative upsell or a positive downsell amount, and on a row flagged
    upsell or downsell the other four amounts (new customer, churn,
    cross-sell, downgrade) are zero. *)
Theorem upsell_direction_check_passes (con : constants)
    (data : list revenue_row) (rows : list row) :
  customer_revenue_bridge con data = Ok rows ->
  check_upsell_downsell_direction rows = Ok tt
  /\ Forall (fun r => negative (Delta_Upsell r) = false
                      /\ positive (Delta_Downsell r) = false) rows
  /\ Forall (fun r =>
       upsell_flag (flag r) = Some 1 \/ downsell_flag (flag r) = Some 1 ->
       zero_amount (Delta_New_Customer r) /\ zero_amount (Delta_Churn r)
       /\ zero_amount (Delta_Cross_Sell r) /\ zero_amount (Delta_Downgrade r))
       rows.
Proof.
  intros Hrun.
  assert (Hothers : Forall (fun r =>
       upsell_flag (flag r) = Some 1 \/ downsell_flag (flag r) = Some 1 ->
       zero_amount (Delta_New_Customer r) /\ zero_amount (Delta_Churn r)
       /\ zero_amount (Delta_Cross_Sell r) /\ zero_amount (Delta_Downgrade r))
       rows).
  { apply Forall_forall. intros r Hin.
    destruct (bridge_rows_classified con data rows r Hrun Hin) as (r0 & Hr0 & ->).
    destruct (classify_row_exclusive con r0 Hr0) as [_ (Hup & _ & _)].
    change (flag (create_arr_deltas (classify_row con r0)))
      with (flag (classify_row con r0)).
    intros Hflag. destruct (Hup Hflag) as (H1 & H2 & H3 & H4).
    unfold Delta_New_Customer, Delta_Churn, Delta_Cross_Sell, Delta_Downgrade,
      create_arr_deltas, zero_amount. cbv zeta.
    cbn [delta with_deltas new_customer_delta customer_churn_delta
         cross_sell_delta product_churn_delta].
    rewrite H1, H2, H3, H4. unfold flag_times. cbn [fmap option_fmap option_map].
    split_and!; eexists; (split; [reflexivity | ring]). }
  assert (Hrows : forall r, r ∈ rows ->
            negative (Delta_Upsell r) = false
            /\ positive (Delta_Downsell r) = false).
  { intros r Hin.
    destruct (bridge_rows_classified con data rows r Hrun Hin) as (r0 & Hr0 & ->).
    unfold unclassified in Hr0.
    destruct (churn_step_flags con r0) as (_ & _ & K1 & K2 & K3 & K4).
    rewrite Hr0 in K1, K2, K3, K4. simpl in K1, K2, K3, K4.
    destruct (cross_sell_step_flags con (crb_add_churn_flags con r0) K1 K2)
      as (_ & _ & C3 & C4 & _).
    rewrite K3 in C3. rewrite K4 in C4.
    exact (upsell_downsell_signs con _ C3 C4). }
  split; [| split; [apply Forall_forall; exact Hrows | exact Hothers]].
  unfold check_upsell_downsell_direction, raise_if_any.
  rewrite !existsb_none; [done | |]; intros r Hin; apply (Hrows r Hin).
Qed.

Lemma upsell_direction_check_passes_witness :
  exists rows,
    customer_revenue_bridge (mkConstants YTD 0 1)
      (monthly 7 1 1 (mkDate 2020 1 1) [100%Q; 50%Q; 50%Q]) = Ok rows
    /\ check_upsell_downsell_direction rows = Ok tt.
Proof.
  destruct (customer_revenue_bridge (mkConstants YTD 0 1)
              (monthly 7 1 1 (mkDate 2020 1 1) [100%Q; 50%Q; 50%Q]))
    as [rows | e] eqn:E.
  - exists rows. split; [reflexivity |].
    exact (proj1 (upsell_direction_check_passes _ _ rows E)).
  - vm_compute in E. discriminate E.
Defined.

End DirectionChecks.

Section SortValues.

Ltac bools_to_props :=
  unfold row_leb, date_leb, date_ltb in *;
  rewrite ?orb_true_iff, ?andb_true_iff, ?negb_true_iff, ?orb_false_iff,
    ?andb_false_iff, ?Z.ltb_lt, ?Z.eqb_eq, ?Z.ltb_ge, ?Z.eqb_neq in *.

Lemma row_leb_total (a b : row) : row_leb a b = true \/ row_leb b a = true.
Proof. bools_to_props. lia. Qed.

Lemma row_leb_trans (a b c : row) :
  row_leb a b = true -> row_leb b c = true -> row_leb a c = true.
Proof. intros H1 H2. bools_to_props. lia. Qed.

Lemma insert_sorted_perm (r : row) (l : list row) : insert_sorted r l ≡ₚ r :: l.
Proof.
  induction l as [|x l IH]; simpl; [done |].
  destruct (row_leb r x); [done |].
  rewrite IH. apply Permutation_swap.
Qed.

Lemma insert_sorted_sorted (r : row) (l : list row) :
  StronglySorted (fun a b => row_leb a b = true) l ->
  StronglySorted (fun a b => row_leb a b = true) (insert_sorted r l).
Proof.
  induction 1 as [|x l Hs IH Hx]; simpl.
  - repeat constructor.
  - destruct (row_leb r x) eqn:E.
    + constructor; [by constructor |].
      constructor; [exact E |].
      eapply Forall_impl; [exact Hx |]. intros y Hy.
      exact (row_leb_trans r x y E Hy).
    + constructor; [exact IH |].
      assert (Hxr : row_leb x r = true)
        by (destruct (row_leb_total r x); congruence).
      eapply Permutation_Forall; [symmetry; apply insert_sorted_perm |].
      constructor; [exact Hxr | exact Hx].
Qed.

Lemma sort_values_perm (df : list row) : sort_values df ≡ₚ df.
Proof.
  unfold sort_values. induction df as [|r df IH]; simpl; [done |].
  rewrite insert_sorted_perm, IH. done.
Qed.

(** X12: [sort_values] returns the same rows, ordered by primary key and,
    within a key, by month: every row is below or equal to every later
    row. *)
Theorem sort_values_sorted_permutation (df : list row) :
  sort_values df ≡ₚ df
  /\ StronglySorted (fun a b => row_leb a b = true) (sort_values df)
  /\ length (sort_values df) = length df.
Proof.
  pose proof (sort_values_perm df) as Hperm.
  split; [exact Hperm |]. split; [| by rewrite Hperm].
  clear Hperm. unfold sort_values.
  induction df as [|r df IH]; simpl; [constructor |].
  apply insert_sorted_sorted, IH.
Qed.

End SortValues.

Section Lifespans.

Ltac dates_to_props :=
  unfold dt_leb, dt_ltb, date_leb, date_ltb in *;
  rewrite ?orb_true_iff, ?andb_true_iff, ?negb_true_iff, ?orb_false_iff,
    ?andb_false_iff, ?Z.ltb_lt, ?Z.eqb_eq, ?Z.ltb_ge, ?Z.eqb_neq in *.

Lemma date_leb_refl (a : date) : date_leb a a = true.
Proof. dates_to_props. lia. Qed.

Lemma date_leb_trans (a b c : date) :
  date_leb a b = true -> date_leb b c = true -> date_leb a c = true.
Proof. intros H1 H2. dates_to_props. lia. Qed.

Lemma date_ltb_leb (a b : date) : date_ltb a b = true -> date_leb a b = true.
Proof. intros H. dates_to_props. lia. Qed.

Lemma date_leb_ltb_trans (a b c : date) :
  date_leb a b = true -> date_ltb b c = true -> date_ltb a c = true.
Proof. intros H1 H2. dates_to_props. lia. Qed.

Lemma date_not_ltb_leb (a b : date) : date_ltb a b = false -> date_leb b a = true.
Proof. intros H. unfold date_leb. rewrite H. reflexivity. Qed.

Lemma min_date_spec (l : list date) (s : date) :
  min_date l = Some s -> s ∈ l /\ Forall (fun x => date_leb s x = true) l.
Proof.
  revert s. induction l as [|d l IH]; simpl; intros s; [done |].
  destruct (min_date l) as [a|] eqn:E.
  - destruct (IH a eq_refl) as [Hin Hall].
    destruct (date_ltb d a) eqn:Hlt; intros [= <-].
    + split; [by left |]. constructor; [apply date_leb_refl |].
      eapply Forall_impl; [exact Hall |]. intros x Hx.
      exact (date_leb_trans d a x (date_ltb_leb d a Hlt) Hx).
    + split; [by right |]. constructor; [| exact Hall].
      by apply date_not_ltb_leb.
  - intros [= <-]. destruct l as [|x l]; [| simpl in E; destruct (min_date l); done].
    split; [by left |]. constructor; [apply date_leb_refl | constructor].
Qed.

Lemma max_date_spec (l : list date) (e : date) :
  max_date l = Some e -> e ∈ l /\ Forall (fun x => date_leb x e = true) l.
Proof.
  revert e. induction l as [|d l IH]; simpl; intros e; [done |].
  destruct (max_date l) as [a|] eqn:E.
  - destruct (IH a eq_refl) as [Hin Hall].
    destruct (date_ltb a d) eqn:Hlt; intros [= <-].
    + split; [by left |]. constructor; [apply date_leb_refl |].
      eapply Forall_impl; [exact Hall |]. intros x Hx.
      exact (date_leb_trans x a d Hx (date_ltb_leb a d Hlt)).
    + split; [by right |]. constructor; [| exact Hall].
      by apply date_not_ltb_leb.
  - intros [= <-]. destruct l as [|x l]; [| simpl in E; destruct (max_date l); done].
    split; [by left |]. constructor; [apply date_leb_refl | constructor].
Qed.

Lemma min_date_is_Some (l : list date) (x : date) :
  x ∈ l -> exists s, min_date l = Some s.
Proof.
  destruct l as [|d l]; [intros H; by apply not_elem_of_nil in H |].
  intros _. simpl. destruct (min_date l); eauto.
Qed.

Lemma max_date_is_Some (l : list date) (x : date) :
  x ∈ l -> exists e, max_date l = Some e.
Proof.
  destruct l as [|d l]; [intros H; by apply not_elem_of_nil in H |].
  intros _. simpl. destruct (max_date l); eauto.
Qed.

Lemma min_max_date_same (l : list date) :
  min_date l = None <-> max_date l = None.
Proof.
  destruct l as [|d l]; simpl; [done |].
  destruct (min_date l), (max_date l); done.
Qed.

(** X13: the lifespan columns come all together or not at all; when they
    are there, at each of the three levels the start is not after the end,
    each churn date is the end date plus one month, and the product's
    lifetime lies within the customer's. *)
Theorem lifespan_invariants (df : list revenue_row) (v : revenue_row) :
  lifespan_of df v = mkLifespan None None None None None None None None
  \/ exists ss se ps pe cs ce,
       lifespan_of df v
       = mkLifespan (Some ss) (Some se) (Some ps) (Some pe)
           (Some (add_months pe 1)) (Some cs) (Some ce)
           (Some (add_months ce 1))
       /\ date_leb ss se = true /\ date_leb ps pe = true
       /\ date_leb cs ce = true
       /\ date_leb cs ps = true /\ date_leb pe ce = true.
Proof.
  unfold lifespan_of.
  set (corrected := List.filter _ (rev_corrections _)).
  set (segment := month <$> _).
  set (product := pm_month <$> List.filter _ corrected).
  set (customer := pm_month <$> List.filter _ corrected).
  assert (Hsub : forall x, x ∈ product -> x ∈ customer).
  { intros x (e & -> & [Hin Hf]%list_elem_of_In%filter_In)%list_elem_of_fmap.
    apply list_elem_of_fmap. exists e. split; [done |].
    apply list_elem_of_In, filter_In. split; [exact Hin |].
    apply andb_true_iff in Hf as [Hf _]. exact Hf. }
  destruct (min_date product) as [ps|] eqn:Eps; [| by left].
  destruct (min_date segment) as [ss|] eqn:Ess; [| by left].
  right.
  destruct (min_date_spec _ _ Eps) as [Hps_in Hps].
  destruct (min_date_spec _ _ Ess) as [Hss_in Hss].
  destruct (max_date_is_Some _ _ Hps_in) as (pe & Epe).
  destruct (max_date_is_Some _ _ Hss_in) as (se & Ese).
  destruct (min_date_is_Some _ _ (Hsub _ Hps_in)) as (cs & Ecs).
  destruct (max_date_is_Some _ _ (Hsub _ Hps_in)) as (ce & Ece).
  destruct (max_date_spec _ _ Epe) as [Hpe_in Hpe].
  destruct (max_date_spec _ _ Ese) as [Hse_in Hse].
  destruct (min_date_spec _ _ Ecs) as [Hcs_in Hcs].
  destruct (max_date_spec _ _ Ece) as [Hce_in Hce].
  exists ss, se, ps, pe, cs, ce. rewrite Epe, Ese, Ecs, Ece. simpl.
  rewrite !Forall_forall in *.
  split_and!; [reflexivity | | | | |]; auto.
Qed.

End Lifespans.

Section ActiveRows.

Ltac order_to_props :=
  unfold dt_leb, dt_ltb, date_leb, date_ltb in *;
  rewrite ?orb_true_iff, ?andb_true_iff, ?negb_true_iff, ?orb_false_iff,
    ?andb_false_iff, ?Z.ltb_lt, ?Z.eqb_eq, ?Z.ltb_ge, ?Z.eqb_neq in *.

Lemma Qnonzero_iff (q : Q) : Qnonzero q = true <-> ~ (q == 0)%Q.
Proof.
  unfold Qnonzero. rewrite negb_true_iff, <- not_true_iff_false, Qeq_bool_iff.
  reflexivity.
Qed.

Lemma Qsum_nonneg (l : list Q) :
  Forall (fun q => (0 <= q)%Q) l -> (0 <= Qsum l)%Q.
Proof.
  induction 1 as [|q l Hq _ IH]; simpl; [apply Qle_refl |].
  replace 0%Q with (0 + 0)%Q by reflexivity. by apply Qplus_le_compat.
Qed.

Lemma Qsum_positive (l : list Q) (x : Q) :
  Forall (fun q => (0 <= q)%Q) l -> x ∈ l -> (0 < x)%Q -> (0 < Qsum l)%Q.
Proof.
  induction 1 as [|q l Hq Hl IH]; [intros H; by apply not_elem_of_nil in H |].
  intros [Heq | Hin]%elem_of_cons Hx; simpl.
  - subst x. apply Qlt_le_trans with (q + 0)%Q; [by rewrite Qplus_0_r |].
    apply Qplus_le_compat; [apply Qle_refl | by apply Qsum_nonneg].
  - apply Qlt_le_trans with (0 + Qsum l)%Q; [rewrite Qplus_0_l; by apply IH |].
    apply Qplus_le_compat; [exact Hq | apply Qle_refl].
Qed.

(** A non-negative table has an entry in the corrected product table for
    every month with a non-zero row. *)
Lemma active_month_in_corrections (df : list revenue_row) (v : revenue_row) :
  non_negative_arr df -> v ∈ df -> Qnonzero (arr v) = true ->
  exists e,
    e ∈ List.filter (fun e => Qnonzero (pm_arr e))
          (rev_corrections (List.filter (fun w => Qnonzero (arr w)) df))
    /\ pm_customer e = customer_id v /\ pm_product e = product_id v
    /\ pm_month e = month v.
Proof.
  intros Hnn Hin Hnz. set (nz := List.filter _ df).
  assert (Hv : v ∈ nz) by (apply list_elem_of_In, filter_In; split;
                            [by apply list_elem_of_In | exact Hnz]).
  set (k := (customer_id v, product_id v, month v)).
  set (group := List.filter (fun w => bool_decide
                 ((customer_id w, product_id w, month w) = k)) nz).
  exists (mkProductMonth (customer_id v) (product_id v) (month v)
            (Qsum (arr <$> group))).
  split; [| done].
  apply list_elem_of_In, filter_In. split.
  - apply list_elem_of_In. unfold rev_corrections.
    apply list_elem_of_fmap. exists k. split; [reflexivity |].
    apply elem_of_remove_dups, list_elem_of_fmap. exists v. done.
  - simpl. apply Qnonzero_iff. intros Hzero.
    assert (Hpos : (0 < Qsum (arr <$> group))%Q).
    { apply (Qsum_positive _ (arr v)).
      - apply Forall_forall.
        intros q (w & -> & [Hw _]%list_elem_of_In%filter_In)%list_elem_of_fmap.
        apply filter_In in Hw as [Hw _].
        unfold non_negative_arr in Hnn. rewrite Forall_forall in Hnn.
        apply Hnn. by apply list_elem_of_In.
      - apply list_elem_of_fmap. exists v. split; [done |].
        apply list_elem_of_In, filter_In. split; [by apply list_elem_of_In |].
        by apply bool_decide_eq_true.
      - unfold non_negative_arr in Hnn. rewrite Forall_forall in Hnn.
        specialize (Hnn v Hin). apply Qnonzero_iff in Hnz.
        apply Qle_lteq in Hnn as [Hlt | Heq]; [exact Hlt |].
        exfalso. apply Hnz. symmetry. exact Heq. }
    rewrite Hzero in Hpos. exact (Qlt_irrefl _ Hpos).
Qed.

Lemma active_row_lifespan_bounds (df : list revenue_row) (v : revenue_row) :
  non_negative_arr df -> v ∈ df -> Qnonzero (arr v) = true ->
  exists ss se ps pe cs ce,
    lifespan_of df v
    = mkLifespan (Some ss) (Some se) (Some ps) (Some pe)
        (Some (add_months pe 1)) (Some cs) (Some ce) (Some (add_months ce 1))
    /\ date_leb ss (month v) = true /\ date_leb (month v) se = true
    /\ date_leb ps (month v) = true /\ date_leb (month v) pe = true
    /\ date_leb cs (month v) = true /\ date_leb (month v) ce = true
    /\ (exists w, w ∈ df /\ month w = se).
Proof.
  intros Hnn Hin Hnz.
  destruct (active_month_in_corrections df v Hnn Hin Hnz)
    as (e & He & Hc & Hp & Hm).
  unfold lifespan_of.
  set (nz := List.filter (fun w => Qnonzero (arr w)) df) in *.
  set (corrected := List.filter _ (rev_corrections nz)) in *.
  set (segment := month <$> List.filter _ nz).
  set (product := pm_month <$> List.filter
         (fun e => (pm_customer e =? customer_id v) && (pm_product e =? product_id v))
         corrected).
  set (customer := pm_month <$> List.filter
         (fun e => pm_customer e =? customer_id v) corrected).
  assert (Hseg : month v ∈ segment).
  { apply list_elem_of_fmap. exists v. split; [done |].
    apply list_elem_of_In, filter_In. split.
    - apply filter_In. split; [by apply list_elem_of_In | exact Hnz].
    - by apply bool_decide_eq_true. }
  assert (Hprod : month v ∈ product).
  { apply list_elem_of_fmap. exists e. split; [done |].
    apply list_elem_of_In, filter_In. split; [by apply list_elem_of_In |].
    rewrite Hc, Hp, !Z.eqb_refl. done. }
  assert (Hcust : month v ∈ customer).
  { apply list_elem_of_fmap. exists e. split; [done |].
    apply list_elem_of_In, filter_In. split; [by apply list_elem_of_In |].
    rewrite Hc, Z.eqb_refl. done. }
  destruct (min_date_is_Some _ _ Hseg) as (ss & Ess).
  destruct (max_date_is_Some _ _ Hseg) as (se & Ese).
  destruct (min_date_is_Some _ _ Hprod) as (ps & Eps).
  destruct (max_date_is_Some _ _ Hprod) as (pe & Epe).
  destruct (min_date_is_Some _ _ Hcust) as (cs & Ecs).
  destruct (max_date_is_Some _ _ Hcust) as (ce & Ece).
  rewrite Ess, Ese, Eps, Epe, Ecs, Ece. simpl.
  exists ss, se, ps, pe, cs, ce.
  destruct (min_date_spec _ _ Ess) as [_ A1].
  destruct (max_date_spec _ _ Ese) as [B0 A2].
  destruct (min_date_spec _ _ Eps) as [_ A3].
  destruct (max_date_spec _ _ Epe) as [_ A4].
  destruct (min_date_spec _ _ Ecs) as [_ A5].
  destruct (max_date_spec _ _ Ece) as [_ A6].
  rewrite Forall_forall in A1, A2, A3, A4, A5, A6.
  split_and!; [reflexivity | | | | | | |]; auto.
  apply list_elem_of_fmap in B0 as (w & -> & [Hw _]%list_elem_of_In%filter_In).
  apply filter_In in Hw as [Hw _]. exists w. split; [by apply list_elem_of_In | done].
Qed.

(** X14: with non-negative ARR, every row with non-zero ARR gets a
    lifespan record, and its month lies between the start and the end of
    its segment, of its product and of its customer. *)
Theorem active_row_within_lifespan (df : list revenue_row) (v : revenue_row) :
  non_negative_arr df -> v ∈ df -> Qnonzero (arr v) = true ->
  exists ss se ps pe cs ce,
    lifespan_of df v
    = mkLifespan (Some ss) (Some se) (Some ps) (Some pe)
        (Some (add_months pe 1)) (Some cs) (Some ce) (Some (add_months ce 1))
    /\ date_leb ss (month v) = true /\ date_leb (month v) se = true
    /\ date_leb ps (month v) = true /\ date_leb (month v) pe = true
    /\ date_leb cs (month v) = true /\ date_leb (month v) ce = true.
Proof.
  intros Hnn Hin Hnz.
  destruct (active_row_lifespan_bounds df v Hnn Hin Hnz)
    as (ss & se & ps & pe & cs & ce & Hl & H1 & H2 & H3 & H4 & H5 & H6 & _).
  exists ss, se, ps, pe, cs, ce. split_and!; assumption.
Qed.

Lemma active_row_within_lifespan_witness :
  exists ss se ps pe cs ce,
    lifespan_of (monthly 7 1 1 (mkDate 2020 1 1) [100%Q; 0%Q; 50%Q])
      (mkRevenue 7 1 1 (mkDate 2020 3 1) 50)
    = mkLifespan (Some ss) (Some se) (Some ps) (Some pe)
        (Some (add_months pe 1)) (Some cs) (Some ce) (Some (add_months ce 1))
    /\ date_leb ss (mkDate 2020 3 1) = true.
Proof.
  destruct (active_row_within_lifespan
              (monthly 7 1 1 (mkDate 2020 1 1) [100%Q; 0%Q; 50%Q])
              (mkRevenue 7 1 1 (mkDate 2020 3 1) 50))
    as (ss & se & ps & pe & cs & ce & Hl & Hs & _).
  - unfold non_negative_arr. repeat constructor; done.
  - right. right. left.
  - reflexivity.
  - exists ss, se, ps, pe, cs, ce. split; [exact Hl | exact Hs].
Defined.

End ActiveRows.

Section TrimDataset.

Ltac order_props :=
  unfold dt_leb, dt_ltb, date_leb, date_ltb in *;
  rewrite ?orb_true_iff, ?andb_true_iff, ?negb_true_iff, ?orb_false_iff,
    ?andb_false_iff, ?Z.ltb_lt, ?Z.eqb_eq, ?Z.ltb_ge, ?Z.eqb_neq in *.

Lemma days_in_month_positive (y m : Z) : 28 <= days_in_month y m.
Proof.
  unfold days_in_month.
  destruct (m =? 2); [destruct (is_leap y); lia |].
  destruct ((m =? 4) || (m =? 6) || (m =? 9) || (m =? 11)); lia.
Qed.

Lemma add_months_not_before (d : date) (N : Z) :
  valid_month d -> day d = 1 -> 0 <= N -> date_leb d (add_months d N) = true.
Proof.
  intros Hm Hd HN. unfold valid_month in Hm. unfold add_months.
  set (idx := year d * 12 + (month_of d - 1) + N).
  pose proof (Z.div_mod idx 12 ltac:(lia)) as Hdm.
  pose proof (Z.mod_pos_bound idx 12 ltac:(lia)) as Hr.
  pose proof (days_in_month_positive (idx / 12) (idx mod 12 + 1)) as Hdim.
  order_props. simpl. rewrite Hd.
  replace (Z.min 1 (days_in_month (idx / 12) (idx mod 12 + 1))) with 1 by lia.
  subst idx. lia.
Qed.

Lemma next_period_strictly_after (con : constants) (s : scratch) (d : date) :
  valid_month d -> crb con = YTD \/ crb con = FYTD \/ crb con = QTD ->
  exists p,
    snd (calculate_start_of_next_period con s (Some d)) = Some p
    /\ date_ltb d p = true.
Proof.
  intros Hm Hc. unfold valid_month in Hm.
  assert (Hy : crb con = YTD \/ crb con = FYTD ->
               exists p, snd (calculate_start_of_next_period con s (Some d)) = Some p
                         /\ date_ltb d p = true).
  { intros Hc'. rewrite (next_year_start con s d Hc').
    eexists. split; [reflexivity |].
    destruct (Z.ltb_spec (month_of d) (effective_fy con));
      order_props; simpl; lia. }
  destruct Hc as [Hc | [Hc | Hc]]; [apply Hy; auto | apply Hy; auto |].
  destruct con as [c N fy]. simpl in Hc. subst c.
  rewrite qtd_next_quarter_start by exact Hm.
  eexists. split; [reflexivity |].
  unfold following_quarter_start.
  pose proof (Z.mod_pos_bound (month_of d - 1) 3 ltac:(lia)) as Hr.
  destruct (Z.gtb_spec (month_of d + (3 - (month_of d - 1) mod 3)) 12);
    order_props; simpl; lia.
Qed.

Lemma trim_keeps_active (con : constants) (df : list revenue_row)
    (v : revenue_row) :
  (crb con = number_of_months /\ 0 <= month_period con)
  \/ crb con = YTD \/ crb con = FYTD \/ crb con = QTD ->
  non_negative_arr df ->
  Forall (fun w => valid_month (month w) /\ day (month w) = 1) df ->
  v ∈ df -> Qnonzero (arr v) = true ->
  exists r,
    r ∈ trim_dataset con (calculate_segment_start_end_dates df)
    /\ revenue r = v /\ life r = lifespan_of df v.
Proof.
  intros Hc Hnn Hdates Hin Hnz.
  destruct (active_row_lifespan_bounds df v Hnn Hin Hnz)
    as (ss & se & ps & pe & cs & ce & Hl & Hs & He & _ & _ & _ & _ & w & Hw & Hwe).
  rewrite Forall_forall in Hdates.
  destruct (Hdates w Hw) as [Vse Dse]. rewrite Hwe in Vse, Dse.
  assert (Hrow : initial_row v (lifespan_of df v)
                 ∈ calculate_segment_start_end_dates df).
  { apply list_elem_of_fmap. exists v. done. }
  unfold trim_dataset. destruct (crb_number_months con) eqn:Estatic.
  - exists (initial_row v (lifespan_of df v)). split; [| done].
    apply list_elem_of_In, filter_In. split; [by apply list_elem_of_In |].
    simpl. rewrite Hl. simpl. rewrite Hs. simpl.
    destruct Hc as [[_ HN] | Hc];
      [| apply crb_number_months_iff in Estatic;
         destruct Hc as [Hc | [Hc | Hc]]; congruence].
    exact (date_leb_trans _ _ _ He (add_months_not_before se _ Vse Dse HN)).
  - assert (Hcal : crb con = YTD \/ crb con = FYTD \/ crb con = QTD).
    { destruct Hc as [[Hc _] | Hc]; [| exact Hc].
      apply crb_number_months_iff in Hc. congruence. }
    destruct (next_period_strictly_after con fresh se Vse Hcal) as (p & Hp & Hlt).
    exists (with_work (fst (calculate_start_of_next_period con fresh (Some se)))
              (initial_row v (lifespan_of df v))).
    split; [| done].
    apply list_elem_of_fmap.
    exists (with_work (fst (calculate_start_of_next_period con fresh (Some se)))
              (initial_row v (lifespan_of df v)), Some p).
    split; [done |].
    apply list_elem_of_In, filter_In. split.
    + apply list_elem_of_In, list_elem_of_fmap.
      exists (initial_row v (lifespan_of df v)). split; [| exact Hrow].
      simpl. rewrite Hl. simpl.
      destruct (calculate_start_of_next_period con fresh (Some se)) as [s' p'].
      simpl in Hp. subst p'. reflexivity.
    + simpl. rewrite Hl. simpl. rewrite Hs. simpl.
      exact (date_leb_ltb_trans _ _ _ He Hlt).
Qed.

(** X15: with non-negative ARR and first-of-month dates, [trim_dataset]
    never drops a row with non-zero ARR: under the fixed-N policy with
    [month_period >= 0], under YTD, FYTD and QTD, the row is kept with its
    lifespan columns. *)
Theorem trim_keeps_active_rows (con : constants) (df : list revenue_row)
    (v : revenue_row) :
  (crb con = number_of_months /\ 0 <= month_period con)
  \/ crb con = YTD \/ crb con = FYTD \/ crb con = QTD ->
  non_negative_arr df ->
  Forall (fun w => valid_month (month w) /\ day (month w) = 1) df ->
  v ∈ df -> Qnonzero (arr v) = true ->
  exists r,
    r ∈ trim_dataset con (calculate_segment_start_end_dates df)
    /\ revenue r = v /\ life r = lifespan_of df v.
Proof.
  exact (trim_keeps_active con df v).
Qed.

Lemma trim_keeps_active_rows_witness :
  exists r,
    r ∈ trim_dataset (mkConstants QTD 0 1)
          (calculate_segment_start_end_dates
             (monthly 7 1 1 (mkDate 2020 1 1) [100%Q; 0%Q; 50%Q]))
    /\ revenue r = mkRevenue 7 1 1 (mkDate 2020 3 1) 50.
Proof.
  destruct (trim_keeps_active_rows (mkConstants QTD 0 1)
              (monthly 7 1 1 (mkDate 2020 1 1) [100%Q; 0%Q; 50%Q])
              (mkRevenue 7 1 1 (mkDate 2020 3 1) 50))
    as (r & Hr & Hrev & _).
  - right. right. right. reflexivity.
  - unfold non_negative_arr. repeat constructor; done.
  - unfold monthly. cbn [imap].
    repeat (apply Forall_cons_2;
              [split; [unfold valid_month; vm_compute; split; discriminate
                      | reflexivity] |]).
    apply Forall_nil_2.
  - right. right. left.
  - reflexivity.
  - exists r. split; [exact Hr | exact Hrev].
Defined.

Lemma next_period_of_nat_fresh (N fy : Z) :
  snd (calculate_start_of_next_period (mkConstants FQTD N fy) fresh None) = None.
Proof. reflexivity. Qed.

(** X16: under FQTD, on the freshly merged table, [trim_dataset] keeps a
    row only if its segment has an end date whose month some pass of the
    quarter loop assigns; every row, active or not, of a segment that ends
    in a skipped month is dropped. *)
Theorem fqtd_trim_drops_skipped_segments (N fy : Z) (df : list revenue_row)
    (r : row) :
  1 <= fy <= 12 ->
  r ∈ trim_dataset (mkConstants FQTD N fy) (calculate_segment_start_end_dates df) ->
  exists e,
    segment_end_date (life r) = Some e
    /\ (valid_month e -> quarter_assigned fy (month_of e) = true).
Proof.
  intros Hfy. unfold trim_dataset.
  change (crb_number_months (mkConstants FQTD N fy)) with false. cbv iota.
  intros ([r' p] & -> & [Hin Hkeep]%list_elem_of_In%filter_In)%list_elem_of_fmap.
  apply list_elem_of_In, list_elem_of_fmap in Hin as (r0 & Heq & Hr0).
  apply list_elem_of_fmap in Hr0 as (v & -> & _).
  change (work (initial_row v (lifespan_of df v))) with fresh in Heq.
  change (life (initial_row v (lifespan_of df v)))
    with (lifespan_of df v) in Heq.
  apply andb_true_iff in Hkeep as [_ Hkeep]. cbn [fst snd] in Hkeep.
  destruct (segment_end_date (lifespan_of df v)) as [e|] eqn:Ee.
  - pose proof (next_quarter_start_when_skipped N fy fresh e Hfy) as Hskip.
    destruct (calculate_start_of_next_period (mkConstants FQTD N fy) fresh (Some e))
      as [s' p'] eqn:Ecall.
    injection Heq as Hr Hp. subst r' p.
    exists e. split; [exact Ee |].
    intros Ve. destruct (quarter_assigned fy (month_of e)) eqn:Ea; [done |].
    specialize (Hskip Ve eq_refl). cbn [snd] in Hskip. subst p'.
    discriminate Hkeep.
  - pose proof (next_period_of_nat_fresh N fy) as Hnone.
    destruct (calculate_start_of_next_period (mkConstants FQTD N fy) fresh None)
      as [s' p'].
    injection Heq as Hr Hp. subst r' p. cbn [snd] in Hnone. subst p'.
    discriminate Hkeep.
Qed.

Lemma fqtd_trim_drops_skipped_segments_witness :
  match trim_dataset (mkConstants FQTD 0 2)
          (calculate_segment_start_end_dates
             (monthly 7 1 1 (mkDate 2020 4 1) [100%Q; 50%Q; 50%Q])) with
  | r :: _ => exists e, segment_end_date (life r) = Some e
                        /\ (valid_month e -> quarter_assigned 2 (month_of e) = true)
  | [] => False
  end.
Proof.
  destruct (trim_dataset (mkConstants FQTD 0 2)
              (calculate_segment_start_end_dates
                 (monthly 7 1 1 (mkDate 2020 4 1) [100%Q; 50%Q; 50%Q])))
    as [|r l] eqn:E.
  - vm_compute in E. discriminate E.
  - apply (fqtd_trim_drops_skipped_segments 0 2
             (monthly 7 1 1 (mkDate 2020 4 1) [100%Q; 50%Q; 50%Q]) r);
      [lia | rewrite E; by left].
Defined.

End TrimDataset.

Section FillMonths.

(** The keys and months a table has a row for. *)
Lemma fill_shape (df : list revenue_row) :
  exists missing,
    fill_month_completeness df = df ++ missing
    /\ Forall (fun g => arr g = 0%Q
                 /\ forall v, v ∈ df ->
                      ~ (segment_key v = segment_key g /\ month v = month g))
         missing.
Proof.
  unfold fill_month_completeness.
  destruct (min_date (month <$> df)) as [month_min|];
    [| exists []; split; [by rewrite app_nil_r | constructor]].
  destruct (max_date (month <$> df)) as [last|];
    [| exists []; split; [by rewrite app_nil_r | constructor]].
  eexists. split; [reflexivity |].
  apply Forall_forall. intros g [Hin Hf]%list_elem_of_In%filter_In.
  split.
  - apply list_elem_of_In, list_elem_of_bind in Hin as (k & Hg & _).
    apply list_elem_of_fmap in Hg as (m & -> & _). reflexivity.
  - intros v Hv Heq. apply negb_true_iff in Hf.
    assert (existsb (fun v0 => bool_decide
              (segment_key v0 = segment_key g /\ month v0 = month g)) df = true).
    { apply existsb_exists. exists v. split; [by apply list_elem_of_In |].
      by apply bool_decide_eq_true. }
    congruence.
Qed.

Lemma Qsum_app (l1 l2 : list Q) : (Qsum (l1 ++ l2) == Qsum l1 + Qsum l2)%Q.
Proof.
  induction l1 as [|q l1 IH]; simpl; [by rewrite Qplus_0_l |].
  rewrite IH. apply Qplus_assoc.
Qed.

Lemma Qsum_zeros (l : list Q) : Forall (fun q => q = 0%Q) l -> (Qsum l == 0)%Q.
Proof.
  induction 1 as [|q l -> _ IH]; simpl; [reflexivity |].
  rewrite IH. reflexivity.
Qed.

(** X17: [fill_month_completeness] keeps the input rows in place and
    appends rows with [arr = 0] only, none of them for a key and month the
    input already has; the total ARR is unchanged; afterwards every key of
    the input has a row for every month of the spine, from the first month
    of the data to twelve months after the last. *)
Theorem fill_month_completeness_spec (df : list revenue_row) :
  df <> [] ->
  (exists missing,
     fill_month_completeness df = df ++ missing
     /\ Forall (fun g => arr g = 0%Q
                  /\ forall v, v ∈ df ->
                       ~ (segment_key v = segment_key g /\ month v = month g))
          missing)
  /\ (Qsum (arr <$> fill_month_completeness df) == Qsum (arr <$> df))%Q
  /\ (forall v first last m,
        v ∈ df ->
        min_date (month <$> df) = Some first ->
        max_date (month <$> df) = Some last ->
        m ∈ month_range first (add_months last 12) ->
        exists w, w ∈ fill_month_completeness df
                  /\ segment_key w = segment_key v /\ month w = m).
Proof.
  intros _.
  destruct (fill_shape df) as (missing & Hfill & Hmissing).
  split; [exists missing; done |]. split.
  - rewrite Hfill, fmap_app, Qsum_app.
    rewrite (Qsum_zeros (arr <$> missing)); [apply Qplus_0_r |].
    apply Forall_fmap. eapply Forall_impl; [exact Hmissing |].
    intros g [Hg _]. exact Hg.
  - intros v first last m Hv Hmin Hmax Hm.
    destruct (existsb (fun v0 => bool_decide
                (segment_key v0 = segment_key v /\ month v0 = m)) df) eqn:Ex.
    + apply existsb_exists in Ex as (w & Hw & Hk).
      apply bool_decide_eq_true in Hk as [Hk1 Hk2].
      exists w. split; [| done].
      rewrite Hfill. apply elem_of_app. left. by apply list_elem_of_In.
    + exists (mkRevenue (customer_id v) (product_id v) (primary_key v) m 0).
      split; [| done].
      unfold fill_month_completeness. rewrite Hmin, Hmax.
      apply elem_of_app. right.
      apply list_elem_of_In, filter_In. split.
      * apply list_elem_of_In, list_elem_of_bind. exists (segment_key v). split.
        -- apply list_elem_of_fmap. exists m. done.
        -- apply elem_of_remove_dups, list_elem_of_fmap. exists v. done.
      * apply negb_true_iff. exact Ex.
Qed.

Lemma fill_month_completeness_spec_witness :
  (Qsum (arr <$> fill_month_completeness
                   (monthly 7 1 1 (mkDate 2020 1 1) [100%Q; 50%Q]))
   == Qsum (arr <$> monthly 7 1 1 (mkDate 2020 1 1) [100%Q; 50%Q]))%Q.
Proof.
  refine (proj1 (proj2 (fill_month_completeness_spec
                          (monthly 7 1 1 (mkDate 2020 1 1) [100%Q; 50%Q]) _))).
  discriminate.
Defined.

End FillMonths.

Section FillMonthsUnique.

Lemma add_months_inj (d : date) (i j : Z) :
  valid_month d -> add_months d i = add_months d j -> i = j.
Proof.
  intros Hd Heq.
  rewrite <- (month_difference_add_months d i Hd),
    <- (month_difference_add_months d j Hd), Heq. reflexivity.
Qed.

Lemma month_range_NoDup (first last : date) :
  valid_month first -> NoDup (month_range first last).
Proof.
  intros Hd. unfold month_range.
  generalize (seqZ 0 (calculate_month_difference first last + 1)),
    (NoDup_seqZ 0 (calculate_month_difference first last + 1)).
  intros l Hl. induction Hl as [|i l Hi Hl IH]; simpl; [constructor |].
  constructor; [| exact IH].
  intros (j & Heq & Hj)%list_elem_of_fmap.
  apply add_months_inj in Heq; [| exact Hd]. subst j. done.
Qed.

Lemma pairs_NoDup {K M : Type} (ks : list K) (ms : list M) :
  NoDup ks -> NoDup ms -> NoDup (k ← ks; (fun m => (k, m)) <$> ms).
Proof.
  intros Hks Hms. induction Hks as [|k ks Hk Hks IH]; simpl; [constructor |].
  apply NoDup_app. split_and!.
  - apply NoDup_fmap_2; [| exact Hms]. intros m1 m2 [= ->]. reflexivity.
  - intros [k' m] (m' & [= -> ->] & _)%list_elem_of_fmap
      (k'' & (m'' & [= -> ->] & _)%list_elem_of_fmap & Hk'')%list_elem_of_bind.
    done.
  - exact IH.
Qed.

Lemma NoDup_fmap_filter {A B : Type} (f : A -> B) (P : A -> bool) (l : list A) :
  NoDup (f <$> l) -> NoDup (f <$> List.filter P l).
Proof.
  induction l as [|x l IH]; simpl; [done |].
  intros [Hx Hl]%NoDup_cons. destruct (P x); simpl; [| auto].
  apply NoDup_cons. split; [| auto].
  intros (y & Hy & [Hin _]%list_elem_of_In%filter_In)%list_elem_of_fmap.
  apply Hx, list_elem_of_fmap. exists y. split; [done | by apply list_elem_of_In].
Qed.

Lemma fill_key_month_NoDup (df : list revenue_row) :
  Forall (fun v => valid_month (month v)) df ->
  NoDup (key_month <$> df) ->
  NoDup (key_month <$> fill_month_completeness df).
Proof.
  intros Hvalid Hdf.
  destruct (fill_shape df) as (missing & Hfill & Hmissing).
  rewrite Hfill, fmap_app. apply NoDup_app. split_and!; [exact Hdf | |].
  - intros km (v & -> & Hv)%list_elem_of_fmap (g & Hkg & Hg)%list_elem_of_fmap.
    rewrite Forall_forall in Hmissing. destruct (Hmissing g Hg) as [_ Hnot].
    apply (Hnot v Hv). unfold key_month in Hkg.
    apply pair_equal_spec in Hkg as [H1 H2]. done.
  - assert (Hm : missing = drop (length df) (fill_month_completeness df))
      by (rewrite Hfill, drop_app_length; done).
    unfold fill_month_completeness in Hm.
    destruct (min_date (month <$> df)) as [first|] eqn:Emin;
      [| rewrite drop_all in Hm; subst; constructor].
    destruct (max_date (month <$> df)) as [last|] eqn:Emax;
      [| rewrite drop_all in Hm; subst; constructor].
    rewrite drop_app_length in Hm. subst missing.
    apply NoDup_fmap_filter.
    assert (Hfirst : valid_month first).
    { destruct (min_date_spec _ _ Emin) as [Hin _].
      apply list_elem_of_fmap in Hin as (v & -> & Hv).
      rewrite Forall_forall in Hvalid. exact (Hvalid v Hv). }
    set (spine := month_range first (add_months last 12)).
    set (keys := remove_dups (segment_key <$> df)).
    assert (Heq : key_month <$> (k ← keys;
                    (fun m => mkRevenue k.1.2 k.2 k.1.1 m 0) <$> spine)
                  = k ← keys; (fun m => (k, m)) <$> spine).
    { clear. induction keys as [|[[a b] c] ks IH]; [done |].
      rewrite !bind_cons, fmap_app, IH. f_equal.
      rewrite <- list_fmap_compose. reflexivity. }
    rewrite Heq. apply pairs_NoDup.
    + apply NoDup_remove_dups.
    + apply month_range_NoDup, Hfirst.
Qed.

(** X18: gap filling keeps keys unique: if no two input rows share
    segment key and month, no two rows of the filled table do. *)
Theorem fill_keeps_keys_unique (df : list revenue_row) :
  df <> [] ->
  Forall (fun v => valid_month (month v)) df ->
  NoDup (key_month <$> df) ->
  NoDup (key_month <$> fill_month_completeness df).
Proof.
  intros _. exact (fill_key_month_NoDup df).
Qed.

Lemma fill_keeps_keys_unique_witness :
  NoDup (key_month <$> fill_month_completeness
           (monthly 7 1 1 (mkDate 2020 1 1) [100%Q; 50%Q])).
Proof.
  apply fill_keeps_keys_unique.
  - discriminate.
  - unfold monthly. cbn [imap].
    repeat (apply Forall_cons_2;
              [unfold valid_month; vm_compute; split; discriminate |]).
    apply Forall_nil_2.
  - apply (@bool_decide_unpack _ (NoDup_dec _)). vm_compute. exact I.
Defined.

End FillMonthsUnique.

Section ArrChanges.

Lemma filter_lookup_position {A : Type} (f : A -> bool) (l : list A)
    (i : nat) (x : A) :
  l !! i = Some x -> f x = true ->
  List.filter f l !! length (List.filter f (take i l)) = Some x.
Proof.
  revert i. induction l as [|y l IH]; intros i; [done |].
  destruct i as [|i]; simpl.
  - intros [= ->] ->. reflexivity.
  - intros Hl Hx. destruct (f y); simpl; apply IH; done.
Qed.

(** X19: with [month_period = 0], a value the configuration check lets
    through, the fixed-N ARR-change step compares every row with itself:
    [arr_bop] is the row's own ARR and [arr_delta] is zero on every row. *)
Theorem zero_month_period_gives_zero_deltas (con : constants)
    (df df' : list row) :
  crb con = number_of_months -> month_period con = 0 ->
  calculate_arr_changes con df = Ok df' ->
  Forall (fun r => arr_bop r = arr (revenue r) /\ (arr_delta r == 0)%Q) df'.
Proof.
  intros Hc HN. unfold calculate_arr_changes.
  apply crb_number_months_iff in Hc. rewrite Hc, HN. intros [= <-].
  apply Forall_forall. intros r (i & r0 & -> & Hl)%elem_of_lookup_imap.
  assert (Hshift : shifted_arr 0 (sort_values df) i r0 = arr (revenue r0)).
  { unfold shifted_arr. rewrite Z.sub_0_r.
    destruct (Z.leb_spec 0 (Z.of_nat (length (List.filter
                (fun r' => primary_key (revenue r') =? primary_key (revenue r0))
                (take i (sort_values df)))))); [| lia].
    rewrite Nat2Z.id.
    rewrite (filter_lookup_position _ _ i r0 Hl); [reflexivity |].
    apply Z.eqb_refl. }
  rewrite Hshift. unfold with_arr_change. simpl. split; [reflexivity |].
  unfold Qminus. apply Qplus_opp_r.
Qed.

Lemma zero_month_period_gives_zero_deltas_witness :
  exists df',
    calculate_arr_changes (mkConstants number_of_months 0 1)
      (calculate_segment_start_end_dates
         (monthly 7 1 1 (mkDate 2020 1 1) [100%Q; 50%Q])) = Ok df'
    /\ Forall (fun r => (arr_delta r == 0)%Q) df'.
Proof.
  destruct (calculate_arr_changes (mkConstants number_of_months 0 1)
              (calculate_segment_start_end_dates
                 (monthly 7 1 1 (mkDate 2020 1 1) [100%Q; 50%Q])))
    as [df' | e] eqn:E.
  - exists df'. split; [reflexivity |].
    eapply Forall_impl;
      [exact (zero_month_period_gives_zero_deltas
                (mkConstants number_of_months 0 1) _ df' eq_refl eq_refl E) |].
    intros r [_ H]. exact H.
  - vm_compute in E. discriminate E.
Defined.

End ArrChanges.

Section ArrChangesRows.

Lemma partners_at_most_one (l : list row) (k : Z) (d : dt) :
  NoDup (row_key <$> l) ->
  (length (List.filter (fun r' =>
       ((primary_key (revenue r') =? k)%Z
        && bool_decide (Some (month (revenue r')) = d))%bool) l) <= 1)%nat.
Proof.
  induction l as [|x l IH]; simpl; [lia |].
  intros [Hx Hl]%NoDup_cons. specialize (IH Hl).
  destruct ((primary_key (revenue x) =? k)
            && bool_decide (Some (month (revenue x)) = d)) eqn:E; [| exact IH].
  apply andb_true_iff in E as [Ek Ed].
  apply Z.eqb_eq in Ek. apply bool_decide_eq_true in Ed.
  destruct (List.filter _ l) as [|y t] eqn:Ef; [simpl; lia |].
  exfalso. apply Hx.
  assert (Hy : In y (List.filter (fun r' =>
             (primary_key (revenue r') =? k)
             && bool_decide (Some (month (revenue r')) = d)) l))
    by (rewrite Ef; by left).
  apply filter_In in Hy as [Hy Hf].
  apply andb_true_iff in Hf as [Hk Hd].
  apply Z.eqb_eq in Hk. apply bool_decide_eq_true in Hd.
  apply list_elem_of_fmap. exists y. split; [| by apply list_elem_of_In].
  unfold row_key. rewrite Ek, Hk. f_equal. congruence.
Qed.

Lemma merge_bop_single (l : list row) (r : row) (d : dt) :
  NoDup (row_key <$> l) ->
  exists bop, merge_bop l r d = [with_arr_change bop r].
Proof.
  intros Hl. unfold merge_bop.
  pose proof (partners_at_most_one l (primary_key (revenue r)) d Hl) as Hlen.
  destruct (List.filter _ l) as [|x [|y t]]; simpl in *; [| | lia].
  - by exists 0%Q.
  - by exists (arr (revenue x)).
Qed.

Lemma collect_periods_revenue (con : constants) (l : list row)
    (periods : list (row * dt)) :
  collect ((fun r =>
      let '(s, p) := calculate_start_of_current_period con (work r)
                       (Some (month (revenue r))) in
      d ← p; Ok (with_work s r, d)) <$> l) = Ok periods ->
  revenue <$> (fst <$> periods) = revenue <$> l.
Proof.
  revert periods. induction l as [|r l IH]; simpl; intros periods.
  - intros [= <-]. reflexivity.
  - destruct (calculate_start_of_current_period con (work r) _) as [s [d|e]];
      simpl; [| done].
    destruct (collect _) as [t|e]; simpl; [| done].
    intros [= <-]. simpl. f_equal. apply IH. reflexivity.
Qed.

Lemma row_key_of_revenue (l1 l2 : list row) :
  revenue <$> l1 = revenue <$> l2 -> row_key <$> l1 = row_key <$> l2.
Proof.
  intros H.
  change row_key with ((fun v => (primary_key v, month v)) ∘ revenue).
  rewrite !list_fmap_compose, H. reflexivity.
Qed.

Lemma imap_with_arr_change_revenue (f : nat -> row -> Q) (l : list row) :
  revenue <$> imap (fun i r => with_arr_change (f i r) r) l = revenue <$> l.
Proof.
  revert f. induction l as [|r l IH]; intros f; [done |].
  simpl. f_equal. apply (IH (fun i => f (S i))).
Qed.

Lemma arr_changes_rows (con : constants) (df df' : list row) :
  NoDup (row_key <$> df) ->
  calculate_arr_changes con df = Ok df' ->
  revenue <$> df' = revenue <$> sort_values df
  /\ Forall (fun r => arr_delta r = (arr (revenue r) - arr_bop r)%Q) df'.
Proof.
  intros Hkeys. unfold calculate_arr_changes.
  destruct (crb_number_months con).
  - intros [= <-]. split.
    + apply imap_with_arr_change_revenue.
    + apply Forall_forall. intros r (i & r0 & -> & _)%elem_of_lookup_imap.
      reflexivity.
  - destruct (collect _) as [periods|e] eqn:E; simpl; [| done].
    intros [= <-].
    pose proof (collect_periods_revenue con _ _ E) as Hrev.
    assert (Hnd : NoDup (row_key <$> (fst <$> periods))).
    { rewrite (row_key_of_revenue _ _ Hrev).
      rewrite (sort_values_perm df). exact Hkeys. }
    rewrite <- Hrev. clear Hrev E.
    generalize (fst <$> periods) at 1 3, Hnd. intros whole Hwhole. clear Hnd.
    induction periods as [|[r d] t IH]; [split; [done | constructor] |].
    rewrite bind_cons. cbn [fst snd].
    destruct (merge_bop_single whole r d Hwhole) as (bop & ->).
    destruct IH as [IH1 IH2]. split.
    + simpl. f_equal. exact IH1.
    + simpl. constructor; [reflexivity | exact IH2].
Qed.

(** X20: when no two rows share primary key and month, the ARR-change
    step returns exactly the rows it was given, in sorted order, under
    either policy: no row is lost to or multiplied by the self-merge, and
    on every row [arr_delta] is [arr - arr_bop]. *)
Theorem arr_changes_keeps_rows (con : constants) (df df' : list row) :
  NoDup (row_key <$> df) ->
  calculate_arr_changes con df = Ok df' ->
  revenue <$> df' = revenue <$> sort_values df
  /\ Forall (fun r => arr_delta r = (arr (revenue r) - arr_bop r)%Q) df'.
Proof.
  exact (arr_changes_rows con df df').
Qed.

Lemma arr_changes_keeps_rows_witness :
  exists df',
    calculate_arr_changes (mkConstants YTD 0 1)
      (trim_dataset (mkConstants YTD 0 1)
         (calculate_segment_start_end_dates
            (monthly 7 1 1 (mkDate 2020 1 1) [100%Q; 50%Q]))) = Ok df'
    /\ Forall (fun r => arr_delta r = (arr (revenue r) - arr_bop r)%Q) df'.
Proof.
  destruct (calculate_arr_changes (mkConstants YTD 0 1)
      (trim_dataset (mkConstants YTD 0 1)
         (calculate_segment_start_end_dates
            (monthly 7 1 1 (mkDate 2020 1 1) [100%Q; 50%Q]))))
    as [df' | e] eqn:E.
  - exists df'. split; [reflexivity |].
    refine (proj2 (arr_changes_keeps_rows (mkConstants YTD 0 1) _ df' _ E)).
    apply (@bool_decide_unpack _ (NoDup_dec _)). vm_compute. exact I.
  - vm_compute in E. discriminate E.
Defined.

End ArrChangesRows.

Section FlatTableKeys.

Lemma NoDup_fmap_coarser {A B C : Type} (f : A -> B) (g : A -> C) (l : list A) :
  (forall x y, x ∈ l -> y ∈ l -> g x = g y -> f x = f y) ->
  NoDup (f <$> l) -> NoDup (g <$> l).
Proof.
  induction l as [|x l IH]; simpl; intros Hfg; [constructor |].
  intros [Hx Hl]%NoDup_cons. apply NoDup_cons. split.
  - intros (y & Hy & Hin)%list_elem_of_fmap. apply Hx.
    apply list_elem_of_fmap. exists y. split; [| exact Hin].
    apply Hfg; [left | by right | exact Hy].
  - apply IH; [| exact Hl]. intros a b Ha Hb. apply Hfg; by right.
Qed.

Lemma fmap_filter_fmap {A B : Type} (h : A -> B) (g : B -> A) (P : B -> bool)
    (l : list A) :
  (forall x, g (h x) = x) ->
  g <$> List.filter P (h <$> l) = List.filter (fun x => P (h x)) l.
Proof.
  intros Hgh. induction l as [|x l IH]; [done |].
  rewrite fmap_cons. cbn [List.filter].
  destruct (P (h x)); rewrite ?fmap_cons, ?Hgh, IH; reflexivity.
Qed.

Lemma fmap_filter_fmap_same {A B : Type} (g : A -> B) (Q : B -> bool)
    (l : list A) :
  g <$> List.filter (fun x => Q (g x)) l = List.filter Q (g <$> l).
Proof.
  induction l as [|x l IH]; [done |].
  rewrite fmap_cons. cbn [List.filter].
  destruct (Q (g x)); rewrite ?fmap_cons, IH; reflexivity.
Qed.

Lemma filter_filter_and {A : Type} (P Q : A -> bool) (l : list A) :
  List.filter Q (List.filter P l) = List.filter (fun x => P x && Q x) l.
Proof.
  induction l as [|x l IH]; [done |].
  cbn [List.filter]. destruct (P x); cbn [List.filter andb]; by rewrite IH.
Qed.

Lemma filter_perm {A : Type} (Q : A -> bool) (l l' : list A) :
  l ≡ₚ l' -> List.filter Q l ≡ₚ List.filter Q l'.
Proof.
  induction 1 as [| x l l' _ IH | x y l | l l' l'' _ IH1 _ IH2];
    cbn [List.filter].
  - reflexivity.
  - destruct (Q x); [by rewrite IH | exact IH].
  - destruct (Q x), (Q y); try reflexivity. apply perm_swap.
  - by rewrite IH1.
Qed.

(** The rows [trim_dataset] keeps are input rows, in input order. *)
Lemma trim_rows_filter (con : constants) (df : list revenue_row) :
  exists P,
    revenue <$> trim_dataset con (calculate_segment_start_end_dates df)
    = List.filter P df.
Proof.
  unfold trim_dataset, calculate_segment_start_end_dates.
  destruct (crb_number_months con).
  - eexists. apply (fmap_filter_fmap (fun v => initial_row v (lifespan_of df v))).
    reflexivity.
  - rewrite <- !list_fmap_compose.
    eexists. apply fmap_filter_fmap.
    intros v. simpl.
    destruct (calculate_start_of_next_period con _ _). reflexivity.
Qed.

Lemma filled_rows_segments (df : list revenue_row) (g : revenue_row) :
  g ∈ fill_month_completeness df -> exists v, v ∈ df /\ segment_key g = segment_key v.
Proof.
  unfold fill_month_completeness.
  destruct (min_date (month <$> df)); [| by exists g].
  destruct (max_date (month <$> df)); [| by exists g].
  intros [Hg | Hg]%elem_of_app; [by exists g |].
  apply list_elem_of_In, filter_In in Hg as [Hg _].
  apply list_elem_of_In, list_elem_of_bind in Hg as (k & Hg & Hk).
  apply list_elem_of_fmap in Hg as (m & -> & _).
  apply elem_of_remove_dups, list_elem_of_fmap in Hk as (v & -> & Hv).
  exists v. split; [exact Hv | reflexivity].
Qed.

Lemma filled_row_keys_NoDup (df : list revenue_row) :
  Forall (fun v => valid_month (month v)) df ->
  NoDup (key_month <$> df) -> key_determines_segment df ->
  NoDup ((fun v => (primary_key v, month v)) <$> fill_month_completeness df).
Proof.
  intros Hvalid Hdf Hseg.
  apply (NoDup_fmap_coarser key_month); [| by apply fill_key_month_NoDup].
  intros x y Hx Hy [= Hk Hm]. unfold key_month. f_equal; [| exact Hm].
  destruct (filled_rows_segments df x Hx) as (v & Hv & Ev).
  destruct (filled_rows_segments df y Hy) as (w & Hw & Ew).
  rewrite Ev, Ew. apply Hseg; [exact Hv | exact Hw |].
  unfold segment_key in Ev, Ew. congruence.
Qed.

(** Under unique keys the flat table holds, up to order, a selection of
    the rows of the gap-filled input. *)
Lemma flat_rows_selection (con : constants) (data : list revenue_row)
    (out : list row) :
  Forall (fun v => valid_month (month v)) data ->
  NoDup (key_month <$> data) -> key_determines_segment data ->
  customer_revenue_bridge con data = Ok out ->
  exists P, revenue <$> out ≡ₚ List.filter P (fill_month_completeness data).
Proof.
  intros Hvalid Hdf Hseg (changes & E & _ & ->)%bridge_inv.
  pose proof (filled_row_keys_NoDup data Hvalid Hdf Hseg) as Hfilled.
  destruct (trim_rows_filter con (fill_month_completeness data)) as (P & Htrim).
  set (trimmed := trim_dataset con
         (calculate_segment_start_end_dates (fill_month_completeness data))) in *.
  assert (Hkeys : NoDup (row_key <$> trimmed)).
  { change row_key with ((fun v => (primary_key v, month v)) ∘ revenue).
    rewrite list_fmap_compose, Htrim. by apply NoDup_fmap_filter. }
  destruct (arr_changes_rows con trimmed changes Hkeys E) as [Hrev _].
  set (steps := fun r => create_arr_deltas
         (crb_upsell_flags con (crb_add_cross_sell_flags con
            (crb_add_churn_flags con r)))).
  assert (Hsteps : forall r, revenue (steps r) = revenue r).
  { intros r. unfold steps. simpl.
    destruct (classify_row_keeps con r) as [Hr _]. exact Hr. }
  rewrite <- !list_fmap_compose.
  match goal with
  | |- context [?F <$> changes] => change (F <$> changes) with (steps <$> changes)
  end.
  assert (Hall : revenue <$> (steps <$> changes) ≡ₚ List.filter P
                   (fill_month_completeness data)).
  { rewrite <- list_fmap_compose.
    rewrite (list_fmap_ext (revenue ∘ steps) revenue changes)
      by (intros i x _; exact (Hsteps x)).
    rewrite Hrev, (sort_values_perm trimmed), Htrim. reflexivity. }
  exists (fun v => P v && date_leb (mkDate 2012 1 1) (month v)).
  unfold create_flattened_output.
  rewrite (fmap_filter_fmap_same revenue
             (fun v => date_leb (mkDate 2012 1 1) (month v))).
  rewrite (filter_perm _ _ _ Hall), filter_filter_and. reflexivity.
Qed.

(** X21: the flat table has at most one row per primary key and month,
    and every row of it is a row of the gap-filled input: if the input has
    valid months, no two rows with the same segment and month, and a primary
    key that determines the segment, the pipeline neither duplicates nor
    invents a row, under any policy (the input has no dimension columns,
    so the final merge with the dimension table adds nothing). *)
Theorem flat_table_keys_unique (con : constants) (data : list revenue_row)
    (out : list row) :
  Forall (fun v => valid_month (month v)) data ->
  NoDup (key_month <$> data) -> key_determines_segment data ->
  customer_revenue_bridge con data = Ok out ->
  NoDup (row_key <$> out)
  /\ forall r, r ∈ out -> revenue r ∈ fill_month_completeness data.
Proof.
  intros Hvalid Hdf Hseg Hrun.
  destruct (flat_rows_selection con data out Hvalid Hdf Hseg Hrun) as (P & HP).
  split.
  - change row_key with ((fun v => (primary_key v, month v)) ∘ revenue).
    rewrite list_fmap_compose, HP.
    apply NoDup_fmap_filter. by apply filled_row_keys_NoDup.
  - intros r Hr.
    assert (Hin : revenue r ∈ revenue <$> out)
      by (apply list_elem_of_fmap; exists r; done).
    rewrite HP in Hin.
    apply list_elem_of_In, filter_In in Hin as [Hin _].
    by apply list_elem_of_In.
Qed.

Lemma flat_table_keys_unique_witness :
  exists out,
    customer_revenue_bridge (mkConstants YTD 0 1)
      (monthly 7 1 1 (mkDate 2020 1 1) [100%Q; 50%Q]) = Ok out
    /\ NoDup (row_key <$> out).
Proof.
  destruct (customer_revenue_bridge (mkConstants YTD 0 1)
      (monthly 7 1 1 (mkDate 2020 1 1) [100%Q; 50%Q])) as [out | e] eqn:E.
  - exists out. split; [reflexivity |].
    refine (proj1 (flat_table_keys_unique (mkConstants YTD 0 1) _ out _ _ _ E)).
    + unfold monthly. cbn [imap].
      repeat (apply Forall_cons_2;
                [unfold valid_month; vm_compute; split; discriminate |]).
      apply Forall_nil_2.
    + apply (@bool_decide_unpack _ (NoDup_dec _)). vm_compute. exact I.
    + intros v w Hv Hw _.
      unfold monthly in Hv, Hw. cbn [imap] in Hv, Hw.
      rewrite !elem_of_cons, elem_of_nil in Hv, Hw.
      destruct Hv as [-> | [-> | []]]; destruct Hw as [-> | [-> | []]];
        reflexivity.
  - vm_compute in E. discriminate E.
Defined.

End FlatTableKeys.

(** ** The waterfall table and the reconciliation *)

Section WaterfallSums.

Lemma Qsum_fmap_plus {A : Type} (f g : A -> Q) (l : list A) :
  (Qsum (f <$> l) + Qsum (g <$> l) == Qsum ((fun x => f x + g x) <$> l))%Q.
Proof.
  induction l as [|x l IH]; [reflexivity |].
  rewrite !fmap_cons. unfold Qsum in *. cbn [fold_right].
  rewrite <- IH. ring.
Qed.

Lemma Qsum_fmap_ext {A : Type} (f g : A -> Q) (l : list A) :
  Forall (fun x => f x == g x)%Q l -> (Qsum (f <$> l) == Qsum (g <$> l))%Q.
Proof.
  induction 1 as [|x l Hx _ IH]; simpl; [reflexivity |].
  rewrite Hx, IH. reflexivity.
Qed.

Lemma entity_total_app (k : Z) (l1 l2 : list melted_row) :
  (entity_total k (l1 ++ l2) == entity_total k l1 + entity_total k l2)%Q.
Proof.
  unfold entity_total, numeric_cells.
  rewrite List.filter_app, omap_app, !List.filter_app, fmap_app.
  apply Qsum_app.
Qed.

Lemma entity_total_single (k : Z) (c : string * (row -> option Q)) (r : row) :
  (entity_total k [melted_cell c r]
   == if bool_decide (c.1 = "EoP ARR") then 0
      else if primary_key (revenue r) =? k then cell_amount (c.2 r) else 0)%Q.
Proof.
  unfold entity_total, numeric_cells, melted_cell, is_eop, cell_amount.
  cbn [List.filter melted_Value_yearly].
  destruct (c.2 r) as [q|] eqn:Eq; cbn [ne_zero].
  - destruct (Qnonzero q) eqn:Enz.
    + cbn [omap list_omap option_fmap fmap option_map melted_Value_yearly
           List.filter Value_type melted_Value_type w_primary_key
           melted_primary_key melted_Customer_ID melted_Month].
      destruct (bool_decide (c.1 = "EoP ARR")) eqn:Eeop; cbn [negb List.filter].
      * reflexivity.
      * cbn [w_primary_key].
        destruct (Z.eqb_spec (primary_key (revenue r)) k) as [Hk | Hk].
        -- rewrite bool_decide_eq_true_2 by exact Hk.
           cbn [fmap list_fmap Qsum fold_right Value_yearly]. ring.
        -- rewrite bool_decide_eq_false_2 by exact Hk. reflexivity.
    + assert (Hq : (q == 0)%Q).
      { unfold Qnonzero in Enz. apply negb_false_iff in Enz.
        by apply Qeq_bool_iff. }
      cbn [omap list_omap List.filter fmap list_fmap].
      destruct (bool_decide (c.1 = "EoP ARR")); [reflexivity |].
      destruct (primary_key (revenue r) =? k); [| reflexivity].
      rewrite Hq. reflexivity.
  - cbn [omap list_omap option_fmap fmap option_map melted_Value_yearly
         List.filter list_fmap].
    destruct (bool_decide (c.1 = "EoP ARR")); [reflexivity |].
    destruct (primary_key (revenue r) =? k); reflexivity.
Qed.

Lemma entity_total_column (k : Z) (c : string * (row -> option Q))
    (df : list row) :
  (entity_total k (melted_cell c <$> df)
   == if bool_decide (c.1 = "EoP ARR") then 0
      else Qsum ((fun r => cell_amount (c.2 r))
                 <$> List.filter (fun r => primary_key (revenue r) =? k) df))%Q.
Proof.
  induction df as [|r df IH].
  - destruct (bool_decide _); reflexivity.
  - rewrite fmap_cons.
    change (melted_cell c r :: (melted_cell c <$> df))
      with ([melted_cell c r] ++ (melted_cell c <$> df)).
    rewrite entity_total_app, IH, entity_total_single. clear IH.
    destruct (bool_decide (c.1 = "EoP ARR")); [ring |].
    cbn [List.filter].
    destruct (primary_key (revenue r) =? k); [| ring].
    rewrite fmap_cons. unfold Qsum. cbn [fold_right]. reflexivity.
Qed.

Lemma entity_total_melt (k : Z) (df : list row) :
  (entity_total k (melt df)
   == Qsum (row_total <$> List.filter (fun r => primary_key (revenue r) =? k) df))%Q.
Proof.
  unfold melt, row_total.
  generalize cols_to_melt. intros cols.
  induction cols as [|c cols IH].
  - simpl. symmetry. apply Qsum_zeros, Forall_forall.
    intros q (r & -> & _)%list_elem_of_fmap. reflexivity.
  - rewrite bind_cons, entity_total_app, IH, entity_total_column.
    cbn [List.filter].
    destruct (bool_decide (c.1 = "EoP ARR")); cbn [negb].
    + ring.
    + rewrite Qsum_fmap_plus. apply Qsum_fmap_ext, Forall_forall.
      intros r _. rewrite fmap_cons. unfold Qsum. cbn [fold_right]. reflexivity.
Qed.

Lemma arr_changes_delta (con : constants) (df df' : list row) :
  calculate_arr_changes con df = Ok df' ->
  Forall (fun r => arr_delta r = (arr (revenue r) - arr_bop r)%Q) df'.
Proof.
  unfold calculate_arr_changes. destruct (crb_number_months con).
  - intros [= <-]. apply Forall_forall.
    intros r (i & r0 & -> & _)%elem_of_lookup_imap. reflexivity.
  - destruct (collect _) as [periods|e]; simpl; [| done].
    intros [= <-]. apply Forall_forall.
    intros r ([r0 d] & Hr & _)%list_elem_of_bind.
    unfold merge_bop in Hr. cbn [fst snd] in Hr.
    destruct (List.filter _ _) as [|x t].
    + apply list_elem_of_singleton in Hr as ->. reflexivity.
    + apply list_elem_of_fmap in Hr as (y & -> & _). reflexivity.
Qed.

Lemma classify_row_keeps_bop (con : constants) (r : row) :
  arr_bop (classify_row con r) = arr_bop r.
Proof.
  unfold classify_row, crb_upsell_flags, existing_flags,
    crb_add_cross_sell_flags, crb_add_churn_flags.
  destruct (crb_number_months con); [reflexivity |].
  repeat match goal with
         | |- context [in_first_period ?c ?s ?a ?m] =>
             destruct (in_first_period c s a m)
         | |- context [calculate_start_of_next_period ?c ?s ?a] =>
             destruct (calculate_start_of_next_period c s a)
         end; reflexivity.
Qed.

(** The rows of the flat table: classified from a row without flags, with
    [arr_delta = arr - arr_bop]. *)
Lemma bridge_rows_shape (con : constants) (data : list revenue_row)
    (rows : list row) (r : row) :
  customer_revenue_bridge con data = Ok rows -> r ∈ rows ->
  exists r0, r = create_arr_deltas (classify_row con r0)
             /\ unclassified r0
             /\ arr_delta r0 = (arr (revenue r0) - arr_bop r0)%Q.
Proof.
  intros (df & E & _ & ->)%bridge_inv [Hin _]%list_elem_of_In%filter_In.
  apply list_elem_of_In in Hin.
  apply list_elem_of_fmap in Hin as (r3 & -> & Hin).
  apply list_elem_of_fmap in Hin as (r2 & -> & Hin).
  apply list_elem_of_fmap in Hin as (r1 & -> & Hin).
  apply list_elem_of_fmap in Hin as (r0 & -> & Hin).
  exists r0. split; [reflexivity |]. split.
  - eapply Forall_forall; [|exact Hin].
    eapply arr_changes_unclassified; [|exact E].
    apply trim_dataset_unclassified, Forall_forall.
    intros x (v & -> & _)%list_elem_of_fmap. reflexivity.
  - pose proof (arr_changes_delta con _ _ E) as Hd.
    rewrite Forall_forall in Hd. exact (Hd r0 Hin).
Qed.

(** One row's share of the check sum: BoP and the six deltas less the
    ARR, the derived columns cancelling against their reversed copies. *)
Lemma row_total_classified (r1 : row) :
  Forall zero_or_one (bucket_flags (flag r1)) ->
  arr_delta r1 = (arr (revenue r1) - arr_bop r1)%Q ->
  (row_total (create_arr_deltas r1)
   == surplus_buckets (create_arr_deltas r1) * arr_delta r1)%Q.
Proof.
  destruct r1 as [rev lf wk bop d [nc cc cs pc ec ep up ds] dl].
  unfold bucket_flags. cbn [flag new_customer_flag customer_churn_flag
    cross_sell_flag product_churn_flag upsell_flag downsell_flag
    arr_delta arr_bop revenue].
  rewrite !Forall_cons, Forall_nil. unfold zero_or_one.
  intros (H1 & H2 & H3 & H4 & H5 & H6 & _) ->.
  destruct H1 as [-> | ->], H2 as [-> | ->], H3 as [-> | ->],
    H4 as [-> | ->], H5 as [-> | ->], H6 as [-> | ->];
    unfold surplus_buckets;
    match goal with
    | |- context [inject_Z (Z.of_nat (buckets_set ?f))] =>
        let n := eval vm_compute in (inject_Z (Z.of_nat (buckets_set f))) in
        change (inject_Z (Z.of_nat (buckets_set f))) with n
    end;
    unfold row_total, cols_to_melt, Qsum; simpl; ring.
Qed.

Lemma pipeline_check_sum (con : constants)
    (data : list revenue_row) (out : list row) (k : Z) (total : Q) :
  customer_revenue_bridge con data = Ok out ->
  (k, total) ∈ check_sums (df_waterfall_file out) ->
  (total == Qsum ((fun r => surplus_buckets r * arr_delta r)
                  <$> List.filter (fun r => primary_key (revenue r) =? k) out))%Q.
Proof.
  intros Hrun Hin. unfold df_waterfall_file, check_sums, sum_by in Hin.
  apply list_elem_of_fmap in Hin as (k' & [= -> ->] & _).
  change (entity_total k' (melt out)
          == Qsum ((fun r => surplus_buckets r * arr_delta r)
                   <$> List.filter (fun r => primary_key (revenue r) =? k') out))%Q.
  rewrite entity_total_melt. apply Qsum_fmap_ext, Forall_forall.
  intros r [Hr _]%list_elem_of_In%filter_In. apply list_elem_of_In in Hr.
  destruct (bridge_rows_shape con data out r Hrun Hr) as (r0 & -> & Hr0 & Hd).
  destruct (classify_row_keeps con r0) as (Hrev & _ & Hdelta).
  destruct (classify_row_exclusive con r0 Hr0) as [Hflags _].
  change (arr_delta (create_arr_deltas (classify_row con r0)))
    with (arr_delta (classify_row con r0)).
  apply row_total_classified; [exact Hflags |].
  rewrite Hdelta, Hrev, classify_row_keeps_bop. exact Hd.
Qed.

(** X22: in the waterfall built from the pipeline's flat table, the check
    sum of an entity (every category but 'EoP ARR') is the sum over its
    rows of (number of buckets the row is booked to - 1) x [arr_delta]: a
    row in exactly one bucket adds nothing, a row with an ARR change and no
    bucket takes its change away, a row in two buckets counts it twice. *)
Theorem waterfall_check_sum_counts_buckets (con : constants)
    (data : list revenue_row) (out : list row) (k : Z) (total : Q) :
  customer_revenue_bridge con data = Ok out ->
  (k, total) ∈ check_sums (df_waterfall_file out) ->
  (total == Qsum ((fun r => surplus_buckets r * arr_delta r)
                  <$> List.filter (fun r => primary_key (revenue r) =? k) out))%Q.
Proof.
  exact (pipeline_check_sum con data out k total).
Qed.

Lemma waterfall_check_sum_counts_buckets_witness :
  exists out total,
    customer_revenue_bridge (mkConstants YTD 0 1)
      (monthly 7 1 1 (mkDate 2020 1 1) [100%Q; 50%Q; 50%Q]) = Ok out
    /\ (1, total) ∈ check_sums (df_waterfall_file out)
    /\ (total == Qsum ((fun r => surplus_buckets r * arr_delta r)
                       <$> List.filter (fun r => primary_key (revenue r) =? 1) out))%Q.
Proof.
  destruct (customer_revenue_bridge (mkConstants YTD 0 1)
              (monthly 7 1 1 (mkDate 2020 1 1) [100%Q; 50%Q; 50%Q]))
    as [out | e] eqn:E.
  - pose proof E as E2. vm_compute in E2. injection E2 as E2. subst out.
    eexists _, _. split; [reflexivity |].
    assert (Hin : forall (total : Q) (cells : list (Z * Q)),
               In (1, total) cells -> (1, total) ∈ cells)
      by (intros; by apply list_elem_of_In).
    split.
    + apply Hin. vm_compute. left. reflexivity.
    + apply (waterfall_check_sum_counts_buckets (mkConstants YTD 0 1)
               (monthly 7 1 1 (mkDate 2020 1 1) [100%Q; 50%Q; 50%Q]));
        [exact E |].
      apply Hin. vm_compute. left. reflexivity.
  - vm_compute in E. discriminate E.
Defined.

End WaterfallSums.

Section Reconciliation.

(** X23: when every row of the pipeline's flat table is booked to exactly
    one bucket or has no ARR change, every entity's check sum is zero and
    [check_waterfall_sums] does not raise 'Waterfall does not sum to
    zero': it returns or fails on the annual totals. *)
Theorem one_bucket_per_row_sums_to_zero (con : constants)
    (data : list revenue_row) (out : list row) (df_initial : input_frame) :
  customer_revenue_bridge con data = Ok out ->
  Forall (fun r => buckets_set (flag r) = 1%nat \/ (arr_delta r == 0)%Q) out ->
  Forall (fun p => (p.2 == 0)%Q) (check_sums (df_waterfall_file out))
  /\ (check_waterfall_sums df_initial (df_waterfall_file out) = SumsEqual
      \/ exists printed,
           check_waterfall_sums df_initial (df_waterfall_file out)
           = SumsNotEqual printed).
Proof.
  intros Hrun Hone.
  assert (Hzero : Forall (fun p => (p.2 == 0)%Q)
                    (check_sums (df_waterfall_file out))).
  { apply Forall_forall. intros [k total] Hin.
    rewrite (pipeline_check_sum con data out k total Hrun Hin).
    rewrite (Qsum_fmap_ext _ (fun _ => 0%Q)).
    - apply Qsum_zeros, Forall_forall.
      intros q (r & -> & _)%list_elem_of_fmap. reflexivity.
    - apply Forall_forall. intros r [Hr _]%list_elem_of_In%filter_In.
      apply list_elem_of_In in Hr. rewrite Forall_forall in Hone.
      destruct (Hone r Hr) as [H1 | H0].
      + unfold surplus_buckets. rewrite H1. simpl. ring.
      + rewrite H0. ring. }
  split; [exact Hzero |].
  unfold check_waterfall_sums.
  assert (Hnone : List.filter (fun p : Z * Q => negb (round2 p.2 =? 0))
                    (check_sums (df_waterfall_file out)) = []).
  { induction Hzero as [|p l Hp _ IH]; [reflexivity |].
    cbn [List.filter].
    assert (Hr : round2 p.2 = 0).
    { apply round2_zero_iff. rewrite Hp. done. }
    rewrite Hr. exact IH. }
  rewrite Hnone.
  destruct (decide _); [by left | right; eauto].
Qed.

Lemma one_bucket_per_row_sums_to_zero_witness :
  exists out,
    customer_revenue_bridge (mkConstants number_of_months 1 1)
      (monthly 7 1 1 (mkDate 2020 1 1) [100%Q; 150%Q]) = Ok out
    /\ Forall (fun p => (p.2 == 0)%Q) (check_sums (df_waterfall_file out)).
Proof.
  destruct (customer_revenue_bridge (mkConstants number_of_months 1 1)
              (monthly 7 1 1 (mkDate 2020 1 1) [100%Q; 150%Q]))
    as [out | e] eqn:E.
  - pose proof E as E2. vm_compute in E2. injection E2 as E2. subst out.
    eexists. split; [reflexivity |].
    refine (proj1 (one_bucket_per_row_sums_to_zero
                     (mkConstants number_of_months 1 1)
                     (monthly 7 1 1 (mkDate 2020 1 1) [100%Q; 150%Q]) _
                     (df_primary_frame []) E _)).
    rewrite !Forall_cons, Forall_nil.
    split_and!; try (left; vm_compute; reflexivity); done.
  - vm_compute in E. discriminate E.
Defined.

Lemma arr_changes_rows_from (con : constants) (df df' : list row) (r : row) :
  calculate_arr_changes con df = Ok df' -> r ∈ df' ->
  exists r0, r0 ∈ df /\ revenue r = revenue r0.
Proof.
  unfold calculate_arr_changes.
  destruct (crb_number_months con).
  - intros [= <-] (i & r0 & -> & Hl)%elem_of_lookup_imap.
    exists r0. split; [| reflexivity].
    apply sort_values_elem, list_elem_of_lookup. eauto.
  - destruct (collect _) as [periods|e] eqn:E; simpl; [|done].
    intros [= <-] ([r1 d] & Hin & Hrp)%list_elem_of_bind.
    apply (collect_elem _ _ _ E) in Hrp.
    apply list_elem_of_fmap in Hrp as (r0 & Heq & Hr0).
    destruct (calculate_start_of_current_period con (work r0) _) as [s [d'|e']];
      simpl in Heq; [|done].
    injection Heq as -> ->.
    exists r0. split; [by apply sort_values_elem |].
    unfold merge_bop in Hin. cbn [fst snd] in Hin.
    destruct (List.filter _ _) as [|q l].
    + apply list_elem_of_singleton in Hin as ->. reflexivity.
    + apply list_elem_of_fmap in Hin as (r' & -> & _). reflexivity.
Qed.

(** Every row of the flat table carries a row of the gap-filled input. *)
Lemma bridge_rows_from_filled (con : constants) (data : list revenue_row)
    (out : list row) (r : row) :
  customer_revenue_bridge con data = Ok out -> r ∈ out ->
  revenue r ∈ fill_month_completeness data.
Proof.
  intros Hrun Hr.
  destruct (bridge_rows_shape con data out r Hrun Hr) as (r0 & -> & _ & _).
  apply bridge_inv in Hrun as (df & E & _ & ->).
  apply list_elem_of_In, filter_In in Hr as [Hr _].
  apply list_elem_of_In in Hr.
  apply list_elem_of_fmap in Hr as (r3 & Heq3 & Hr).
  apply list_elem_of_fmap in Hr as (r2 & -> & Hr).
  apply list_elem_of_fmap in Hr as (r1 & -> & Hr).
  apply list_elem_of_fmap in Hr as (r4 & -> & Hr).
  assert (Hrev : revenue (create_arr_deltas (classify_row con r0)) = revenue r4).
  { rewrite Heq3. change (revenue (classify_row con r4) = revenue r4).
    apply classify_row_keeps. }
  rewrite Hrev.
  destruct (arr_changes_rows_from con _ _ r4 E Hr) as (r5 & Hr5 & ->).
  destruct (trim_rows_filter con (fill_month_completeness data)) as (P & Htrim).
  assert (Hin : revenue r5 ∈ revenue <$> trim_dataset con
            (calculate_segment_start_end_dates (fill_month_completeness data))).
  { apply list_elem_of_fmap. exists r5. done. }
  rewrite Htrim in Hin.
  apply list_elem_of_In, filter_In in Hin as [Hin _].
  by apply list_elem_of_In.
Qed.

Lemma filled_row_amount (df : list revenue_row) (g : revenue_row) :
  g ∈ fill_month_completeness df -> g ∈ df \/ arr g = 0%Q.
Proof.
  destruct (fill_shape df) as (missing & -> & Hmissing).
  intros [Hg | Hg]%elem_of_app; [by left | right].
  rewrite Forall_forall in Hmissing. by destruct (Hmissing g Hg).
Qed.

(** The years the waterfall has an annual total for are years with a flat
    row of non-zero ARR. *)
Lemma waterfall_year_has_revenue (flat : list row) (y : Z) :
  is_Some (revenue_by_year_waterfall (df_waterfall_file flat) !! y) ->
  exists r, r ∈ flat /\ year (month (revenue r)) = y
            /\ Qnonzero (arr (revenue r)) = true.
Proof.
  intros Hy. unfold revenue_by_year_waterfall, rounded_dict, sum_by in Hy.
  destruct (decide (y ∈ ((fun p : Z * Q => (p.1, round2 p.2)) <$>
      ((fun k => (k, Qsum (Value_yearly <$> List.filter
                    (fun r => bool_decide (year (Month r) = k))
                    (List.filter is_eop (df_waterfall_file flat))))) <$>
       remove_dups ((fun w => year (Month w)) <$>
                    List.filter is_eop (df_waterfall_file flat)))).*1))
    as [Hin | Hout];
    [| apply not_elem_of_list_to_map_1 in Hout; rewrite Hout in Hy;
       by destruct Hy].
  apply list_elem_of_fmap in Hin as ([y' z] & -> & Hin).
  apply list_elem_of_fmap in Hin as ([y'' q] & [= -> ->] & Hin).
  apply list_elem_of_fmap in Hin as (k & [= -> ->] & Hin).
  apply elem_of_remove_dups, list_elem_of_fmap in Hin as (w & -> & Hw).
  apply list_elem_of_In, filter_In in Hw as [Hw Heop].
  apply list_elem_of_In in Hw.
  unfold df_waterfall_file, numeric_cells in Hw.
  apply list_elem_of_omap in Hw as (m & Hm & Hval).
  destruct (melted_Value_yearly m) as [q0|] eqn:Eq0; [| done].
  injection Hval as <-. simpl.
  unfold is_eop in Heop. apply bool_decide_eq_true in Heop. simpl in Heop.
  unfold create_waterfall_output in Hm.
  apply list_elem_of_In, filter_In in Hm as [Hm Hnz].
  apply list_elem_of_In in Hm. unfold melt in Hm.
  apply list_elem_of_bind in Hm as (c & Hm & Hc).
  apply list_elem_of_fmap in Hm as (r & -> & Hr).
  exists r. split; [exact Hr |]. split; [reflexivity |].
  simpl in Heop, Hnz, Eq0.
  unfold cols_to_melt in Hc.
  repeat (apply elem_of_cons in Hc as [-> | Hc]; [try discriminate Heop |]);
    [| by apply not_elem_of_nil in Hc].
  exact Hnz.
Qed.

(** X24: a year in which the input has rows but no revenue makes the final
    check fail: the input's annual totals have an entry for the year, the
    waterfall, which drops its zero rows, has none, and the two
    dictionaries differ. *)
Theorem zero_revenue_year_fails_reconciliation (con : constants)
    (data : list revenue_row) (out : list row) (v : revenue_row) :
  customer_revenue_bridge con data = Ok out ->
  v ∈ data ->
  (forall w, w ∈ data -> year (month w) = year (month v) ->
             Qnonzero (arr w) = false) ->
  raises_error (check_waterfall_sums (df_primary_frame data)
                  (df_waterfall_file out)).
Proof.
  intros Hrun Hv Hzero.
  assert (Hdiff : revenue_by_year (df_primary_frame data)
                  <> revenue_by_year_waterfall (df_waterfall_file out)).
  { intros Heq.
    assert (Hsome : is_Some (revenue_by_year (df_primary_frame data)
                               !! year (month v))).
    { unfold revenue_by_year, rounded_dict, sum_by.
      apply not_eq_None_Some. intros Hnone.
      apply not_elem_of_list_to_map_2 in Hnone. apply Hnone.
      rewrite <- !list_fmap_compose.
      apply list_elem_of_fmap. eexists. split; [| apply elem_of_remove_dups].
      - reflexivity.
      - simpl. apply list_elem_of_fmap.
        exists (mkInput (customer_id v) (month v) (arr v) 1).
        split; [reflexivity |].
        apply list_elem_of_fmap. exists v. done. }
    rewrite Heq in Hsome.
    apply waterfall_year_has_revenue in Hsome as (r & Hr & Hy & Hnz).
    pose proof (bridge_rows_from_filled con data out r Hrun Hr) as Hfilled.
    apply filled_row_amount in Hfilled as [Hin | H0].
    - rewrite (Hzero _ Hin Hy) in Hnz. discriminate Hnz.
    - rewrite H0 in Hnz. discriminate Hnz. }
  unfold raises_error, check_waterfall_sums.
  destruct (List.filter _ _); [| done].
  destruct (decide _); done.
Qed.

Lemma zero_revenue_year_fails_reconciliation_witness :
  exists out,
    customer_revenue_bridge (mkConstants YTD 0 1)
      (monthly 7 1 1 (mkDate 2019 12 1) [0%Q; 100%Q]) = Ok out
    /\ raises_error
         (check_waterfall_sums
            (df_primary_frame (monthly 7 1 1 (mkDate 2019 12 1) [0%Q; 100%Q]))
            (df_waterfall_file out)).
Proof.
  destruct (customer_revenue_bridge (mkConstants YTD 0 1)
              (monthly 7 1 1 (mkDate 2019 12 1) [0%Q; 100%Q]))
    as [out | e] eqn:E.
  - exists out. split; [reflexivity |].
    apply (zero_revenue_year_fails_reconciliation (mkConstants YTD 0 1)
             (monthly 7 1 1 (mkDate 2019 12 1) [0%Q; 100%Q]) out
             (mkRevenue 7 1 1 (mkDate 2019 12 1) 0) E).
    + left.
    + intros w Hw Hy. unfold monthly in Hw. cbn [imap] in Hw.
      rewrite !elem_of_cons, elem_of_nil in Hw.
      destruct Hw as [-> | [-> | []]]; [reflexivity | discriminate Hy].
  - vm_compute in E. discriminate E.
Defined.

End Reconciliation.


Section AnnualTotals.


















End AnnualTotals.

Section PipelineRuns.







End PipelineRuns.

(** ** The input checks and the primary-key encoder *)

Section InputChecks.

Lemma duplicated_none_iff (keys : list string) :
  duplicated_keep_false keys = [] <-> NoDup keys.
Proof.
  rewrite NoDup_ListNoDup, (NoDup_count_occ' String.string_dec).
  unfold duplicated_keep_false.
  split.
  - intros Hnone k Hk.
    destruct (Nat.ltb_spec 1 (count_occ String.string_dec keys k)) as [Hlt | Hle].
    + assert (Hin : In k (List.filter
                 (fun k => (1 <? count_occ String.string_dec keys k)%nat) keys)).
      { apply filter_In. split; [exact Hk |]. by apply Nat.ltb_lt. }
      rewrite Hnone in Hin. destruct Hin.
    + apply (count_occ_In String.string_dec) in Hk. lia.
  - intros Hone.
    destruct (List.filter _ keys) as [|k t] eqn:E; [reflexivity |].
    assert (Hin : In k (List.filter
               (fun k => (1 <? count_occ String.string_dec keys k)%nat) keys))
      by (rewrite E; by left).
    apply filter_In in Hin as [Hk Hlt]. apply Nat.ltb_lt in Hlt.
    specialize (Hone k Hk). lia.
Qed.

(** X27: [check_primary_key_uniqueness] returns (an empty series) exactly
    when no two rows have the same primary key and month, and raises
    'primary keys not unique' otherwise, provided the string rendering of
    the two columns tells the keys of the table apart. *)
Theorem primary_key_check_passes_iff (str_key : Z -> string)
    (str_month : date -> string) (df : list revenue_row) :
  rendering_separates str_key str_month df ->
  (check_primary_key_uniqueness str_key str_month df = Ok [] <-> unique_keys df)
  /\ (~ unique_keys df ->
      check_primary_key_uniqueness str_key str_month df
      = Raise (ValueError "primary keys not unique")).
Proof.
  intros Hsep.
  assert (Hkeys : NoDup (combined_key str_key str_month <$> df) <-> unique_keys df).
  { unfold unique_keys. split.
    - apply NoDup_fmap_coarser. intros v w Hv Hw [= Hk Hm].
      unfold combined_key. by rewrite Hk, Hm.
    - apply NoDup_fmap_coarser. intros v w Hv Hw Hc.
      destruct (Hsep v w Hv Hw Hc) as [Hk Hm]. by rewrite Hk, Hm. }
  pose proof (duplicated_none_iff (combined_key str_key str_month <$> df)) as Hdup.
  unfold check_primary_key_uniqueness.
  destruct (duplicated_keep_false _) as [|k t].
  - split; [split; [intros _; apply Hkeys, Hdup; reflexivity | reflexivity] |].
    intros Hnot. exfalso. apply Hnot, Hkeys, Hdup. reflexivity.
  - split; [| reflexivity].
    split; [discriminate |].
    intros Hu. apply Hkeys, Hdup in Hu. discriminate Hu.
Qed.

Lemma primary_key_check_passes_iff_witness :
  check_primary_key_uniqueness str_int str_timestamp
    (monthly 7 1 1 (mkDate 2020 1 1) [100%Q; 50%Q])
  = Ok [].
Proof.
  apply primary_key_check_passes_iff.
  - intros v w Hv Hw.
    unfold monthly in Hv, Hw. cbn [imap] in Hv, Hw.
    rewrite !elem_of_cons, elem_of_nil in Hv, Hw.
    destruct Hv as [-> | [-> | []]]; destruct Hw as [-> | [-> | []]];
      vm_compute; intros H; try discriminate H; split; reflexivity.
  - apply (@bool_decide_unpack _ (NoDup_dec _)). vm_compute. exact I.
Defined.

Lemma clamp_negative_non_negative (v : revenue_row) :
  (0 <= arr (clamp_negative v))%Q.
Proof.
  unfold clamp_negative.
  destruct (Qlt_bool (arr v) 0) eqn:E; [done |].
  unfold Qlt_bool in E. apply negb_false_iff in E.
  by apply Qle_bool_iff.
Qed.

Lemma clamp_negative_id (v : revenue_row) :
  (0 <= arr v)%Q -> clamp_negative v = v.
Proof.
  intros Hv. unfold clamp_negative.
  destruct (Qlt_bool (arr v) 0) eqn:E; [| reflexivity].
  apply Qlt_bool_iff in E. exfalso. exact (Qlt_not_le _ _ E Hv).
Qed.

(** X28: [check_arr_column] leaves a table with non-negative ARR: rows
    with a negative ARR get 0, every other row and every other column stay
    as they are; the warning is issued exactly when some ARR was negative,
    and a second call changes nothing and does not warn. *)
Theorem check_arr_column_clamps (df : list revenue_row) :
  non_negative_arr (check_arr_column df).1
  /\ (check_arr_column df).1 = clamp_negative <$> df
  /\ Forall2 (fun v v' =>
       customer_id v' = customer_id v /\ product_id v' = product_id v
       /\ primary_key v' = primary_key v /\ month v' = month v
       /\ arr v' = if Qlt_bool (arr v) 0 then 0%Q else arr v)
       df (check_arr_column df).1
  /\ ((check_arr_column df).2 = false <-> non_negative_arr df)
  /\ check_arr_column (check_arr_column df).1 = ((check_arr_column df).1, false).
Proof.
  assert (Hid : existsb (fun v => Qlt_bool (arr v) 0) df = false ->
                clamp_negative <$> df = df).
  { intros Hnone. rewrite <- (list_fmap_id df) at 2.
    apply list_fmap_ext. intros i v Hv. apply clamp_negative_id.
    apply list_elem_of_lookup_2, list_elem_of_In in Hv.
    destruct (Qlt_bool (arr v) 0) eqn:E.
    - assert (Hex : existsb (fun v => Qlt_bool (arr v) 0) df = true)
        by (apply existsb_exists; eauto).
      congruence.
    - unfold Qlt_bool in E. apply negb_false_iff in E. by apply Qle_bool_iff. }
  assert (Hout : (check_arr_column df).1 = clamp_negative <$> df).
  { unfold check_arr_column.
    destruct (existsb _ df) eqn:E; [reflexivity |]. simpl. by rewrite Hid. }
  assert (Hnn : non_negative_arr (clamp_negative <$> df)).
  { apply Forall_fmap, Forall_forall. intros v _.
    apply clamp_negative_non_negative. }
  assert (Hclean : forall l, non_negative_arr l ->
                     existsb (fun v => Qlt_bool (arr v) 0) l = false).
  { intros l Hl. apply not_true_iff_false.
    intros (v & Hv & Hneg)%existsb_exists.
    apply Qlt_bool_iff in Hneg. unfold non_negative_arr in Hl.
    rewrite Forall_forall in Hl.
    apply list_elem_of_In in Hv. exact (Qlt_not_le _ _ Hneg (Hl v Hv)). }
  rewrite Hout. split_and!.
  - exact Hnn.
  - reflexivity.
  - apply Forall2_fmap_r, Forall2_same_length_lookup. split; [done |].
    intros i v v' Hv Hv'. rewrite Hv in Hv'. injection Hv' as <-.
    cbv beta delta [compose clamp_negative].
    destruct (Qlt_bool (arr v) 0); done.
  - unfold check_arr_column.
    destruct (existsb (fun v => Qlt_bool (arr v) 0) df) eqn:E; simpl.
    + split; [discriminate |]. intros Hl. rewrite (Hclean df Hl) in E.
      discriminate E.
    + split; [| reflexivity]. intros _. rewrite <- (Hid eq_refl). exact Hnn.
  - unfold check_arr_column at 1. rewrite (Hclean _ Hnn). reflexivity.
Qed.

End InputChecks.

Section EncoderFacts.

Lemma position_lookup (v : string) (l : list string) (i : nat) :
  position v l = Some i -> l !! i = Some v.
Proof.
  revert i. induction l as [|x l IH]; intros i; simpl; [done |].
  destruct (bool_decide (x = v)) eqn:E.
  - intros [= <-]. apply bool_decide_eq_true in E. by subst.
  - destruct (position v l) as [j|]; simpl; [| done].
    intros [= <-]. simpl. by apply IH.
Qed.

Lemma position_of_lookup (l : list string) (i : nat) (v : string) :
  NoDup l -> l !! i = Some v -> position v l = Some i.
Proof.
  intros Hl. revert i. induction Hl as [|x l Hx Hl IH]; intros i; [done |].
  destruct i as [|i]; simpl.
  - intros [= ->]. by rewrite bool_decide_eq_true_2.
  - intros Hi. rewrite bool_decide_eq_false_2.
    + by rewrite (IH i Hi).
    + intros ->. apply Hx. by eapply list_elem_of_lookup_2.
Qed.

Lemma remove_dups_of_NoDup (l : list string) : NoDup l -> remove_dups l = l.
Proof.
  induction 1 as [|x l Hx _ IH]; simpl; [done |].
  destruct (decide_rel elem_of x l); [done | by rewrite IH].
Qed.

(** What the dictionary of [encoder] holds: each distinct value, with its
    rank in sorted order. *)
Lemma val_map_lookup (column : list string) (v : string) :
  v ∈ column ->
  exists i,
    np_unique column !! i = Some v
    /\ dict_zip (np_unique column) (factorize (np_unique column)) !! v
       = Some (Z.of_nat i).
Proof.
  intros Hv. unfold dict_zip.
  set (u := np_unique column).
  assert (Hu : NoDup u).
  { unfold u, np_unique. rewrite merge_sort_Permutation.
    apply NoDup_remove_dups. }
  assert (Hin : v ∈ u).
  { unfold u, np_unique. rewrite merge_sort_Permutation.
    by apply elem_of_remove_dups. }
  apply list_elem_of_lookup_1 in Hin as (i & Hi).
  exists i. split; [exact Hi |].
  apply elem_of_list_to_map_1.
  - rewrite fmap_reverse, reverse_Permutation, fst_zip; [exact Hu |].
    unfold factorize. by rewrite length_fmap.
  - apply elem_of_reverse. apply (list_elem_of_lookup_2 _ i).
    apply lookup_zip_Some. split; [exact Hi |].
    unfold factorize. rewrite list_lookup_fmap, Hi. simpl.
    rewrite (remove_dups_of_NoDup u Hu), (position_of_lookup u i v Hu Hi).
    reflexivity.
Qed.

Lemma sorted_lookup_le (l : list string) (i j : nat) (v w : string) :
  StronglySorted String.le l -> l !! i = Some v -> l !! j = Some w ->
  (i <= j)%nat -> String.le v w.
Proof.
  intros Hl. revert i j. induction Hl as [|x l _ IH Hx]; intros i j; [done |].
  destruct i as [|i], j as [|j]; simpl; try lia.
  - intros [= ->] [= ->] _. reflexivity.
  - intros [= ->] Hj _. rewrite Forall_forall in Hx.
    apply Hx. by eapply list_elem_of_lookup_2.
  - intros Hi Hj Hij. apply (IH i j Hi Hj). lia.
Qed.

(** X29: [encoder] replaces every value of the column by a number from 0
    to (number of distinct values - 1), never by NaN, the same number for
    equal values and different numbers for different values, and the
    numbers follow the order of the values: the encoded primary key is the
    rank of the key string it was made from. *)
Theorem encoder_is_injective (column : list string) :
  exists codes,
    encoder column = Some <$> codes
    /\ Forall (fun c => 0 <= c < Z.of_nat (length (remove_dups column))) codes
    /\ forall i j v w c d,
         column !! i = Some v -> column !! j = Some w ->
         codes !! i = Some c -> codes !! j = Some d ->
         (c = d <-> v = w) /\ (c <= d <-> String.le v w).
Proof.
  set (code := fun v => match position v (np_unique column) with
                        | Some i => Z.of_nat i
                        | None => -1
                        end).
  assert (Hcode : forall v, v ∈ column ->
            exists i, np_unique column !! i = Some v
                      /\ code v = Z.of_nat i
                      /\ dict_zip (np_unique column)
                           (factorize (np_unique column)) !! v
                         = Some (code v)).
  { intros v Hv. destruct (val_map_lookup column v Hv) as (i & Hi & Hm).
    exists i. split; [exact Hi |].
    assert (Hu : NoDup (np_unique column)).
    { unfold np_unique. rewrite merge_sort_Permutation.
      apply NoDup_remove_dups. }
    unfold code. rewrite (position_of_lookup _ i v Hu Hi). done. }
  exists (code <$> column). split_and!.
  - unfold encoder. rewrite <- list_fmap_compose.
    apply list_fmap_ext. intros i v Hv.
    destruct (Hcode v (list_elem_of_lookup_2 _ _ _ Hv)) as (k & _ & _ & Hm).
    exact Hm.
  - apply Forall_fmap, Forall_forall. intros v Hv.
    destruct (Hcode v Hv) as (i & Hi & Hc & _).
    apply lookup_lt_Some in Hi.
    unfold np_unique in Hi. rewrite merge_sort_Permutation in Hi.
    unfold compose. rewrite Hc. lia.
  - intros i j v w c d Hv Hw Hc Hd.
    rewrite list_lookup_fmap, Hv in Hc. rewrite list_lookup_fmap, Hw in Hd.
    injection Hc as <-. injection Hd as <-.
    destruct (Hcode v (list_elem_of_lookup_2 _ _ _ Hv)) as (a & Ha & -> & _).
    destruct (Hcode w (list_elem_of_lookup_2 _ _ _ Hw)) as (b & Hb & -> & _).
    assert (Hu : NoDup (np_unique column)).
    { unfold np_unique. rewrite merge_sort_Permutation.
      apply NoDup_remove_dups. }
    assert (Hs : StronglySorted String.le (np_unique column))
      by (apply StronglySorted_merge_sort; apply _).
    assert (Heq : Z.of_nat a = Z.of_nat b <-> v = w).
    { split.
      - intros Hab. assert (a = b) as -> by lia. congruence.
      - intros ->. f_equal. exact (NoDup_lookup _ _ _ _ Hu Ha Hb). }
    split; [exact Heq |]. split.
    + intros Hab. apply (sorted_lookup_le _ a b v w Hs Ha Hb). lia.
    + intros Hvw.
      destruct (Z.le_gt_cases (Z.of_nat a) (Z.of_nat b)) as [Hle | Hgt];
        [exact Hle |].
      assert (Hwv : String.le w v)
        by (apply (sorted_lookup_le _ b a w v Hs Hb Ha); lia).
      assert (v = w) as Hsame by (by apply (anti_symm String.le)).
      apply Heq in Hsame. lia.
Qed.

End EncoderFacts.
